(** * Marine-condition and rogue-wave predictors: a shallow embedding

    The repository holds two command-line inference scripts,
    [marine_model/predict.py] and [rouge_wave_model/predict.py].  Each is a
    single [main] that loads pretrained artifacts, transforms one input,
    runs a forward pass and prints a two-line CSV result.

    The embedding keeps the data as the scripts have it: Python floats are
    IEEE binary64 numbers ([PrimFloat.float]), the single-precision numbers
    of the classifier are rounded to binary32, labels are strings, the
    process is an explicit state (the output streams) threaded through a
    small exception monad.  The pretrained network, the fitted scaler and the
    file system are opaque collaborators and appear as section variables. *)

From Stdlib Require Import ZArith List String Ascii Bool Lia Floats Permutation.
Import ListNotations.

Set Warnings "-inexact-float".

Local Open Scope string_scope.

(** ** IEEE binary64 comparisons

    Python's [<=], [<], [==] on floats are the IEEE predicates: every
    comparison with a NaN is false.  The facts below are derived from the
    specification of the primitive operators. *)

Module F64.

Local Open Scope float_scope.

Definition ge (x y : float) : bool := y <=? x.

(** A rank that orders the non-NaN specification floats the way
    [SFcompare] does: sign first, then exponent, then mantissa. *)
Definition key (x : spec_float) : option (Z * Z * Z) :=
  match x with
  | S754_nan => None
  | S754_infinity true => Some (-2, 0, 0)%Z
  | S754_finite true m e => Some (-1, - e, - Zpos m)%Z
  | S754_zero _ => Some (0, 0, 0)%Z
  | S754_finite false m e => Some (1, e, Zpos m)%Z
  | S754_infinity false => Some (2, 0, 0)%Z
  end.

Definition key_cmp (a b : Z * Z * Z) : comparison :=
  let '(a1, a2, a3) := a in
  let '(b1, b2, b3) := b in
  match (a1 ?= b1)%Z with
  | Eq => match (a2 ?= b2)%Z with Eq => (a3 ?= b3)%Z | c => c end
  | c => c
  end.

Lemma SFcompare_key (x y : spec_float) :
  SFcompare x y =
  match key x, key y with
  | Some a, Some b => Some (key_cmp a b)
  | _, _ => None
  end.
Proof.
  destruct x as [sx|sx| |sx mx ex], y as [sy|sy| |sy my ey];
    try destruct sx; try destruct sy; cbn; try reflexivity.
  rewrite Z.compare_opp, (Z.compare_antisym ex ey).
  now destruct (ex ?= ey)%Z.
Qed.

Lemma key_cmp_opp (a b : Z * Z * Z) : key_cmp b a = CompOpp (key_cmp a b).
Proof.
  destruct a as [[a1 a2] a3], b as [[b1 b2] b3]; cbn.
  rewrite (Z.compare_antisym a1 b1), (Z.compare_antisym a2 b2),
    (Z.compare_antisym a3 b3).
  destruct (a1 ?= b1)%Z, (a2 ?= b2)%Z, (a3 ?= b3)%Z; reflexivity.
Qed.

Lemma SFcompare_opp (x y : spec_float) :
  SFcompare y x = option_map CompOpp (SFcompare x y).
Proof.
  rewrite !SFcompare_key.
  destruct (key x) as [a|], (key y) as [b|]; cbn; trivial.
  now rewrite key_cmp_opp.
Qed.

Definition key_le (a b : Z * Z * Z) : Prop :=
  let '(a1, a2, a3) := a in
  let '(b1, b2, b3) := b in
  (a1 < b1 \/ (a1 = b1 /\ (a2 < b2 \/ (a2 = b2 /\ a3 <= b3))))%Z.

Lemma key_cmp_le (a b : Z * Z * Z) :
  key_le a b <-> key_cmp a b <> Gt.
Proof.
  destruct a as [[a1 a2] a3], b as [[b1 b2] b3]; cbn.
  destruct (Z.compare_spec a1 b1), (Z.compare_spec a2 b2),
    (Z.compare_spec a3 b3); split; intros; try congruence; try lia.
Qed.

Lemma key_le_trans (a b c : Z * Z * Z) :
  key_le a b -> key_le b c -> key_le a c.
Proof.
  destruct a as [[a1 a2] a3], b as [[b1 b2] b3], c as [[c1 c2] c3];
    cbn; lia.
Qed.

Lemma SFleb_key (x y : spec_float) :
  SFleb x y = true <-> exists a b, key x = Some a /\ key y = Some b /\ key_le a b.
Proof.
  unfold SFleb. rewrite SFcompare_key.
  destruct (key x) as [a|], (key y) as [b|]; split;
    try (intros (a' & b' & Ha & Hb & _); congruence);
    try discriminate.
  - intros H. exists a, b. repeat split. apply key_cmp_le.
    destruct (key_cmp a b); congruence.
  - intros (a' & b' & Ha & Hb & Hle).
    injection Ha as <-. injection Hb as <-.
    apply key_cmp_le in Hle. destruct (key_cmp a b); congruence.
Qed.

Lemma leb_trans (x y z : float) :
  (x <=? y) = true -> (y <=? z) = true -> (x <=? z) = true.
Proof.
  rewrite !leb_spec, !SFleb_key.
  intros (a & b & Ha & Hb & Hab) (b' & c & Hb' & Hc & Hbc).
  rewrite Hb in Hb'. injection Hb' as <-.
  exists a, c. repeat split; trivial. eapply key_le_trans; eassumption.
Qed.

(** [x <= y] holds exactly when [x < y] or [x == y]. *)
Lemma leb_ltb_eqb (x y : float) :
  (x <=? y) = (x <? y) || (x =? y).
Proof.
  rewrite leb_spec, ltb_spec, eqb_spec.
  unfold SFleb, SFltb, SFeqb.
  destruct (SFcompare (Prim2SF x) (Prim2SF y)) as [[]|]; reflexivity.
Qed.

(** [x < y] excludes [y <= x]. *)
Lemma ltb_not_leb (x y : float) :
  (x <? y) = true -> (y <=? x) = false.
Proof.
  rewrite leb_spec, ltb_spec. unfold SFleb, SFltb.
  rewrite (SFcompare_opp (Prim2SF x) (Prim2SF y)).
  destruct (SFcompare (Prim2SF x) (Prim2SF y)) as [[]|]; cbn; congruence.
Qed.

(** For two comparable numbers, the failure of [x <= y] is [y < x]. *)
Lemma not_leb_ltb (x y : float) :
  (x <=? x) = true -> (y <=? y) = true ->
  (x <=? y) = false -> (y <? x) = true.
Proof.
  rewrite !leb_spec, ltb_spec. unfold SFleb, SFltb.
  rewrite (SFcompare_opp (Prim2SF x) (Prim2SF y)).
  rewrite !SFcompare_key.
  destruct (key (Prim2SF x)) as [a|], (key (Prim2SF y)) as [b|];
    try discriminate.
  intros _ _. destruct (key_cmp a b); cbn; congruence.
Qed.

(** A number that takes part in a true comparison is not a NaN. *)
Lemma leb_refl_l (x y : float) : (x <=? y) = true -> (x <=? x) = true.
Proof.
  rewrite !leb_spec, !SFleb_key.
  intros (a & b & Ha & _ & _). exists a, a. repeat split; trivial.
  destruct a as [[a1 a2] a3]; cbn; lia.
Qed.

Lemma leb_refl_r (x y : float) : (x <=? y) = true -> (y <=? y) = true.
Proof.
  rewrite !leb_spec, !SFleb_key.
  intros (a & b & _ & Hb & _). exists b, b. repeat split; trivial.
  destruct b as [[b1 b2] b3]; cbn; lia.
Qed.

Lemma not_ltb_leb (x y : float) :
  (x <=? x) = true -> (y <=? y) = true ->
  (x <? y) = false -> (y <=? x) = true.
Proof.
  rewrite !leb_spec, ltb_spec. unfold SFleb, SFltb.
  rewrite (SFcompare_opp (Prim2SF x) (Prim2SF y)).
  rewrite !SFcompare_key.
  destruct (key (Prim2SF x)) as [a|], (key (Prim2SF y)) as [b|];
    try discriminate.
  intros _ _. destruct (key_cmp a b); cbn; congruence.
Qed.

Lemma ltb_leb (x y : float) : (x <? y) = true -> (x <=? y) = true.
Proof. intros H. now rewrite leb_ltb_eqb, H. Qed.

Lemma nan_leb_l (x y : float) : (x <=? x) = false -> (x <=? y) = false.
Proof.
  intros H. destruct (x <=? y) eqn:E; [|reflexivity].
  apply leb_refl_l in E. congruence.
Qed.

Lemma nan_leb_r (x y : float) : (x <=? x) = false -> (y <=? x) = false.
Proof.
  intros H. destruct (y <=? x) eqn:E; [|reflexivity].
  apply leb_refl_r in E. congruence.
Qed.

(** For comparable numbers [x < y] is the negation of [y <= x]. *)
Lemma ltb_negb_leb (x y : float) :
  (x <=? x) = true -> (y <=? y) = true -> (x <? y) = negb (y <=? x).
Proof.
  intros Hx Hy. destruct (y <=? x) eqn:E; cbn.
  - destruct (x <? y) eqn:E'; [|reflexivity].
    apply ltb_not_leb in E'. congruence.
  - now apply not_leb_ltb.
Qed.

Lemma is_nan_leb (x : float) : is_nan x = negb (x <=? x).
Proof.
  unfold is_nan. rewrite leb_ltb_eqb.
  destruct (x <? x) eqn:E; [|reflexivity].
  pose proof (ltb_not_leb _ _ E) as H. rewrite leb_ltb_eqb, E in H.
  discriminate.
Qed.

(** Equal numbers are [<=] both ways. *)
Lemma eqb_leb (x y : float) :
  (x =? y) = true -> (x <=? y) = true /\ (y <=? x) = true.
Proof.
  rewrite !leb_spec, eqb_spec. unfold SFleb, SFeqb.
  rewrite (SFcompare_opp (Prim2SF x) (Prim2SF y)).
  destruct (SFcompare (Prim2SF x) (Prim2SF y)) as [[]|]; cbn;
    try discriminate; auto.
Qed.

(** Dividing by a zero never gives a finite number: the quotient is a NaN
    (for a zero or NaN dividend) or an infinity. *)
Lemma Prim2SF_nan (x : float) : Prim2SF x = S754_nan -> is_nan x = true.
Proof.
  intros H. unfold is_nan. rewrite eqb_spec, H. reflexivity.
Qed.

Lemma Prim2SF_infinity (x : float) (s : bool) :
  Prim2SF x = S754_infinity s -> is_infinity x = true.
Proof.
  intros H. unfold is_infinity. rewrite eqb_spec, abs_spec, H. reflexivity.
Qed.

Lemma eqb_zero (s : float) : (s =? 0) = true -> exists b, Prim2SF s = S754_zero b.
Proof.
  rewrite eqb_spec. change (Prim2SF 0) with (S754_zero false).
  destruct (Prim2SF s) as [b|b| |b m e]; try discriminate; eauto;
    destruct b; discriminate.
Qed.

Lemma div_by_zero_not_finite (x s : float) :
  (s =? 0) = true -> is_finite (x / s) = false.
Proof.
  intros H. destruct (eqb_zero s H) as [b Hb].
  pose proof (div_spec x s) as D. rewrite Hb in D.
  unfold is_finite. apply negb_false_iff, orb_true_iff.
  destruct (Prim2SF x) as [sx|sx| |sx mx ex]; cbn in D.
  - left. now apply Prim2SF_nan.
  - right. now apply (Prim2SF_infinity _ (xorb sx b)).
  - left. now apply Prim2SF_nan.
  - right. now apply (Prim2SF_infinity _ (xorb sx b)).
Qed.

End F64.

(** ** Single precision

    Keras predicts in single precision and scipy's [softmax] keeps the
    precision of its argument, so the scores and the probabilities of the
    rogue-wave predictor are binary32 numbers.  A binary32 number is
    represented by the binary64 number of the same value; an operation is
    the exact result rounded once to binary32 (24 bits of mantissa, largest
    exponent 127), as the specification of IEEE arithmetic has it. *)

Module F32.

Definition prec : Z := 24.
Definition emax : Z := 128.

Definition lift2 (op : spec_float -> spec_float -> spec_float)
    (a b : float) : float :=
  SF2Prim (op (Prim2SF a) (Prim2SF b)).

Definition add : float -> float -> float := lift2 (SFadd prec emax).
Definition sub : float -> float -> float := lift2 (SFsub prec emax).
Definition div : float -> float -> float := lift2 (SFdiv prec emax).

(** The nearest binary32 number, ties to even. *)
Definition round (x : float) : float :=
  match Prim2SF x with
  | S754_finite s m e => SF2Prim (binary_round prec emax s m e)
  | _ => x
  end.

Lemma nan_spec (x : float) : is_nan x = true -> Prim2SF x = S754_nan.
Proof.
  unfold is_nan. rewrite eqb_spec. unfold SFeqb.
  rewrite F64.SFcompare_key.
  destruct (Prim2SF x) as [s|s| |s m e]; trivial; cbn [F64.key];
    try destruct s; cbn [F64.key F64.key_cmp];
    rewrite ?Z.compare_refl; discriminate.
Qed.

Lemma is_nan_nan : is_nan nan = true.
Proof. reflexivity. Qed.

Lemma add_nan_l (a b : float) : is_nan a = true -> add a b = nan.
Proof. intros H. unfold add, lift2. now rewrite (nan_spec a H). Qed.

Lemma add_nan_r (a b : float) : is_nan b = true -> add a b = nan.
Proof.
  intros H. unfold add, lift2. rewrite (nan_spec b H).
  now destruct (Prim2SF a).
Qed.

Lemma sub_nan_r (a b : float) : is_nan b = true -> sub a b = nan.
Proof.
  intros H. unfold sub, lift2. rewrite (nan_spec b H).
  now destruct (Prim2SF a).
Qed.

Lemma div_nan_r (a b : float) : is_nan b = true -> div a b = nan.
Proof.
  intros H. unfold div, lift2. rewrite (nan_spec b H).
  now destruct (Prim2SF a).
Qed.

Lemma round_nan (x : float) : is_nan x = true -> round x = x.
Proof. intros H. unfold round. now rewrite (nan_spec x H). Qed.

Example third_ex : div 1 3 = 0.3333333432674408%float.
Proof. vm_compute. reflexivity. Qed.

Example round_ex :
  round 0.1 = 0.10000000149011612%float /\ round 1e39 = infinity.
Proof. vm_compute. split; reflexivity. Qed.

End F32.

(** ** Python strings

    [in] and [str.startswith] as the advisory rules use them. *)

Module PyStr.

Fixpoint startswith (s prefix : string) : bool :=
  match prefix, s with
  | EmptyString, _ => true
  | String a p, String b s' => Ascii.eqb a b && startswith s' p
  | String _ _, EmptyString => false
  end.

(** [contains sub s] is Python's [sub in s]. *)
Fixpoint contains (sub s : string) : bool :=
  startswith s sub ||
  match s with
  | EmptyString => false
  | String _ s' => contains sub s'
  end.

End PyStr.

(** ** The marine predictor's rule tables
    ([marine_model/predict.py], lines 72-123) *)

Module MarineRules.

Import PyStr.
Local Open Scope float_scope.

Notation "x >=? y" := (F64.ge x y) (at level 70, no associativity) : float_scope.

Definition wspd_kt (wspd_pred : float) : float := wspd_pred * 1.94384.
Definition wvht_ft (wvht_pred : float) : float := wvht_pred * 3.28084.

(** Wave hazard level: the [if]/[elif] chain of lines 76-103. *)
Definition wave_alert (wvht_ft dpd_pred : float) : string :=
  if wvht_ft <=? 5 then
    "Waves normal (<5 ft)"
  else if (6 <=? wvht_ft) && (wvht_ft <=? 8) then
    if dpd_pred <=? 9 then "Small craft caution (6-8 ft, period ≤9s)"
    else "Waves normal (6-8 ft, period >9s)"
  else if (9 <=? wvht_ft) && (wvht_ft <=? 11) then
    if dpd_pred <=? 9 then "Hazardous seas (9-11 ft, period ≤9s)"
    else if (10 <=? dpd_pred) && (dpd_pred <=? 12) then
      "Small craft caution (9-11 ft, period 10-12s)"
    else "Waves normal (9-11 ft, period ≥13s)"
  else if (12 <=? wvht_ft) && (wvht_ft <=? 14) then
    if dpd_pred <=? 11 then "Hazardous seas (12-14 ft, period ≤11s)"
    else if dpd_pred =? 12 then "Small craft caution (12-14 ft, period =12s)"
    else "Waves normal (12-14 ft, period ≥13s)"
  else if wvht_ft >=? 15 then
    if dpd_pred <=? 12 then "Hazardous seas (>=15 ft, period ≤12s)"
    else "Small craft caution (>=15 ft, period ≥13s)"
  else
    "Unknown".

(** Wind warning: lines 106-115. *)
Definition wind_alert (wspd_kt : float) : string :=
  if wspd_kt >=? 64 then "Hurricane warning (>=64 kt)"
  else if wspd_kt >=? 48 then "Storm warning (48-63 kt)"
  else if wspd_kt >=? 34 then "Gale warning (34-47 kt)"
  else if wspd_kt >=? 22 then "Small Craft Advisory (22-33 kt)"
  else "Wind normal (<22 kt)".

Definition DANGER : string := "⚠️ DANGER: Immediate evacuation or seek safe harbor".
Definition CAUTION : string := "⚠️ CAUTION: Exercise caution".
Definition SAFE : string := "✅ SAFE".

(** Advice: lines 118-123. *)
Definition advice (wave_alert wind_alert : string) : string :=
  if contains "Hazardous" wave_alert
     || startswith wind_alert "Hurricane"
     || startswith wind_alert "Storm"
     || startswith wind_alert "Gale"
  then DANGER
  else if contains "Small craft caution" wave_alert
          || startswith wind_alert "Small Craft"
  then CAUTION
  else SAFE.

(** *** The documented wave table

    The five height bands of the table, each with its period sub-rules,
    written without reference to the order of evaluation. *)

Inductive band : Type :=
| Upto5 | From6to8 | From9to11 | From12to14 | From15.

Definition in_band (b : band) (h : float) : bool :=
  match b with
  | Upto5 => h <=? 5
  | From6to8 => (6 <=? h) && (h <=? 8)
  | From9to11 => (9 <=? h) && (h <=? 11)
  | From12to14 => (12 <=? h) && (h <=? 14)
  | From15 => 15 <=? h
  end.

Definition band_labels (b : band) : list string :=
  match b with
  | Upto5 => ["Waves normal (<5 ft)"]
  | From6to8 =>
      ["Small craft caution (6-8 ft, period ≤9s)";
       "Waves normal (6-8 ft, period >9s)"]
  | From9to11 =>
      ["Hazardous seas (9-11 ft, period ≤9s)";
       "Small craft caution (9-11 ft, period 10-12s)";
       "Waves normal (9-11 ft, period ≥13s)"]
  | From12to14 =>
      ["Hazardous seas (12-14 ft, period ≤11s)";
       "Small craft caution (12-14 ft, period =12s)";
       "Waves normal (12-14 ft, period ≥13s)"]
  | From15 =>
      ["Hazardous seas (>=15 ft, period ≤12s)";
       "Small craft caution (>=15 ft, period ≥13s)"]
  end.

Definition documented_labels : list string :=
  band_labels Upto5 ++ band_labels From6to8 ++ band_labels From9to11
  ++ band_labels From12to14 ++ band_labels From15.

(** The period sub-rule of a band; the last label of each band is the
    [else] case. *)
Definition band_rule (b : band) (p : float) : string :=
  match b with
  | Upto5 => "Waves normal (<5 ft)"
  | From6to8 =>
      if p <=? 9 then "Small craft caution (6-8 ft, period ≤9s)"
      else "Waves normal (6-8 ft, period >9s)"
  | From9to11 =>
      if p <=? 9 then "Hazardous seas (9-11 ft, period ≤9s)"
      else if (10 <=? p) && (p <=? 12) then
        "Small craft caution (9-11 ft, period 10-12s)"
      else "Waves normal (9-11 ft, period ≥13s)"
  | From12to14 =>
      if p <=? 11 then "Hazardous seas (12-14 ft, period ≤11s)"
      else if p =? 12 then "Small craft caution (12-14 ft, period =12s)"
      else "Waves normal (12-14 ft, period ≥13s)"
  | From15 =>
      if p <=? 12 then "Hazardous seas (>=15 ft, period ≤12s)"
      else "Small craft caution (>=15 ft, period ≥13s)"
  end.

(** A height is between two bands when it exceeds one band's upper end
    and stays below the next band's lower end. *)
Definition between_bands (h : float) : bool :=
  ((5 <? h) && (h <? 6)) || ((8 <? h) && (h <? 9))
  || ((11 <? h) && (h <? 12)) || ((14 <? h) && (h <? 15)).

(** Severity rank of a wind label, for the monotonicity statement. *)
Definition wind_severity (label : string) : nat :=
  if String.eqb label "Hurricane warning (>=64 kt)" then 4
  else if String.eqb label "Storm warning (48-63 kt)" then 3
  else if String.eqb label "Gale warning (34-47 kt)" then 2
  else if String.eqb label "Small Craft Advisory (22-33 kt)" then 1
  else 0.

Example wave_7ft_9s :
  wave_alert 7 9 = "Small craft caution (6-8 ft, period ≤9s)".
Proof. reflexivity. Qed.

Example wave_7ft_10s :
  wave_alert 7 10 = "Waves normal (6-8 ft, period >9s)".
Proof. reflexivity. Qed.

Example wave_10ft_9_5s :
  wave_alert 10 9.5 = "Waves normal (9-11 ft, period ≥13s)".
Proof. reflexivity. Qed.

Definition wind_labels : list string :=
  ["Hurricane warning (>=64 kt)"; "Storm warning (48-63 kt)";
   "Gale warning (34-47 kt)"; "Small Craft Advisory (22-33 kt)";
   "Wind normal (<22 kt)"].

(** The wind labels that force the DANGER advisory, and the one that
    forces CAUTION. *)
Definition danger_winds : list string :=
  ["Hurricane warning (>=64 kt)"; "Storm warning (48-63 kt)";
   "Gale warning (34-47 kt)"].

Definition caution_wind : string := "Small Craft Advisory (22-33 kt)".

(** *** Facts about the rule tables *)

Ltac split_andb :=
  repeat match goal with
  | H : _ && _ = true |- _ => apply andb_true_iff in H; destruct H
  end.

(** Two true comparisons around the same number chain into a comparison of
    two literals, which evaluates. *)
Ltac float_order :=
  split_andb;
  match goal with
  | H1 : (?a <=? ?x) = true, H2 : (?x <=? ?b) = true |- _ =>
      let H := fresh in
      pose proof (F64.leb_trans a x b H1 H2) as H;
      vm_compute in H; discriminate H
  end.

Ltac use_true :=
  repeat match goal with
  | H : _ = true |- _ => rewrite H
  end.

Ltac walk_chain :=
  repeat (cbn [andb];
          match goal with
          | |- ?l = ?r => first [ constr_eq l r; reflexivity | fail 1 ]
          | |- (if ?c then _ else _) = _ =>
              let E := fresh "E" in
              destruct c eqn:E; [ try (exfalso; float_order) | ]
          end).

Lemma wave_alert_in_band (b : band) (h p : float) :
  in_band b h = true -> wave_alert h p = band_rule b p.
Proof.
  intros H. unfold wave_alert, F64.ge.
  destruct b; cbn [in_band band_rule] in *; split_andb; use_true;
    walk_chain; reflexivity.
Qed.

Lemma band_rule_label (b : band) (p : float) :
  In (band_rule b p) (band_labels b).
Proof.
  destruct b; cbn [band_rule band_labels];
    repeat match goal with
    | |- context [if ?c then _ else _] => destruct c
    end; cbn; auto.
Qed.

Lemma band_exclusive (b1 b2 : band) (h : float) :
  in_band b1 h = true -> in_band b2 h = true -> b1 = b2.
Proof.
  destruct b1, b2; cbn [in_band]; intros H1 H2;
    try reflexivity; exfalso; float_order.
Qed.

Lemma band_labels_documented (b : band) (l : string) :
  In l (band_labels b) -> In l documented_labels.
Proof.
  unfold documented_labels. rewrite !in_app_iff.
  destruct b; tauto.
Qed.

Lemma Unknown_not_documented : ~ In "Unknown" documented_labels.
Proof. cbn. intuition discriminate. Qed.

Lemma wave_alert_no_band (h p : float) :
  (forall b, in_band b h = false) -> wave_alert h p = "Unknown".
Proof.
  intros H. unfold wave_alert, F64.ge.
  pose proof (H Upto5) as H1. pose proof (H From6to8) as H2.
  pose proof (H From9to11) as H3. pose proof (H From12to14) as H4.
  pose proof (H From15) as H5. cbn [in_band] in *.
  now rewrite H1, H2, H3, H4, H5.
Qed.

Lemma wave_alert_Unknown (h p : float) :
  wave_alert h p = "Unknown" <-> (forall b, in_band b h = false).
Proof.
  split; [|apply wave_alert_no_band].
  intros H b. destruct (in_band b h) eqn:E; [|reflexivity].
  exfalso. apply Unknown_not_documented. rewrite <- H.
  rewrite (wave_alert_in_band b h p E).
  eapply band_labels_documented, band_rule_label.
Qed.

(** From a strict comparison, the two non-strict facts it entails. *)
Ltac ltb_facts :=
  repeat match goal with
  | H : (?a <? ?b) = true |- _ =>
      pose proof (F64.ltb_leb a b H);
      pose proof (F64.ltb_not_leb a b H);
      clear H
  end.

Lemma between_bands_no_band (h : float) (b : band) :
  between_bands h = true -> in_band b h = false.
Proof.
  unfold between_bands. rewrite !orb_true_iff, !andb_true_iff.
  intros H. destruct (in_band b h) eqn:E; [exfalso|reflexivity].
  destruct H as [[[[H1 H2]|[H1 H2]]|[H1 H2]]|[H1 H2]];
    ltb_facts; destruct b; cbn [in_band] in E; split_andb;
    first [congruence | float_order].
Qed.

Lemma nan_no_band (h : float) (b : band) :
  is_nan h = true -> in_band b h = false.
Proof.
  rewrite F64.is_nan_leb, negb_true_iff. intros H.
  destruct b; cbn [in_band];
    rewrite ?(F64.nan_leb_l h), ?(F64.nan_leb_r h), ?andb_false_r by assumption;
    reflexivity.
Qed.

(** The heights outside every band are the NaN and the four open gaps. *)
Lemma no_band_gap (h : float) :
  (forall b, in_band b h = false) <->
  is_nan h = true \/ between_bands h = true.
Proof.
  split.
  - intros H. rewrite F64.is_nan_leb.
    destruct (h <=? h) eqn:Hn; [right|now left].
    pose proof (H Upto5) as H1. pose proof (H From6to8) as H2.
    pose proof (H From9to11) as H3. pose proof (H From12to14) as H4.
    pose proof (H From15) as H5. cbn [in_band] in *.
    assert (G : forall c, (c <=? c) = true -> (h <=? c) = false ->
                          (c <? h) = true).
    { intros c Hc Hle. now apply F64.not_leb_ltb. }
    assert (L : forall c, (c <=? c) = true -> (h <? c) = false ->
                          (c <=? h) = true).
    { intros c Hc Hlt. now apply F64.not_ltb_leb. }
    unfold between_bands.
    rewrite (G 5 eq_refl H1).
    destruct (h <? 6) eqn:E6; [reflexivity|].
    rewrite (L 6 eq_refl E6) in H2. rewrite (G 8 eq_refl H2).
    destruct (h <? 9) eqn:E9; [reflexivity|].
    rewrite (L 9 eq_refl E9) in H3. rewrite (G 11 eq_refl H3).
    destruct (h <? 12) eqn:E12; [reflexivity|].
    rewrite (L 12 eq_refl E12) in H4. rewrite (G 14 eq_refl H4).
    destruct (h <? 15) eqn:E15; [reflexivity|].
    rewrite (L 15 eq_refl E15) in H5. discriminate H5.
  - intros [H|H] b; [now apply nan_no_band | now apply between_bands_no_band].
Qed.

Lemma wind_alert_label (w : float) : In (wind_alert w) wind_labels.
Proof.
  unfold wind_alert, wind_labels.
  repeat match goal with
  | |- context [if ?c then _ else _] => destruct c
  end; cbn; auto 6.
Qed.

(** The thresholds are nested: reaching one reaches every lower one. *)
Lemma wind_thresholds_nested (w : float) :
  ((64 <=? w) = true -> (48 <=? w) = true)
  /\ ((48 <=? w) = true -> (34 <=? w) = true)
  /\ ((34 <=? w) = true -> (22 <=? w) = true).
Proof.
  repeat split; intros H.
  - exact (F64.leb_trans 48 64 w eq_refl H).
  - exact (F64.leb_trans 34 48 w eq_refl H).
  - exact (F64.leb_trans 22 34 w eq_refl H).
Qed.

Lemma wind_alert_intervals (w : float) :
  (wind_alert w = "Hurricane warning (>=64 kt)" <-> (64 <=? w) = true)
  /\ (wind_alert w = "Storm warning (48-63 kt)" <->
      (48 <=? w) = true /\ (w <? 64) = true)
  /\ (wind_alert w = "Gale warning (34-47 kt)" <->
      (34 <=? w) = true /\ (w <? 48) = true)
  /\ (wind_alert w = "Small Craft Advisory (22-33 kt)" <->
      (22 <=? w) = true /\ (w <? 34) = true)
  /\ (wind_alert w = "Wind normal (<22 kt)" <-> (22 <=? w) = false).
Proof.
  destruct (wind_thresholds_nested w) as (N1 & N2 & N3).
  assert (L : forall c, (c <=? c) = true -> (22 <=? w) = true ->
                        (w <? c) = negb (c <=? w)).
  { intros c Hc Hw. apply F64.ltb_negb_leb; trivial.
    exact (F64.leb_refl_r _ _ Hw). }
  unfold wind_alert, F64.ge.
  destruct (64 <=? w) eqn:E64.
  { pose proof (N1 eq_refl) as E48. pose proof (N2 E48) as E34.
    pose proof (N3 E34) as E22.
    rewrite ?E48, ?E34, ?E22, !L, ?E64, ?E48, ?E34 by trivial; cbn.
    repeat split; try discriminate; intros []; discriminate. }
  destruct (48 <=? w) eqn:E48.
  { pose proof (N2 eq_refl) as E34. pose proof (N3 E34) as E22.
    rewrite ?E34, ?E22, !L, ?E64, ?E48, ?E34 by trivial; cbn.
    repeat split; try discriminate; intros []; discriminate. }
  destruct (34 <=? w) eqn:E34.
  { pose proof (N3 eq_refl) as E22.
    rewrite ?E22, !L, ?E64, ?E48, ?E34 by trivial; cbn.
    repeat split; try discriminate; intros []; discriminate. }
  destruct (22 <=? w) eqn:E22.
  { rewrite !L, ?E64, ?E48, ?E34 by trivial; cbn.
    repeat split; try discriminate; intros []; discriminate. }
  repeat split; try discriminate; intros []; discriminate.
Qed.

Lemma wind_alert_monotone (w w' : float) :
  (w <=? w') = true ->
  wind_severity (wind_alert w) <= wind_severity (wind_alert w').
Proof.
  intros H.
  assert (T : forall c, (c <=? w) = true -> (c <=? w') = true).
  { intros c Hc. exact (F64.leb_trans c w w' Hc H). }
  destruct (wind_thresholds_nested w') as (N1 & N2 & N3).
  unfold wind_alert, F64.ge.
  destruct (64 <=? w) eqn:E64; [rewrite (T _ E64); apply le_n|].
  destruct (48 <=? w) eqn:E48;
    [rewrite (T _ E48); destruct (64 <=? w'); vm_compute; lia|].
  destruct (34 <=? w) eqn:E34;
    [rewrite (T _ E34); destruct (64 <=? w'), (48 <=? w'); vm_compute; lia|].
  destruct (22 <=? w) eqn:E22;
    [rewrite (T _ E22);
     destruct (64 <=? w'), (48 <=? w'), (34 <=? w'); vm_compute; lia|].
  apply Nat.le_0_l.
Qed.

Lemma advice_cases (wave wind : string) :
  (advice wave wind = DANGER <->
     contains "Hazardous" wave = true
     \/ startswith wind "Hurricane" = true
     \/ startswith wind "Storm" = true
     \/ startswith wind "Gale" = true)
  /\ (advice wave wind = CAUTION <->
       ~ (contains "Hazardous" wave = true
          \/ startswith wind "Hurricane" = true
          \/ startswith wind "Storm" = true
          \/ startswith wind "Gale" = true)
       /\ (contains "Small craft caution" wave = true
           \/ startswith wind "Small Craft" = true))
  /\ (advice wave wind = SAFE <->
       ~ (contains "Hazardous" wave = true
          \/ startswith wind "Hurricane" = true
          \/ startswith wind "Storm" = true
          \/ startswith wind "Gale" = true)
       /\ ~ (contains "Small craft caution" wave = true
             \/ startswith wind "Small Craft" = true)).
Proof.
  unfold advice.
  destruct (contains "Hazardous" wave), (startswith wind "Hurricane"),
    (startswith wind "Storm"), (startswith wind "Gale"),
    (contains "Small craft caution" wave), (startswith wind "Small Craft");
    cbn [orb]; repeat split; intros;
    try discriminate; try tauto;
    try (intuition discriminate).
Qed.

(** On the labels the wind table produces, the prefix tests of the advice
    rule pick out exactly the named labels. *)
Lemma wind_label_prefixes (wind : string) :
  In wind wind_labels ->
  (startswith wind "Hurricane" || startswith wind "Storm"
   || startswith wind "Gale" = true <-> In wind danger_winds)
  /\ (startswith wind "Small Craft" = true <-> wind = caution_wind).
Proof.
  unfold wind_labels, danger_winds, caution_wind. cbn [In].
  intros [<-|[<-|[<-|[<-|[<-|[]]]]]]; vm_compute;
    repeat split; intros; try discriminate; try tauto;
    try (intuition discriminate).
Qed.

(** C1, as stated, fails: a wave height of 5.5 ft lies between the bands
    "≤5 ft" and "6-8 ft", so the chain of lines 76-103 falls through to its
    last branch; the label is "Unknown", which is none of the documented
    band labels. *)
Lemma wave_alert_gap_is_Unknown :
  wave_alert 5.5 10 = "Unknown"
  /\ ~ In (wave_alert 5.5 10) documented_labels.
Proof.
  split; [reflexivity|].
  change (wave_alert 5.5 10) with "Unknown". apply Unknown_not_documented.
Qed.

(** C1 (amended): for every wave height and dominant period, the five
    height bands are mutually exclusive; a height inside a band gets
    exactly that band's label for the period (one of the documented labels,
    never "Unknown"); and the label is "Unknown" exactly when the height is
    in no band, that is, when it is a NaN or lies strictly between two
    bands (5-6, 8-9, 11-12 or 14-15 ft). *)
Theorem wave_alert_partition (h p : float) :
  (forall b, in_band b h = true ->
     wave_alert h p = band_rule b p
     /\ In (wave_alert h p) (band_labels b)
     /\ In (wave_alert h p) documented_labels
     /\ wave_alert h p <> "Unknown"
     /\ (forall b', in_band b' h = true -> b' = b))
  /\ (wave_alert h p = "Unknown" <->
      is_nan h = true \/ between_bands h = true)
  /\ In (wave_alert h p) ("Unknown" :: documented_labels).
Proof.
  assert (B : forall b, in_band b h = true ->
                wave_alert h p = band_rule b p
                /\ In (wave_alert h p) (band_labels b)
                /\ In (wave_alert h p) documented_labels).
  { intros b Hb. rewrite (wave_alert_in_band b h p Hb).
    pose proof (band_rule_label b p) as Hl.
    repeat split; trivial. now apply (band_labels_documented b). }
  split; [|split].
  - intros b Hb. destruct (B b Hb) as (H1 & H2 & H3).
    repeat split; trivial.
    + intros HU. apply Unknown_not_documented. now rewrite <- HU.
    + intros b' Hb'. exact (band_exclusive b' b h Hb' Hb).
  - rewrite wave_alert_Unknown. apply no_band_gap.
  - destruct (wave_alert h p =? "Unknown")%string eqn:E.
    + apply String.eqb_eq in E. now left.
    + right.
      assert (N : ~ (forall b, in_band b h = false)).
      { rewrite <- (wave_alert_Unknown h p). intros HU.
        apply String.eqb_neq in E. contradiction. }
      destruct (in_band Upto5 h) eqn:E1; [now apply (B Upto5)|].
      destruct (in_band From6to8 h) eqn:E2; [now apply (B From6to8)|].
      destruct (in_band From9to11 h) eqn:E3; [now apply (B From9to11)|].
      destruct (in_band From12to14 h) eqn:E4; [now apply (B From12to14)|].
      destruct (in_band From15 h) eqn:E5; [now apply (B From15)|].
      exfalso. apply N. intros []; assumption.
Qed.

(** C6: for every wind speed in knots the label is fixed by the thresholds
    64, 48, 34 and 22 taken highest first: hurricane from 64 up, storm
    on [48, 64), gale on [34, 48), small-craft advisory on [22, 34), and
    normal when 22 is not reached; the label never decreases in severity
    when the speed grows; 64 kt is hurricane, 63.9 kt storm, 21.9 kt
    normal. *)
Theorem wind_alert_thresholds (w : float) :
  ((wind_alert w = "Hurricane warning (>=64 kt)" <-> (64 <=? w) = true)
   /\ (wind_alert w = "Storm warning (48-63 kt)" <->
       (48 <=? w) = true /\ (w <? 64) = true)
   /\ (wind_alert w = "Gale warning (34-47 kt)" <->
       (34 <=? w) = true /\ (w <? 48) = true)
   /\ (wind_alert w = "Small Craft Advisory (22-33 kt)" <->
       (22 <=? w) = true /\ (w <? 34) = true)
   /\ (wind_alert w = "Wind normal (<22 kt)" <-> (22 <=? w) = false))
  /\ (forall w', (w <=? w') = true ->
        wind_severity (wind_alert w) <= wind_severity (wind_alert w'))
  /\ wind_alert 64 = "Hurricane warning (>=64 kt)"
  /\ wind_alert 63.9 = "Storm warning (48-63 kt)"
  /\ wind_alert 21.9 = "Wind normal (<22 kt)".
Proof.
  split; [apply wind_alert_intervals|].
  split; [intros w'; apply wind_alert_monotone|].
  repeat split.
Qed.

(** C5: for every wave label and wind label the advisory is DANGER exactly
    when the wave label contains "Hazardous" or the wind label starts with
    "Hurricane", "Storm" or "Gale"; otherwise CAUTION exactly when the wave
    label contains "Small craft caution" or the wind label starts with
    "Small Craft"; otherwise SAFE.  On the labels of the wind table these
    prefix tests single out the hurricane, storm and gale labels and the
    small-craft advisory, so a hazardous wave label with the normal wind
    label yields DANGER. *)
Theorem advice_precedence (wave : string) :
  (forall wind : string,
     (advice wave wind = DANGER <->
        contains "Hazardous" wave = true
        \/ startswith wind "Hurricane" = true
        \/ startswith wind "Storm" = true
        \/ startswith wind "Gale" = true)
     /\ (advice wave wind = CAUTION <->
          ~ (contains "Hazardous" wave = true
             \/ startswith wind "Hurricane" = true
             \/ startswith wind "Storm" = true
             \/ startswith wind "Gale" = true)
          /\ (contains "Small craft caution" wave = true
              \/ startswith wind "Small Craft" = true))
     /\ (advice wave wind = SAFE <->
          ~ (contains "Hazardous" wave = true
             \/ startswith wind "Hurricane" = true
             \/ startswith wind "Storm" = true
             \/ startswith wind "Gale" = true)
          /\ ~ (contains "Small craft caution" wave = true
                \/ startswith wind "Small Craft" = true)))
  /\ (forall w : float,
       (advice wave (wind_alert w) = DANGER <->
          contains "Hazardous" wave = true \/ In (wind_alert w) danger_winds)
       /\ (advice wave (wind_alert w) = CAUTION <->
            ~ (contains "Hazardous" wave = true
               \/ In (wind_alert w) danger_winds)
            /\ (contains "Small craft caution" wave = true
                \/ wind_alert w = caution_wind))
       /\ (advice wave (wind_alert w) = SAFE <->
            ~ (contains "Hazardous" wave = true
               \/ In (wind_alert w) danger_winds)
            /\ ~ (contains "Small craft caution" wave = true
                  \/ wind_alert w = caution_wind)))
  /\ (contains "Hazardous" wave = true ->
      advice wave "Wind normal (<22 kt)" = DANGER).
Proof.
  split; [intros wind; apply advice_cases|].
  split.
  - intros w.
    destruct (wind_label_prefixes _ (wind_alert_label w)) as [Hd Hc].
    destruct (advice_cases wave (wind_alert w)) as (A1 & A2 & A3).
    rewrite !orb_true_iff in Hd.
    rewrite A1, A2, A3, <- Hd, Hc. clear.
    generalize (contains "Hazardous" wave = true),
      (contains "Small craft caution" wave = true),
      (startswith (wind_alert w) "Hurricane" = true),
      (startswith (wind_alert w) "Storm" = true),
      (startswith (wind_alert w) "Gale" = true),
      (wind_alert w = caution_wind).
    intros; tauto.
  - intros H. apply advice_cases. now left.
Qed.

End MarineRules.

(** ** The Python process

    A script writes lines to standard output and to [sys.stderr], may
    rebind [sys.stderr] to the null device, raises exceptions and calls
    [sys.exit].  [SystemExit] is not an [Exception]: an [except Exception]
    handler lets it through.  An exception nobody handles ends the process
    with status 1 after a traceback on [sys.stderr].

    Only what the scripts themselves write is modelled; the chatter of
    the libraries (TensorFlow logs, numpy warnings) is not. *)

Module Py.

(** The message of an exception, as [str(e)] gives it. *)
Definition exn : Type := string.

Record io : Type := mk_io {
  out : list string;       (* lines on standard output *)
  err : list string;       (* lines on the standard-error channel *)
  null : list string;      (* lines sent to os.devnull (they are lost;
                              kept here to state what was discarded) *)
  stderr_is_null : bool    (* sys.stderr has been rebound to os.devnull *)
}.

Definition io0 : io := mk_io [] [] [] false.

Inductive result (A : Type) : Type :=
| Ret (a : A)
| Raise (e : exn)
| Exit (code : Z).

Arguments Ret {A} a.
Arguments Raise {A} e.
Arguments Exit {A} code.

Definition M (A : Type) : Type := io -> result A * io.

Definition ret {A} (a : A) : M A := fun s => (Ret a, s).

Definition bind {A B} (m : M A) (k : A -> M B) : M B :=
  fun s =>
    match m s with
    | (Ret a, s') => k a s'
    | (Raise e, s') => (Raise e, s')
    | (Exit c, s') => (Exit c, s')
    end.

Definition raise {A} (e : exn) : M A := fun s => (Raise e, s).

(** [sys.exit(code)] *)
Definition sys_exit {A} (code : Z) : M A := fun s => (Exit code, s).

(** [try: body  except Exception as e: handler(e)] *)
Definition try_except {A} (body : M A) (handler : exn -> M A) : M A :=
  fun s =>
    match body s with
    | (Raise e, s') => handler e s'
    | r => r
    end.

(** Sequencing of calls that either raise or return. *)
Definition and_then {A B} (r : exn + A) (k : A -> exn + B) : exn + B :=
  match r with
  | inl e => inl e
  | inr a => k a
  end.

(** A library call that either raises or returns. *)
Definition call {A} (r : exn + A) : M A :=
  match r with
  | inl e => raise e
  | inr a => ret a
  end.

(** [print(line)] *)
Definition print (line : string) : M unit :=
  fun s => (Ret tt, mk_io (out s ++ [line]) (err s) (null s) (stderr_is_null s)).

(** [print(line, file=sys.stderr)] *)
Definition print_stderr (line : string) : M unit :=
  fun s =>
    (Ret tt,
     if stderr_is_null s
     then mk_io (out s) (err s) (null s ++ [line]) true
     else mk_io (out s) (err s ++ [line]) (null s) false).

(** [sys.stderr = open(os.devnull, 'w')] *)
Definition stderr_to_devnull : M unit :=
  fun s => (Ret tt, mk_io (out s) (err s) (null s) true).

(** What the parent process observes of a finished run. *)
Record outcome : Type := mk_outcome {
  stdout : list string;
  stderr : list string;
  devnull : list string;
  status : Z
}.

Definition traceback (e : exn) : string :=
  "Traceback (most recent call last): " ++ e.

(** Running [main()] as the script's entry point. *)
Definition run (main : M unit) : outcome :=
  match main io0 with
  | (Ret _, s) => mk_outcome (out s) (err s) (null s) 0
  | (Exit c, s) => mk_outcome (out s) (err s) (null s) c
  | (Raise e, s) =>
      match print_stderr (traceback e) s with
      | (_, s') => mk_outcome (out s') (err s') (null s') 1
      end
  end.

Declare Scope py_scope.
Delimit Scope py_scope with py.

Notation "x <- m ;; k" := (bind m (fun x => k))
  (at level 61, m at next level, right associativity) : py_scope.
Notation "m ;; k" := (bind m (fun _ => k))
  (at level 61, right associativity) : py_scope.

(** [x[i]] on a sequence, with Python's [IndexError]. *)
Definition index {A} (l : list A) (i : nat) : M A :=
  match nth_error l i with
  | Some a => ret a
  | None => raise "list index out of range"
  end.

End Py.

(** ** Reasoning about processes

    Two shapes of computation cover the marine predictor.  A step [fails
    quietly] when, started with [sys.stderr] rebound to the null device, it
    either returns or raises leaving the streams untouched, or exits with
    status 1 after one diagnostic line sent to the null device.  A program
    [ends well] when its only other way to finish is to return after
    printing exactly two lines. *)

Module PyFacts.

Import Py.
Local Open Scope py_scope.

Definition diagnosed (D : string -> Prop) (s s' : io) : Prop :=
  exists d, D d /\ s' = mk_io (out s) (err s) (null s ++ [d]) true.

Definition fails_quietly (D : string -> Prop) {A} (m : M A) : Prop :=
  forall s, stderr_is_null s = true ->
    match m s with
    | (Ret _, s') => s' = s
    | (Raise _, s') => s' = s
    | (Exit c, s') => c = 1%Z /\ diagnosed D s s'
    end.

Definition ends_well (D : string -> Prop) (L : string -> string -> Prop)
    {A} (m : M A) : Prop :=
  forall s, stderr_is_null s = true ->
    match m s with
    | (Ret _, s') =>
        exists l1 l2,
          L l1 l2 /\ s' = mk_io (out s ++ [l1; l2]) (err s) (null s) true
    | (Raise _, s') => s' = s
    | (Exit c, s') => c = 1%Z /\ diagnosed D s s'
    end.

Lemma quiet_ret (D : string -> Prop) {A} (a : A) : fails_quietly D (ret a).
Proof. intros s _. reflexivity. Qed.

Lemma quiet_raise (D : string -> Prop) {A} (e : exn) :
  fails_quietly D (@raise A e).
Proof. intros s _. reflexivity. Qed.

Lemma quiet_call (D : string -> Prop) {A} (r : exn + A) :
  fails_quietly D (call r).
Proof. destruct r; intros s _; reflexivity. Qed.

Lemma quiet_index (D : string -> Prop) {A} (l : list A) (i : nat) :
  fails_quietly D (index l i).
Proof. unfold index. destruct (nth_error l i); intros s _; reflexivity. Qed.

Lemma quiet_bind (D : string -> Prop) {A B} (m : M A) (k : A -> M B) :
  fails_quietly D m -> (forall a, fails_quietly D (k a)) ->
  fails_quietly D (bind m k).
Proof.
  intros Hm Hk s Hs. unfold bind. specialize (Hm s Hs).
  destruct (m s) as [[a|e|c] s']; trivial.
  subst s'. exact (Hk a s Hs).
Qed.

(** The way every handler of the marine predictor ends:
    [print(d, file=sys.stderr); sys.exit(1)]. *)
Lemma quiet_diagnose (D : string -> Prop) {A} (d : string) :
  D d -> fails_quietly D (print_stderr d ;; @sys_exit A 1).
Proof.
  intros Hd s Hs. unfold bind, print_stderr, sys_exit. rewrite Hs.
  split; [reflexivity|]. exists d. auto.
Qed.

Lemma quiet_try (D : string -> Prop) {A} (body : M A) (handler : exn -> M A) :
  fails_quietly D body -> (forall e, fails_quietly D (handler e)) ->
  fails_quietly D (try_except body handler).
Proof.
  intros Hb Hh s Hs. unfold try_except. specialize (Hb s Hs).
  destruct (body s) as [[a|e|c] s']; trivial.
  subst s'. exact (Hh e s Hs).
Qed.

Lemma ends_bind (D : string -> Prop) (L : string -> string -> Prop)
    {A B} (m : M A) (k : A -> M B) :
  fails_quietly D m -> (forall a, ends_well D L (k a)) ->
  ends_well D L (bind m k).
Proof.
  intros Hm Hk s Hs. unfold bind. specialize (Hm s Hs).
  destruct (m s) as [[a|e|c] s']; trivial.
  subst s'. exact (Hk a s Hs).
Qed.

Lemma ends_print2 (D : string -> Prop) (L : string -> string -> Prop)
    (l1 l2 : string) :
  L l1 l2 -> ends_well D L (print l1 ;; print l2).
Proof.
  intros HL s Hs. unfold bind, print. cbn.
  exists l1, l2. rewrite <- app_assoc, Hs. auto.
Qed.

(** Inversion of a [bind] that returned. *)
Lemma bind_Ret {A B} (m : M A) (k : A -> M B) (s s' : io) (b : B) :
  bind m k s = (Ret b, s') ->
  exists a s1, m s = (Ret a, s1) /\ k a s1 = (Ret b, s').
Proof.
  unfold bind. destruct (m s) as [[a|e|c] s1]; try discriminate. eauto.
Qed.

Lemma bind_Ret_eq {A B} (m : M A) (k : A -> M B) (s s1 : io) (a : A) :
  m s = (Ret a, s1) -> bind m k s = k a s1.
Proof. unfold bind. now intros ->. Qed.

Lemma bind_Exit_eq {A B} (m : M A) (k : A -> M B) (s s1 : io) (c : Z) :
  m s = (Exit c, s1) -> bind m k s = (Exit c, s1).
Proof. unfold bind. now intros ->. Qed.

(** A step that neither writes nor exits: it returns or raises, the
    streams untouched. *)
Definition no_io {A} (m : M A) : Prop :=
  forall s,
    match m s with
    | (Ret _, s') => s' = s
    | (Raise _, s') => s' = s
    | (Exit _, _) => False
    end.

(** A program that can only return after printing two lines, or raise
    before printing anything. *)
Definition prints_two (L : string -> string -> Prop) {A} (m : M A) : Prop :=
  forall s,
    match m s with
    | (Ret _, s') =>
        exists l1 l2,
          L l1 l2
          /\ s' = mk_io (out s ++ [l1; l2]) (err s) (null s) (stderr_is_null s)
    | (Raise _, s') => s' = s
    | (Exit _, _) => False
    end.

Lemma no_io_ret {A} (a : A) : no_io (ret a).
Proof. intros s. reflexivity. Qed.

Lemma no_io_raise {A} (e : exn) : no_io (@raise A e).
Proof. intros s. reflexivity. Qed.

Lemma no_io_call {A} (r : exn + A) : no_io (call r).
Proof. destruct r; intros s; reflexivity. Qed.

Lemma no_io_index {A} (l : list A) (i : nat) : no_io (index l i).
Proof. unfold index. destruct (nth_error l i); intros s; reflexivity. Qed.

Lemma no_io_bind {A B} (m : M A) (k : A -> M B) :
  no_io m -> (forall a, no_io (k a)) -> no_io (bind m k).
Proof.
  intros Hm Hk s. unfold bind. specialize (Hm s).
  destruct (m s) as [[a|e|c] s']; trivial. subst s'. apply Hk.
Qed.

Lemma prints_two_bind (L : string -> string -> Prop) {A B}
    (m : M A) (k : A -> M B) :
  no_io m -> (forall a, prints_two L (k a)) -> prints_two L (bind m k).
Proof.
  intros Hm Hk s. unfold bind. specialize (Hm s).
  destruct (m s) as [[a|e|c] s']; trivial. subst s'. apply Hk.
Qed.

Lemma prints_two_print (L : string -> string -> Prop) (l1 l2 : string) :
  L l1 l2 -> prints_two L (print l1 ;; print l2).
Proof.
  intros HL s. unfold bind, print. cbn.
  exists l1, l2. now rewrite <- app_assoc.
Qed.

(** Two results that agree up to a relation on the returned values. *)
Definition sim {A A'} (R : A -> A' -> Prop)
    (x : result A * io) (y : result A' * io) : Prop :=
  match x, y with
  | (Ret a, s), (Ret a', s') => R a a' /\ s = s'
  | (Raise e, s), (Raise e', s') => e = e' /\ s = s'
  | (Exit c, s), (Exit c', s') => c = c' /\ s = s'
  | _, _ => False
  end.

Lemma bind_sim {A A' B} (R : A -> A' -> Prop) (m : M A) (m' : M A')
    (k : A -> M B) (k' : A' -> M B) (s : io) :
  sim R (m s) (m' s) ->
  (forall a a' s1, R a a' -> k a s1 = k' a' s1) ->
  bind m k s = bind m' k' s.
Proof.
  unfold sim, bind. intros H K.
  destruct (m s) as [[a|e|c] s1], (m' s) as [[a'|e'|c'] s1'];
    try contradiction; destruct H as [H ->]; [now apply K | now subst..].
Qed.

Lemma bind_ext {A B} (m : M A) (k k' : A -> M B) (s : io) :
  (forall a s1, k a s1 = k' a s1) -> bind m k s = bind m k' s.
Proof.
  intros K. unfold bind. destruct (m s) as [[a|e|c] s1]; trivial.
Qed.

End PyFacts.

(** ** Python numbers and [datetime]

    [int(x)] on a float truncates toward zero and raises on NaN and on the
    infinities.  The calendar functions follow CPython's [datetime] module
    (proleptic Gregorian ordinals, day 1 = 0001-01-01). *)

Module PyNum.

Import Py.
Local Open Scope Z_scope.

Definition int_of_float (x : float) : exn + Z :=
  match Prim2SF x with
  | S754_zero _ => inr 0
  | S754_nan => inl "cannot convert float NaN to integer"
  | S754_infinity _ => inl "cannot convert float infinity to integer"
  | S754_finite s m e =>
      let a := match e with
               | Zneg k => Z.shiftr (Zpos m) (Zpos k)
               | _ => Z.shiftl (Zpos m) e
               end in
      inr (if s then - a else a)
  end.

Definition digit (d : Z) : string :=
  String (ascii_of_nat (48 + Z.to_nat d)) EmptyString.

Fixpoint digits (fuel : nat) (n : Z) : string :=
  match fuel with
  | O => ""
  | S fuel' =>
      if n <? 10 then digit n
      else (digits fuel' (n / 10) ++ digit (n mod 10))%string
  end.

(** [str(n)] for an integer. *)
Definition str_of_int (n : Z) : string :=
  if n <? 0
  then ("-" ++ digits (S (Z.to_nat (Z.log2 (- n)))) (- n))%string
  else digits (S (Z.to_nat (Z.log2 n))) n.

(** A non-negative integer on at least [width] digits, zero-padded:
    [%02d], [%04d]. *)
Definition zero_pad (width : nat) (n : Z) : string :=
  let s := str_of_int n in
  (String.concat "" (repeat "0" (width - String.length s)) ++ s)%string.

(** [f"{x:.nf}"] for [n > 0]: the exact binary value rounded to [n]
    decimals, ties to even. *)
Definition format_f (n : nat) (x : float) : string :=
  match Prim2SF x with
  | S754_nan => "nan"
  | S754_infinity s => if s then "-inf" else "inf"
  | S754_zero s =>
      ((if s then "-" else "") ++ "0." ++ zero_pad n 0)%string
  | S754_finite s m e =>
      let p := Z.pow 10 (Z.of_nat n) in
      let scaled :=
        match e with
        | Zneg k =>
            let num := Zpos m * p in
            let den := Z.pow 2 (Zpos k) in
            let q := num / den in
            let r := num mod den in
            if (den <? 2 * r) || ((den =? 2 * r) && Z.odd q) then q + 1 else q
        | _ => Zpos m * Z.pow 2 e * p
        end in
      ((if s then "-" else "") ++ str_of_int (scaled / p) ++ "."
       ++ zero_pad n (scaled mod p))%string
  end.

End PyNum.

Module Datetime.

Import Py.
Local Open Scope Z_scope.

Definition MAXYEAR : Z := 9999.
Definition MAXORDINAL : Z := 3652059.
Definition DI400Y : Z := 146097.
Definition DI100Y : Z := 36524.
Definition DI4Y : Z := 1461.

Definition is_leap (year : Z) : bool :=
  (year mod 4 =? 0) && (negb (year mod 100 =? 0) || (year mod 400 =? 0)).

Definition days_before_year (year : Z) : Z :=
  let y := year - 1 in
  y * 365 + y / 4 - y / 100 + y / 400.

Definition DAYS_IN_MONTH (month : Z) : Z :=
  match month with
  | 1 => 31 | 2 => 28 | 3 => 31 | 4 => 30 | 5 => 31 | 6 => 30
  | 7 => 31 | 8 => 31 | 9 => 30 | 10 => 31 | 11 => 30 | 12 => 31
  | _ => -1
  end.

Definition DAYS_BEFORE_MONTH (month : Z) : Z :=
  match month with
  | 1 => 0 | 2 => 31 | 3 => 59 | 4 => 90 | 5 => 120 | 6 => 151
  | 7 => 181 | 8 => 212 | 9 => 243 | 10 => 273 | 11 => 304 | 12 => 334
  | _ => -1
  end.

Definition days_in_month (year month : Z) : Z :=
  if (month =? 2) && is_leap year then 29 else DAYS_IN_MONTH month.

Definition days_before_month (year month : Z) : Z :=
  DAYS_BEFORE_MONTH month + (if (month >? 2) && is_leap year then 1 else 0).

Definition ymd2ord (year month day : Z) : Z :=
  days_before_year year + days_before_month year month + day.

Definition ord2ymd (n : Z) : Z * Z * Z :=
  let n := n - 1 in
  let n400 := n / DI400Y in
  let n := n mod DI400Y in
  let year := n400 * 400 + 1 in
  let n100 := n / DI100Y in
  let n := n mod DI100Y in
  let n4 := n / DI4Y in
  let n := n mod DI4Y in
  let n1 := n / 365 in
  let n := n mod 365 in
  let year := year + (n100 * 100 + n4 * 4 + n1) in
  if (n1 =? 4) || (n100 =? 4) then (year - 1, 12, 31)
  else
    let leapyear := (n1 =? 3) && (negb (n4 =? 24) || (n100 =? 3)) in
    let month := Z.shiftr (n + 50) 5 in
    let preceding :=
      DAYS_BEFORE_MONTH month + (if (month >? 2) && leapyear then 1 else 0) in
    if preceding >? n then
      let month := month - 1 in
      let preceding :=
        preceding
        - (DAYS_IN_MONTH month + (if (month =? 2) && leapyear then 1 else 0)) in
      (year, month, n - preceding + 1)
    else (year, month, n - preceding + 1).

Record datetime : Type := mk_datetime {
  year : Z; month : Z; day : Z; hour : Z; minute : Z
}.

(** The range checks of the [datetime(...)] constructor. *)
Definition valid_fields (y m d hh mm : Z) : bool :=
  (1 <=? y) && (y <=? MAXYEAR) && (1 <=? m) && (m <=? 12)
  && (1 <=? d) && (d <=? days_in_month y m)
  && (0 <=? hh) && (hh <=? 23) && (0 <=? mm) && (mm <=? 59).

(** [datetime(y, m, d, hh, mm)] *)
Definition new (y m d hh mm : Z) : exn + datetime :=
  if negb ((1 <=? y) && (y <=? MAXYEAR)) then inl "year is out of range"
  else if negb ((1 <=? m) && (m <=? 12)) then inl "month must be in 1..12"
  else if negb ((1 <=? d) && (d <=? days_in_month y m)) then
    inl "day is out of range for month"
  else if negb ((0 <=? hh) && (hh <=? 23)) then inl "hour must be in 0..23"
  else if negb ((0 <=? mm) && (mm <=? 59)) then inl "minute must be in 0..59"
  else inr (mk_datetime y m d hh mm).

Definition toordinal (t : datetime) : Z := ymd2ord (year t) (month t) (day t).

(** [t + timedelta(minutes=delta)]: the sum is normalised to whole days
    and a remainder within the day, and the days are converted back. *)
Definition add_minutes (t : datetime) (delta : Z) : exn + datetime :=
  let total := hour t * 60 + minute t + delta in
  let days := toordinal t + total / 1440 in
  let rem := total mod 1440 in
  if (0 <? days) && (days <=? MAXORDINAL) then
    let '(y, m, d) := ord2ymd days in
    inr (mk_datetime y m d (rem / 60) (rem mod 60))
  else inl "date value out of range".

(** [f"{t:%Y-%m-%d %H:%M}"], which is the C library's [strftime]: glibc
    writes the year [%Y] in decimal without padding (year 24 is "24"), and
    the other fields on two digits. *)
Definition strftime (t : datetime) : string :=
  (PyNum.str_of_int (year t) ++ "-" ++ PyNum.zero_pad 2 (month t) ++ "-"
   ++ PyNum.zero_pad 2 (day t) ++ " " ++ PyNum.zero_pad 2 (hour t) ++ ":"
   ++ PyNum.zero_pad 2 (minute t))%string.

(** *** Reference notions for the calendar claims *)

(** Minutes elapsed since the start of day 0. *)
Definition minutes_of (t : datetime) : Z :=
  toordinal t * 1440 + hour t * 60 + minute t.

Definition valid (t : datetime) : bool :=
  valid_fields (year t) (month t) (day t) (hour t) (minute t).

(** The day after a calendar date. *)
Definition next_day (y m d : Z) : Z * Z * Z :=
  if d <? days_in_month y m then (y, m, d + 1)
  else if m <? 12 then (y, m + 1, 1)
  else (y + 1, 1, 1).

(** Thirty minutes later, by carrying into the hour and into the day. *)
Definition half_hour_later (t : datetime) : datetime :=
  if minute t <? 30 then
    mk_datetime (year t) (month t) (day t) (hour t) (minute t + 30)
  else if hour t <? 23 then
    mk_datetime (year t) (month t) (day t) (hour t + 1) (minute t - 30)
  else
    let '(y, m, d) := next_day (year t) (month t) (day t) in
    mk_datetime y m d 0 (minute t - 30).

(** The last half hour of the last representable day. *)
Definition at_end_of_time (t : datetime) : bool :=
  (year t =? MAXYEAR) && (month t =? 12) && (day t =? 31)
  && (hour t =? 23) && (30 <=? minute t).

(** The integers [lo, lo + 1, ..., lo + n - 1]. *)
Definition Zrange (lo : Z) (n : nat) : list Z :=
  map (fun i => lo + Z.of_nat i) (seq 0 n).

(** The round trip date -> ordinal -> date on one date, as a test; the
    ordinals of the first 400 years stay within one cycle. *)
Definition roundtrip_ok (y m d : Z) : bool :=
  if (1 <=? d) && (d <=? days_in_month y m) then
    let n := ymd2ord y m d in
    let '(y', m', d') := ord2ymd n in
    (y' =? y) && (m' =? m) && (d' =? d) && (1 <=? n) && (n <=? DI400Y)
  else true.

(** The test on every date of the years 1 to 400. *)
Definition cycle_ok : bool :=
  forallb (fun y =>
    forallb (fun m =>
      forallb (fun d => roundtrip_ok y m d) (Zrange 1 31))
      (Zrange 1 12))
    (Zrange 1 400).

(** *** Calendar facts *)


Lemma Zrange_In (lo : Z) (n : nat) (x : Z) :
  lo <= x < lo + Z.of_nat n -> In x (Zrange lo n).
Proof.
  intros H. unfold Zrange. apply in_map_iff.
  exists (Z.to_nat (x - lo)). split; [lia|]. apply in_seq. lia.
Qed.

Lemma is_leap_period (y k : Z) : is_leap (y + 400 * k) = is_leap y.
Proof.
  unfold is_leap.
  replace (y + 400 * k) with (y + (100 * k) * 4) at 1 by lia.
  replace (y + 400 * k) with (y + (4 * k) * 100) at 1 by lia.
  replace (y + 400 * k) with (y + k * 400) by lia.
  now rewrite !Z.mod_add by lia.
Qed.

Lemma days_before_year_period (y k : Z) :
  days_before_year (y + 400 * k) = days_before_year y + DI400Y * k.
Proof.
  unfold days_before_year, DI400Y. cbv zeta.
  replace ((y + 400 * k - 1) / 4) with ((y - 1 + (100 * k) * 4) / 4) by (f_equal; lia).
  replace ((y + 400 * k - 1) / 100) with ((y - 1 + (4 * k) * 100) / 100) by (f_equal; lia).
  replace ((y + 400 * k - 1) / 400) with ((y - 1 + k * 400) / 400) by (f_equal; lia).
  rewrite !Z.div_add by lia. lia.
Qed.

Lemma ymd2ord_period (y m d k : Z) :
  ymd2ord (y + 400 * k) m d = ymd2ord y m d + DI400Y * k.
Proof.
  unfold ymd2ord, days_before_month.
  rewrite days_before_year_period, is_leap_period. lia.
Qed.

Lemma days_in_month_period (y m k : Z) :
  days_in_month (y + 400 * k) m = days_in_month y m.
Proof. unfold days_in_month. now rewrite is_leap_period. Qed.

Lemma ord2ymd_period (n k : Z) :
  1 <= n <= DI400Y -> 
  ord2ymd (n + DI400Y * k) =
  let '(y, m, d) := ord2ymd n in (y + 400 * k, m, d).
Proof.
  intros Hn. unfold ord2ymd. cbv zeta.
  replace (n + DI400Y * k - 1) with (n - 1 + k * DI400Y) by lia.
  rewrite Z.div_add, Z.mod_add by (unfold DI400Y; lia).
  rewrite (Z.div_small (n - 1) DI400Y), (Z.mod_small (n - 1) DI400Y) by lia.
  set (r := n - 1).
  set (n100 := r / DI100Y). set (r1 := r mod DI100Y).
  set (n4 := r1 / DI4Y). set (r2 := r1 mod DI4Y).
  set (n1 := r2 / 365). set (r3 := r2 mod 365).
  destruct ((n1 =? 4) || (n100 =? 4)); [f_equal; f_equal; lia|].
  match goal with |- (if ?c then _ else _) = _ => destruct c end;
    f_equal; f_equal; lia.
Qed.

Lemma cycle_ok_true : cycle_ok = true.
Proof. vm_compute. reflexivity. Qed.

Lemma days_in_month_le_31 (y m : Z) : days_in_month y m <= 31.
Proof.
  unfold days_in_month. destruct ((m =? 2) && is_leap y); [lia|].
  unfold DAYS_IN_MONTH.
  destruct m as [|p|p]; try lia.
  do 4 (destruct p as [p|p|]; try lia).
Qed.

Lemma forallb_Zrange (f : Z -> bool) (lo : Z) (n : nat) :
  forallb f (Zrange lo n) = true ->
  forall x, lo <= x < lo + Z.of_nat n -> f x = true.
Proof.
  intros H x Hx. rewrite forallb_forall in H. apply H, Zrange_In, Hx.
Qed.

Lemma cycle_ok_spec :
  cycle_ok = true ->
  forall y m d, 1 <= y <= 400 -> 1 <= m <= 12 -> 1 <= d <= 31 ->
  roundtrip_ok y m d = true.
Proof.
  unfold cycle_ok. intros H y m d Hy Hm Hd.
  apply forallb_Zrange with (x := y) in H; [|lia].
  apply forallb_Zrange with (x := m) in H; [|lia].
  apply forallb_Zrange with (x := d) in H; [|lia].
  exact H.
Qed.

Lemma roundtrip_cycle (y m d : Z) :
  1 <= y <= 400 -> 1 <= m <= 12 -> 1 <= d <= days_in_month y m ->
  ord2ymd (ymd2ord y m d) = (y, m, d) /\ 1 <= ymd2ord y m d <= DI400Y.
Proof.
  intros Hy Hm Hd.
  pose proof (days_in_month_le_31 y m) as H31.
  assert (H : roundtrip_ok y m d = true)
    by (apply (cycle_ok_spec cycle_ok_true); lia).
  unfold roundtrip_ok in H.
  destruct (Z.leb_spec 1 d); [|lia].
  destruct (Z.leb_spec d (days_in_month y m)); [|lia].
  cbn [andb] in H.
  destruct (ord2ymd (ymd2ord y m d)) as [[y' m'] d'].
  rewrite !andb_true_iff, !Z.eqb_eq, !Z.leb_le in H.
  destruct H as ((((-> & ->) & ->) & ?) & ?). auto.
Qed.

(** Converting a valid date to its ordinal and back gives the date. *)
Lemma ord2ymd_ymd2ord (y m d : Z) :
  1 <= y -> 1 <= m <= 12 -> 1 <= d <= days_in_month y m ->
  ord2ymd (ymd2ord y m d) = (y, m, d).
Proof.
  intros Hy Hm Hd.
  set (k := (y - 1) / 400). set (y0 := (y - 1) mod 400 + 1).
  assert (Ey : y = y0 + 400 * k).
  { unfold y0, k. pose proof (Z.div_mod (y - 1) 400). lia. }
  assert (Hy0 : 1 <= y0 <= 400).
  { unfold y0. pose proof (Z.mod_pos_bound (y - 1) 400). lia. }
  rewrite Ey in Hd |- *. rewrite days_in_month_period in Hd.
  destruct (roundtrip_cycle y0 m d Hy0 Hm Hd) as [R B].
  rewrite ymd2ord_period, ord2ymd_period, R by exact B. reflexivity.
Qed.

Lemma days_before_month_next (y m : Z) :
  1 <= m < 12 ->
  days_before_month y (m + 1) = days_before_month y m + days_in_month y m.
Proof.
  intros Hm. unfold days_before_month, days_in_month.
  assert (C : m = 1 \/ m = 2 \/ m = 3 \/ m = 4 \/ m = 5 \/ m = 6 \/ m = 7
              \/ m = 8 \/ m = 9 \/ m = 10 \/ m = 11) by lia.
  destruct (is_leap y);
    repeat (destruct C as [->|C]; [reflexivity|]); subst m; reflexivity.
Qed.

Lemma days_before_year_next (y : Z) :
  days_before_year (y + 1) =
  days_before_year y + 365 + (if is_leap y then 1 else 0).
Proof.
  unfold days_before_year, is_leap. cbv zeta.
  replace (y + 1 - 1) with y by lia.
  destruct (Z.eqb_spec (y mod 4) 0), (Z.eqb_spec (y mod 100) 0),
    (Z.eqb_spec (y mod 400) 0); cbn [andb orb negb];
    Z.div_mod_to_equations; lia.
Qed.

Lemma ymd2ord_next_day (y m d : Z) :
  1 <= m <= 12 -> 1 <= d <= days_in_month y m ->
  let '(y', m', d') := next_day y m d in
  ymd2ord y' m' d' = ymd2ord y m d + 1.
Proof.
  intros Hm Hd. unfold next_day.
  destruct (Z.ltb_spec d (days_in_month y m)); [unfold ymd2ord; lia|].
  assert (d = days_in_month y m) as -> by lia.
  destruct (Z.ltb_spec m 12).
  - unfold ymd2ord. rewrite days_before_month_next by lia. lia.
  - assert (m = 12) as -> by lia. unfold ymd2ord.
    rewrite days_before_year_next.
    unfold days_before_month, days_in_month. cbn.
    destruct (is_leap y); lia.
Qed.

Lemma valid_fields_iff (y m d hh mm : Z) :
  valid_fields y m d hh mm = true <->
  1 <= y <= MAXYEAR /\ 1 <= m <= 12 /\ 1 <= d <= days_in_month y m
  /\ 0 <= hh <= 23 /\ 0 <= mm <= 59.
Proof.
  unfold valid_fields. rewrite !andb_true_iff, !Z.leb_le. tauto.
Qed.

Lemma new_valid (y m d hh mm : Z) :
  valid_fields y m d hh mm = true ->
  new y m d hh mm = inr (mk_datetime y m d hh mm).
Proof.
  rewrite valid_fields_iff. intros (Hy & Hm & Hd & Hh & Hmi). unfold new.
  repeat match goal with
  | |- context [(?a <=? ?b)] =>
      let L := fresh in
      assert (L : (a <=? b) = true) by (apply Z.leb_le; lia); rewrite L; clear L
  end.
  reflexivity.
Qed.

Lemma new_invalid (y m d hh mm : Z) :
  valid_fields y m d hh mm = false ->
  exists e, new y m d hh mm = inl e.
Proof.
  unfold valid_fields, new.
  repeat match goal with
  | |- context [(?a <=? ?b)] =>
      destruct (a <=? b); cbn [andb negb]; try (intros _; eauto; fail)
  end.
  discriminate.
Qed.

Lemma days_in_month_ge_28 (y m : Z) : 1 <= m <= 12 -> 28 <= days_in_month y m.
Proof.
  intros Hm. unfold days_in_month.
  destruct m as [|p|p]; try lia.
  do 4 (try destruct p as [p|p|]); destruct (is_leap y);
    cbn -[Z.add Z.sub]; lia.
Qed.

Lemma next_day_valid (y m d : Z) :
  1 <= m <= 12 -> 1 <= d <= days_in_month y m ->
  let '(y', m', d') := next_day y m d in
  1 <= m' <= 12 /\ 1 <= d' <= days_in_month y' m'
  /\ (y' = y \/ (y' = y + 1 /\ m = 12 /\ d = 31)).
Proof.
  intros Hm Hd. unfold next_day.
  destruct (Z.ltb_spec d (days_in_month y m)); [lia|].
  destruct (Z.ltb_spec m 12).
  - pose proof (days_in_month_ge_28 y (m + 1)). lia.
  - assert (m = 12) as -> by lia.
    pose proof (days_in_month_ge_28 (y + 1) 1).
    assert (days_in_month y 12 = 31) by reflexivity. lia.
Qed.

Lemma days_before_month_bound (y m d : Z) :
  1 <= m <= 12 -> 1 <= d <= days_in_month y m ->
  1 <= days_before_month y m + d <= 365 + (if is_leap y then 1 else 0).
Proof.
  intros Hm. unfold days_before_month, days_in_month.
  destruct m as [|p|p]; try lia.
  do 4 (try destruct p as [p|p|]); destruct (is_leap y);
    cbn -[Z.add Z.sub]; lia.
Qed.

Lemma ymd2ord_bounds (y m d : Z) :
  1 <= y <= MAXYEAR -> 1 <= m <= 12 -> 1 <= d <= days_in_month y m ->
  1 <= ymd2ord y m d <= MAXORDINAL.
Proof.
  intros Hy Hm Hd. unfold MAXYEAR in Hy.
  pose proof (days_before_month_bound y m d Hm Hd) as B.
  pose proof (days_before_year_next y) as N.
  unfold ymd2ord, MAXORDINAL.
  assert (0 <= days_before_year y /\ days_before_year (y + 1) <= 3652059).
  { unfold days_before_year. cbv zeta. replace (y + 1 - 1) with y by lia.
    Z.div_mod_to_equations. lia. }
  lia.
Qed.

Lemma add_minutes_30 (t : datetime) :
  valid t = true -> at_end_of_time t = false ->
  add_minutes t 30 = inr (half_hour_later t).
Proof.
  destruct t as [y m d hh mm]. unfold valid, at_end_of_time. cbn [year month day hour minute].
  rewrite valid_fields_iff. intros (Hy & Hm & Hd & Hh & Hmi) He.
  unfold add_minutes, half_hour_later, toordinal.
  cbn [year month day hour minute].
  pose proof (ymd2ord_bounds y m d Hy Hm Hd) as B.
  pose proof (ord2ymd_ymd2ord y m d ltac:(lia) Hm Hd) as R.
  destruct (Z.ltb_spec mm 30) as [L|L].
  { assert (E1 : (hh * 60 + mm + 30) / 1440 = 0) by (apply Z.div_small; lia).
    assert (E2 : (hh * 60 + mm + 30) mod 1440 = hh * 60 + mm + 30)
      by (apply Z.mod_small; lia).
    rewrite E1, E2, Z.add_0_r, R.
    assert (E3 : (0 <? ymd2ord y m d) && (ymd2ord y m d <=? MAXORDINAL) = true)
      by (apply andb_true_iff; split; [apply Z.ltb_lt | apply Z.leb_le]; lia).
    rewrite E3. do 2 f_equal.
    - symmetry. apply (Z.div_unique _ _ _ (mm + 30)); lia.
    - symmetry. apply (Z.mod_unique _ _ hh); lia. }
  destruct (Z.ltb_spec hh 23) as [L'|L'].
  { assert (E1 : (hh * 60 + mm + 30) / 1440 = 0) by (apply Z.div_small; lia).
    assert (E2 : (hh * 60 + mm + 30) mod 1440 = hh * 60 + mm + 30)
      by (apply Z.mod_small; lia).
    rewrite E1, E2, Z.add_0_r, R.
    assert (E3 : (0 <? ymd2ord y m d) && (ymd2ord y m d <=? MAXORDINAL) = true)
      by (apply andb_true_iff; split; [apply Z.ltb_lt | apply Z.leb_le]; lia).
    rewrite E3. do 2 f_equal.
    - symmetry. apply (Z.div_unique _ _ _ (mm - 30)); lia.
    - symmetry. apply (Z.mod_unique _ _ (hh + 1)); lia. }
  assert (hh = 23) as -> by lia.
  assert (E1 : (23 * 60 + mm + 30) / 1440 = 1)
    by (symmetry; apply (Z.div_unique _ _ _ (mm - 30)); lia).
  assert (E2 : (23 * 60 + mm + 30) mod 1440 = mm - 30)
    by (symmetry; apply (Z.mod_unique _ _ 1); lia).
  rewrite E1, E2.
  pose proof (ymd2ord_next_day y m d Hm Hd) as N.
  pose proof (next_day_valid y m d Hm Hd) as V.
  destruct (next_day y m d) as [[y' m'] d'].
  destruct V as (Vm & Vd & Vy).
  assert (Hy' : 1 <= y' <= MAXYEAR).
  { destruct Vy as [->|(-> & -> & ->)]; [lia|].
    unfold MAXYEAR in *. split; [lia|].
    destruct (Z.eqb_spec y 9999) as [->|]; [|lia].
    revert He. cbn. destruct (Z.leb_spec 30 mm); [discriminate|lia]. }
  pose proof (ymd2ord_bounds y' m' d' Hy' Vm Vd) as B'.
  rewrite <- N.
  assert (E3 : (0 <? ymd2ord y' m' d') && (ymd2ord y' m' d' <=? MAXORDINAL) = true)
    by (apply andb_true_iff; split; [apply Z.ltb_lt | apply Z.leb_le]; lia).
  rewrite E3, (ord2ymd_ymd2ord y' m' d') by lia.
  do 2 f_equal.
  - apply Z.div_small; lia.
  - apply Z.mod_small; lia.
Qed.

Lemma add_minutes_30_overflow (t : datetime) :
  valid t = true -> at_end_of_time t = true ->
  add_minutes t 30 = inl "date value out of range"%string.
Proof.
  destruct t as [y m d hh mm]. unfold valid, at_end_of_time.
  cbn [year month day hour minute].
  rewrite valid_fields_iff, !andb_true_iff, !Z.eqb_eq, Z.leb_le.
  intros (_ & _ & _ & _ & Hmi) ((((-> & ->) & ->) & ->) & L).
  unfold add_minutes, toordinal. cbn [year month day hour minute].
  assert (E1 : (23 * 60 + mm + 30) / 1440 = 1)
    by (symmetry; apply (Z.div_unique _ _ _ (mm - 30)); lia).
  rewrite E1. reflexivity.
Qed.

Lemma half_hour_later_minutes (t : datetime) :
  valid t = true -> minutes_of (half_hour_later t) = minutes_of t + 30.
Proof.
  destruct t as [y m d hh mm]. unfold valid.
  cbn [year month day hour minute].
  rewrite valid_fields_iff. intros (Hy & Hm & Hd & Hh & Hmi).
  unfold half_hour_later, minutes_of, toordinal.
  cbn [year month day hour minute].
  destruct (Z.ltb_spec mm 30); [cbn [year month day hour minute]; lia|].
  destruct (Z.ltb_spec hh 23); [cbn [year month day hour minute]; lia|].
  pose proof (ymd2ord_next_day y m d Hm Hd) as N.
  destruct (next_day y m d) as [[y' m'] d'].
  cbn [year month day hour minute]. lia.
Qed.

Lemma half_hour_later_valid (t : datetime) :
  valid t = true -> at_end_of_time t = false ->
  valid (half_hour_later t) = true.
Proof.
  destruct t as [y m d hh mm]. unfold valid, at_end_of_time.
  cbn [year month day hour minute].
  rewrite valid_fields_iff. intros (Hy & Hm & Hd & Hh & Hmi) He.
  unfold half_hour_later. cbn [year month day hour minute].
  destruct (Z.ltb_spec mm 30);
    [cbn [year month day hour minute]; apply valid_fields_iff; lia|].
  destruct (Z.ltb_spec hh 23);
    [cbn [year month day hour minute]; apply valid_fields_iff; lia|].
  pose proof (next_day_valid y m d Hm Hd) as V.
  destruct (next_day y m d) as [[y' m'] d'].
  cbn [year month day hour minute]. apply valid_fields_iff.
  destruct V as (Vm & Vd & Vy).
  assert (1 <= y' <= MAXYEAR); [|lia].
  destruct Vy as [->|(-> & -> & ->)]; [lia|].
  unfold MAXYEAR in *. split; [lia|].
  destruct (Z.eqb_spec y 9999) as [->|]; [|lia].
  assert (hh = 23) as -> by lia.
  revert He. cbn. destruct (Z.leb_spec 30 mm); [discriminate|lia].
Qed.

(** A valid timestamp is determined by its count of minutes. *)
Lemma minutes_of_inj (t1 t2 : datetime) :
  valid t1 = true -> valid t2 = true ->
  minutes_of t1 = minutes_of t2 -> t1 = t2.
Proof.
  destruct t1 as [y1 m1 d1 h1 i1], t2 as [y2 m2 d2 h2 i2].
  unfold valid, minutes_of, toordinal. cbn [year month day hour minute].
  rewrite !valid_fields_iff.
  intros (Hy1 & Hm1 & Hd1 & Hh1 & Hi1) (Hy2 & Hm2 & Hd2 & Hh2 & Hi2) E.
  assert (O : ymd2ord y1 m1 d1 = ymd2ord y2 m2 d2) by lia.
  assert (h1 = h2) as -> by lia. assert (i1 = i2) as -> by lia.
  pose proof (ord2ymd_ymd2ord y1 m1 d1 ltac:(lia) Hm1 Hd1) as R1.
  pose proof (ord2ymd_ymd2ord y2 m2 d2 ltac:(lia) Hm2 Hd2) as R2.
  rewrite O, R2 in R1. now injection R1 as -> -> ->.
Qed.

Example strftime_ex :
  strftime (mk_datetime 2024 1 1 0 30) = "2024-01-01 00:30".
Proof. reflexivity. Qed.

Example strftime_short_year_ex :
  strftime (mk_datetime 24 1 1 12 0) = "24-01-01 12:00".
Proof. reflexivity. Qed.

Example add_minutes_ex :
  add_minutes (mk_datetime 2024 2 28 23 45) 30 = inr (mk_datetime 2024 2 29 0 15).
Proof. reflexivity. Qed.

Example format_f_ex :
  PyNum.format_f 3 0.5 = "0.500"%string
  /\ PyNum.format_f 2 2.675 = "2.67"%string
  /\ PyNum.format_f 2 (-12.345) = "-12.35"%string
  /\ PyNum.format_f 6 (1 / 3) = "0.333333"%string
  /\ PyNum.format_f 2 1e22 = "10000000000000000000000.00"%string
  /\ PyNum.format_f 3 (0 / 0) = "nan"%string.
Proof. repeat split; vm_compute; reflexivity. Qed.

Example int_of_float_ex :
  PyNum.int_of_float 2024 = inr 2024 /\ PyNum.int_of_float (-3.7) = inr (-3)
  /\ PyNum.int_of_float 0.5 = inr 0 /\ PyNum.str_of_int (-120) = "-120"%string.
Proof. repeat split; vm_compute; reflexivity. Qed.

End Datetime.

(** ** The pandas frame

    [pd.read_csv] yields a table: column labels and rows of cells.  A cell
    is a number (a missing field is the NaN) or, in a column that did not
    parse as numbers, a string. *)

Module Pandas.

Import Py.

Inductive cell : Type :=
| Num (x : float)
| Text (s : string).

Record DataFrame : Type := mk_df {
  columns : list string;
  rows : list (list cell)
}.

(** A row of a frame taken on its own: labels paired with cells. *)
Definition Series : Type := list (string * cell).

Definition isna (c : cell) : bool :=
  match c with
  | Num x => is_nan x
  | Text _ => false
  end.

(** [df.dropna()]: keep the rows without any missing cell. *)
Definition dropna (df : DataFrame) : DataFrame :=
  mk_df (columns df) (filter (fun r => negb (existsb isna r)) (rows df)).

(** [len(df)] *)
Definition len (df : DataFrame) : nat := List.length (rows df).

(** Position of a label among the columns. *)
Fixpoint get_loc (cols : list string) (label : string) : option nat :=
  match cols with
  | [] => None
  | c :: cols' =>
      if String.eqb c label then Some 0%nat
      else option_map S (get_loc cols' label)
  end.

Fixpoint get_locs (cols labels : list string) : exn + list nat :=
  match labels with
  | [] => inr []
  | l :: labels' =>
      match get_loc cols l with
      | None => inl ("['" ++ l ++ "'] not in index")
      | Some i =>
          match get_locs cols labels' with
          | inl e => inl e
          | inr locs => inr (i :: locs)
          end
      end
  end.

Definition take (r : list cell) (locs : list nat) : list cell :=
  map (fun i => nth i r (Num nan)) locs.

(** [df[labels]]: the listed columns, in the listed order; [KeyError] when
    a label is not a column. *)
Definition getitem (df : DataFrame) (labels : list string) : exn + DataFrame :=
  match get_locs (columns df) labels with
  | inl e => inl e
  | inr locs => inr (mk_df labels (map (fun r => take r locs) (rows df)))
  end.

(** [l[-k:]] *)
Definition tail {A} (k : nat) (l : list A) : list A :=
  skipn (List.length l - k) l.

(** [df.iloc[-k:]] *)
Definition iloc_tail (k : nat) (df : DataFrame) : DataFrame :=
  mk_df (columns df) (tail k (rows df)).

(** [df.iloc[-1]] *)
Definition iloc_last (df : DataFrame) : exn + Series :=
  match tail 1 (rows df) with
  | r :: _ => inr (combine (columns df) r)
  | [] => inl "single positional indexer is out-of-bounds"
  end.

(** [row[label]] *)
Fixpoint series_get (row : Series) (label : string) : exn + cell :=
  match row with
  | [] => inl label
  | (c, v) :: row' => if String.eqb c label then inr v else series_get row' label
  end.

(** [df.values] *)
Definition values (df : DataFrame) : list (list cell) := rows df.

(** *** Permuting the columns of a frame *)

(** [permute d pi l] lists the elements of [l] in the order [pi]. *)
Definition permute {A} (d : A) (pi : list nat) (l : list A) : list A :=
  map (fun i => nth i l d) pi.

Definition permute_columns (pi : list nat) (df : DataFrame) : DataFrame :=
  mk_df (permute "" pi (columns df)) (map (permute (Num nan) pi) (rows df)).

(** What [read_csv] guarantees of a frame: distinct labels (repeated
    header names are renamed) and rows as wide as the header. *)
Definition well_formed (df : DataFrame) : Prop :=
  NoDup (columns df)
  /\ Forall (fun r => List.length r = List.length (columns df)) (rows df).

(** *** From the file to the frame

    A CSV file as [pd.read_csv] sees it: the names of the header line and
    the records, cell by cell. *)
Record csv_file : Type := mk_csv {
  header_names : list string;
  records : list (list cell)
}.

Fixpoint count_seen (name : string) (seen : list string) : nat :=
  match seen with
  | [] => 0
  | c :: seen' => (if String.eqb c name then 1 else 0) + count_seen name seen'
  end.

(** The labels [read_csv] gives the columns, from left to right: an empty
    name at position [i] becomes "Unnamed: i", and a name already met [k]
    times becomes "name.k", so the first of two columns called "station"
    keeps the name and the second is "station.1".  (Headers in which a
    label made this way meets a label that is already there are renamed
    further, differently from one pandas version to the next; they are
    outside this model.) *)
Fixpoint dedup_names_from (i : nat) (seen names : list string) : list string :=
  match names with
  | [] => []
  | c :: names' =>
      let c := if String.eqb c "" then "Unnamed: " ++ PyNum.str_of_int (Z.of_nat i)
               else c in
      let k := count_seen c seen in
      (if Nat.eqb k 0 then c else c ++ "." ++ PyNum.str_of_int (Z.of_nat k))
      :: dedup_names_from (S i) (c :: seen) names'
  end.

Definition dedup_names (names : list string) : list string :=
  dedup_names_from 0 [] names.

(** The frame [read_csv] returns for a file. *)
Definition frame_of_csv (f : csv_file) : DataFrame :=
  mk_df (dedup_names (header_names f)) (records f).

(** The same file with its columns written in the order [pi]. *)
Definition permute_csv (pi : list nat) (f : csv_file) : csv_file :=
  mk_csv (permute "" pi (header_names f))
         (map (permute (Num nan) pi) (records f)).

(** Two rows that answer every [row[label]] alike. *)
Definition series_equiv (a b : Series) : Prop :=
  forall label, series_get a label = series_get b label.

(** The cell of a row under a label. *)
Definition lookup (cols : list string) (r : list cell) (label : string)
  : option cell :=
  option_map (fun i => nth i r (Num nan)) (get_loc cols label).

Lemma get_loc_Some (cols : list string) (label : string) (i : nat) :
  get_loc cols label = Some i ->
  (i < List.length cols)%nat /\ nth i cols "" = label.
Proof.
  revert i. induction cols as [|c cols IH]; intros i; cbn; [discriminate|].
  destruct (String.eqb_spec c label) as [->|N].
  - intros [= <-]. split; [lia|reflexivity].
  - destruct (get_loc cols label) as [j|]; [|discriminate].
    intros [= <-]. destruct (IH j eq_refl). split; [lia|assumption].
Qed.

Lemma get_loc_None (cols : list string) (label : string) :
  get_loc cols label = None <-> ~ In label cols.
Proof.
  induction cols as [|c cols IH]; cbn; [tauto|].
  destruct (String.eqb_spec c label) as [->|N].
  - split; [discriminate|]. intros H. exfalso. auto.
  - destruct (get_loc cols label) as [j|]; cbn.
    + split; [discriminate|]. intros H.
      assert (H' : ~ In label cols) by tauto.
      apply IH in H'. discriminate.
    + split; [|reflexivity]. intros _ [E|E]; [auto|]. now apply IH in E.
Qed.

Lemma map_nth_seq {A} (d : A) (l : list A) :
  map (fun i => nth i l d) (seq 0 (List.length l)) = l.
Proof.
  induction l as [|a l IH]; [reflexivity|].
  cbn [List.length seq map nth]. f_equal.
  rewrite <- seq_shift, map_map. exact IH.
Qed.

Lemma permute_Permutation {A} (d : A) (pi : list nat) (l : list A) :
  Permutation pi (seq 0 (List.length l)) -> Permutation (permute d pi l) l.
Proof.
  intros H. unfold permute.
  apply Permutation_trans
    with (map (fun i => nth i l d) (seq 0 (List.length l))).
  - now apply Permutation_map.
  - now rewrite map_nth_seq.
Qed.

Lemma existsb_Permutation {A} (f : A -> bool) (l l' : list A) :
  Permutation l l' -> existsb f l = existsb f l'.
Proof.
  induction 1; cbn; try congruence.
  now destruct (f x), (f y).
Qed.

Lemma nth_permute {A} (d : A) (pi : list nat) (l : list A) (j : nat) :
  (j < List.length pi)%nat ->
  nth j (permute d pi l) d = nth (nth j pi 0%nat) l d.
Proof.
  intros H. unfold permute.
  rewrite (nth_indep _ d (nth 0 l d)) by now rewrite length_map.
  now rewrite (map_nth (fun i => nth i l d)).
Qed.

(** Looking a label up is insensitive to the order of the columns. *)
Lemma lookup_permute (pi : list nat) (cols : list string) (r : list cell)
    (label : string) :
  NoDup cols -> Permutation pi (seq 0 (List.length cols)) ->
  List.length r = List.length cols ->
  lookup (permute "" pi cols) (permute (Num nan) pi r) label
  = lookup cols r label.
Proof.
  intros ND P L. unfold lookup.
  pose proof (permute_Permutation "" pi cols P) as PC.
  destruct (get_loc cols label) as [i|] eqn:Gi.
  - destruct (get_loc (permute "" pi cols) label) as [j|] eqn:Gj.
    + cbn. f_equal.
      apply get_loc_Some in Gi. apply get_loc_Some in Gj.
      destruct Gi as [Li Ni], Gj as [Lj Nj].
      unfold permute in Lj. rewrite length_map in Lj.
      rewrite nth_permute in Nj by assumption.
      rewrite nth_permute by assumption.
      assert (B : (nth j pi 0 < List.length cols)%nat).
      { assert (I : In (nth j pi 0%nat) pi) by now apply nth_In.
        eapply Permutation_in in I; [|exact P]. apply in_seq in I. lia. }
      assert (E : nth j pi 0%nat = i).
      { apply (proj1 (NoDup_nth cols "") ND); trivial. congruence. }
      now rewrite E.
    + exfalso. apply get_loc_None in Gj. apply Gj.
      eapply Permutation_in; [symmetry; exact PC|].
      apply get_loc_Some in Gi. destruct Gi as [Li <-]. now apply nth_In.
  - destruct (get_loc (permute "" pi cols) label) as [j|] eqn:Gj; [|reflexivity].
    exfalso. apply get_loc_None in Gi. apply Gi.
    eapply Permutation_in; [exact PC|].
    apply get_loc_Some in Gj. destruct Gj as [Lj <-]. now apply nth_In.
Qed.

Lemma tail_map {A B} (f : A -> B) (k : nat) (l : list A) :
  tail k (map f l) = map f (tail k l).
Proof. unfold tail. now rewrite length_map, skipn_map. Qed.

Lemma tail_suffix {A} (k : nat) (l : list A) :
  (k <= List.length l)%nat ->
  exists front, l = (front ++ tail k l)%list /\ List.length (tail k l) = k.
Proof.
  intros H. exists (firstn (List.length l - k) l). unfold tail. split.
  - symmetry. apply firstn_skipn.
  - rewrite length_skipn. lia.
Qed.

Lemma tail_In {A} (k : nat) (l : list A) (a : A) : In a (tail k l) -> In a l.
Proof.
  unfold tail. intros H. rewrite <- (firstn_skipn (List.length l - k) l).
  apply in_or_app. now right.
Qed.

Lemma series_get_lookup (cols : list string) (r : list cell) (label : string) :
  List.length r = List.length cols ->
  series_get (combine cols r) label
  = match lookup cols r label with
    | Some c => inr c
    | None => inl label
    end.
Proof.
  unfold lookup. revert r.
  induction cols as [|c cols IH]; intros [|x r] L; try discriminate L;
    [reflexivity|].
  cbn [combine series_get get_loc].
  destruct (String.eqb c label); [reflexivity|].
  rewrite IH by (cbn in L; lia).
  now destruct (get_loc cols label).
Qed.

Section Permuted.

Variable pi : list nat.
Variable df : DataFrame.
Hypothesis WF : well_formed df.
Hypothesis PI : Permutation pi (seq 0 (List.length (columns df))).

Lemma row_length (r : list cell) :
  In r (rows df) -> List.length r = List.length (columns df).
Proof. destruct WF as [_ F]. rewrite Forall_forall in F. apply F. Qed.

Lemma isna_permute (r : list cell) :
  In r (rows df) ->
  existsb isna (permute (Num nan) pi r) = existsb isna r.
Proof.
  intros H. apply existsb_Permutation, permute_Permutation.
  now rewrite (row_length r H).
Qed.

Lemma dropna_permute :
  dropna (permute_columns pi df) = permute_columns pi (dropna df).
Proof.
  unfold dropna, permute_columns. cbn [columns rows]. f_equal.
  pose proof isna_permute as H. revert H.
  induction (rows df) as [|r l IH]; intros H; [reflexivity|].
  cbn [map filter]. rewrite (H r) by now left.
  destruct (negb (existsb isna r)); cbn [map]; [f_equal|];
    apply IH; intros r' Hr'; apply H; now right.
Qed.

Lemma get_locs_permute (labels : list string) :
  match get_locs (columns df) labels,
        get_locs (permute "" pi (columns df)) labels with
  | inl e, inl e' => e = e'
  | inr locs, inr locs' =>
      forall r, In r (rows df) ->
                take (permute (Num nan) pi r) locs' = take r locs
  | _, _ => False
  end.
Proof.
  destruct WF as [ND _].
  induction labels as [|l labels IH]; cbn [get_locs]; [reflexivity|].
  pose proof (lookup_permute pi (columns df)
                (repeat (Num nan) (List.length (columns df))) l ND PI
                (repeat_length _ _)) as E.
  unfold lookup in E.
  destruct (get_loc (columns df) l) as [i|] eqn:Gi,
           (get_loc (permute "" pi (columns df)) l) as [j|] eqn:Gj;
    try discriminate E; [|reflexivity].
  destruct (get_locs (columns df) labels) as [e|locs],
           (get_locs (permute "" pi (columns df)) labels) as [e'|locs'];
    trivial.
  intros r Hr. cbn [take map]. f_equal; [|now apply IH].
  pose proof (lookup_permute pi (columns df) r l ND PI (row_length r Hr)) as E'.
  unfold lookup in E'. rewrite Gi, Gj in E'. now injection E'.
Qed.

Lemma getitem_permute (labels : list string) :
  getitem (permute_columns pi df) labels = getitem df labels.
Proof.
  unfold getitem, permute_columns. cbn [columns rows].
  pose proof (get_locs_permute labels) as H.
  destruct (get_locs (columns df) labels) as [e|locs],
           (get_locs (permute "" pi (columns df)) labels) as [e'|locs'];
    try contradiction; [now subst|].
  f_equal. f_equal. rewrite map_map. apply map_ext_in. exact H.
Qed.

Lemma iloc_last_permute :
  match iloc_last df, iloc_last (permute_columns pi df) with
  | inl e, inl e' => e = e'
  | inr a, inr b => series_equiv a b
  | _, _ => False
  end.
Proof.
  unfold iloc_last, permute_columns. cbn [columns rows].
  rewrite tail_map.
  pose proof (tail_In 1 (rows df)) as T.
  destruct (tail 1 (rows df)) as [|r l]; [reflexivity|].
  cbn [map]. intros label.
  assert (L : List.length r = List.length (columns df))
    by (apply row_length, T; now left).
  destruct WF as [ND _].
  rewrite !series_get_lookup, lookup_permute; trivial.
  unfold permute. now rewrite !length_map.
Qed.

End Permuted.

Lemma well_formed_dropna (df : DataFrame) :
  well_formed df -> well_formed (dropna df).
Proof.
  intros [ND F]. split; [exact ND|]. cbn [dropna columns rows].
  rewrite Forall_forall in *. intros r Hr. apply F.
  now apply filter_In in Hr.
Qed.

(** *** Files whose header names are distinct *)

Lemma count_seen_absent (name : string) (seen : list string) :
  ~ In name seen -> count_seen name seen = 0%nat.
Proof.
  induction seen as [|c seen IH]; [reflexivity|].
  cbn [count_seen In]. intros N.
  destruct (String.eqb_spec c name) as [E|_]; [now destruct N; left|].
  apply IH. tauto.
Qed.

Lemma dedup_names_from_distinct (names seen : list string) (i : nat) :
  NoDup names -> ~ In "" names ->
  (forall c, In c names -> ~ In c seen) ->
  dedup_names_from i seen names = names.
Proof.
  revert seen i. induction names as [|c names IH]; intros seen i D E S;
    [reflexivity|].
  cbn [dedup_names_from].
  destruct (String.eqb_spec c "") as [->|_]; [destruct E; now left|].
  rewrite (count_seen_absent c seen) by (apply S; now left).
  cbn [Nat.eqb]. f_equal. inversion D as [|c' l' N D']; subst.
  apply IH; trivial.
  - intros I. apply E. now right.
  - intros x I [<-|I']; [contradiction|]. apply (S x); [now right|assumption].
Qed.

Lemma dedup_names_distinct (names : list string) :
  NoDup names -> ~ In "" names -> dedup_names names = names.
Proof.
  intros D E. apply dedup_names_from_distinct; trivial. intros c _ [].
Qed.

(** With distinct names, the frame of the permuted file is the frame of
    the file with its columns permuted. *)
Lemma frame_of_permuted_csv (pi : list nat) (f : csv_file) :
  NoDup (header_names f) -> ~ In "" (header_names f) ->
  Permutation pi (seq 0 (List.length (header_names f))) ->
  frame_of_csv (permute_csv pi f) = permute_columns pi (frame_of_csv f).
Proof.
  intros D E PI. unfold frame_of_csv, permute_csv, permute_columns.
  cbn [header_names records columns rows].
  pose proof (permute_Permutation "" pi (header_names f) PI) as P.
  rewrite (dedup_names_distinct (header_names f) D E).
  rewrite dedup_names_distinct; [reflexivity| |].
  - apply (Permutation_NoDup (Permutation_sym P) D).
  - intros I. apply E. now apply (Permutation_in _ P).
Qed.

Lemma well_formed_frame_of_csv (f : csv_file) :
  NoDup (header_names f) -> ~ In "" (header_names f) ->
  Forall (fun r => List.length r = List.length (header_names f)) (records f) ->
  well_formed (frame_of_csv f).
Proof.
  intros D E R. unfold well_formed, frame_of_csv. cbn [columns rows].
  now rewrite (dedup_names_distinct (header_names f) D E).
Qed.

End Pandas.

(** ** The marine predictor: [marine_model/predict.py] *)

Module Marine.

Import Py Pandas MarineRules.
Local Open Scope py_scope.

(** A loaded (and compiled) network: [model.predict(X, verbose=0)[0]] on
    the 1 x 24 x 19 input, given in row-major order. *)
Definition model : Type := list float -> exn + list float.

(** A fitted scaler. *)
Record scaler : Type := mk_scaler {
  transform : list (list cell) -> exn + list (list float);
  inverse_transform : list float -> exn + list float
}.

Definition features : list string :=
  ["YY"; "MM"; "DD"; "hh"; "mm"; "WDIR"; "WSPD"; "GST"; "WVHT";
   "DPD"; "APD"; "MWD"; "PRES"; "ATMP"; "WTMP"; "DEWP"; "VIS"; "TIDE";
   "station"].

Definition usage : string := "Usage: python predict.py <data.csv>".
Definition too_few_rows : string := "data.csv must contain at least 24 rows".
Definition header : string :=
  "time,wvht(m),wvht(ft),wave_level,wspd(m/s),wspd(kt),wind_level,dpd(s),advice,station".

(** [l[i] = v] on a list long enough. *)
Fixpoint set_nth (i : nat) (v : float) (l : list float) : list float :=
  match i, l with
  | _, [] => []
  | O, _ :: l' => v :: l'
  | S i', x :: l' => x :: set_nth i' v l'
  end.

Section Main.

(** The collaborators outside the script. *)
Variable load_model : string -> exn + model.    (* tf.keras.models.load_model *)
Variable joblib_load : string -> exn + scaler.  (* joblib.load *)
Variable read_csv : string -> exn + DataFrame.  (* pd.read_csv *)
Variable int_of_text : string -> exn + Z.       (* int(s) on a str *)
Variable float_of_text : string -> exn + float. (* float(s) on a str *)

(** [int(c)] *)
Definition int_of_cell (c : cell) : exn + Z :=
  match c with
  | Num x => PyNum.int_of_float x
  | Text s => int_of_text s
  end.

(** [float(c)] *)
Definition float_of_cell (c : cell) : exn + float :=
  match c with
  | Num x => inr x
  | Text s => float_of_text s
  end.

(** Lines 18-21. *)
Definition check_args (argv : list string) : M unit :=
  if negb (Nat.eqb (List.length argv) 2) then
    print_stderr usage ;; sys_exit 1
  else ret tt.

(** Lines 24-30. *)
Definition load_artifacts : M (model * scaler) :=
  try_except
    (m <- call (load_model "/root/app/marine_model/lstm_marine_model.h5") ;;
     s <- call (joblib_load "/root/app/marine_model/marine_scaler.save") ;;
     ret (m, s))
    (fun e =>
       print_stderr ("Failed to load model or scaler: " ++ e) ;; sys_exit 1).

(** Lines 37-45: the frame without incomplete rows, and the window
    ([reset_index] only renumbers the rows). *)
Definition parse_input (csv_path : string) : M (DataFrame * DataFrame) :=
  try_except
    (df0 <- call (read_csv csv_path) ;;
     let df := dropna df0 in
     (if Nat.ltb (len df) 24 then
        print_stderr too_few_rows ;; sys_exit 1
      else ret tt) ;;
     sel <- call (getitem df features) ;;
     ret (df, iloc_tail 24 sel))
    (fun e =>
       print_stderr ("Failed to read/process input: " ++ e) ;; sys_exit 1).

(** [a.reshape(1, 24, len(features))]: the cells in row-major order, when
    there are exactly 24 x 19 of them. *)
Definition reshape (a : list (list float)) : M (list float) :=
  let flat := List.concat a in
  if Nat.eqb (List.length flat) (24 * List.length features) then ret flat
  else raise "cannot reshape array".

(** Lines 47-61: the predictions in physical units
    [(wvht_pred, wspd_pred, dpd_pred)]. *)
Definition predict (m : model) (s : scaler) (last24 : DataFrame)
  : M (float * float * float) :=
  try_except
    (last24_scaled <- call (transform s (values last24)) ;;
     X_input <- reshape last24_scaled ;;
     y_pred <- call (m X_input) ;;
     let dummy := repeat 0%float (List.length features) in
     y0 <- index y_pred 0 ;;
     let dummy := set_nth 8 y0 dummy in
     y1 <- index y_pred 1 ;;
     let dummy := set_nth 6 y1 dummy in
     y2 <- index y_pred 2 ;;
     let dummy := set_nth 9 y2 dummy in
     restored <- call (inverse_transform s dummy) ;;
     wvht_pred <- index restored 8 ;;
     wspd_pred <- index restored 6 ;;
     dpd_pred <- index restored 9 ;;
     ret (wvht_pred, wspd_pred, dpd_pred))
    (fun e => print_stderr ("Prediction failed: " ++ e) ;; sys_exit 1).

(** [int(row[label])] *)
Definition int_field (row : Series) (label : string) : exn + Z :=
  and_then (series_get row label) int_of_cell.

(** The arguments of [datetime(...)] on lines 65-66, evaluated left to
    right. *)
Definition time_fields (row : Series) : exn + (Z * Z * Z * Z * Z) :=
  and_then (int_field row "YY") (fun yy =>
  and_then (int_field row "MM") (fun mo =>
  and_then (int_field row "DD") (fun dd =>
  and_then (int_field row "hh") (fun hh =>
  and_then (int_field row "mm") (fun mi =>
  inr (yy, mo, dd, hh, mi)))))).

(** The body of the [try] of lines 63-67. *)
Definition next_time_of (df : DataFrame) : M (Series * Datetime.datetime) :=
  row <- call (iloc_last df) ;;
  f <- call (time_fields row) ;;
  let '(yy, mo, dd, hh, mi) := f in
  last_time <- call (Datetime.new yy mo dd hh mi) ;;
  next_time <- call (Datetime.add_minutes last_time 30) ;;
  ret (row, next_time).

(** Lines 63-70. *)
Definition time_step (df : DataFrame) : M (Series * Datetime.datetime) :=
  try_except (next_time_of df)
    (fun e => print_stderr ("Time parsing failed: " ++ e) ;; sys_exit 1).

(** Line 127. *)
Definition station_str (row : Series) : M string :=
  c <- call (series_get row "station") ;;
  x <- call (float_of_cell c) ;;
  n <- call (PyNum.int_of_float x) ;;
  ret (PyNum.str_of_int n).

(** Line 131. *)
Definition data_line (next_time : Datetime.datetime)
    (wvht_pred wspd_pred dpd_pred : float) (station : string) : string :=
  let wspd_kt := wspd_kt wspd_pred in
  let wvht_ft := wvht_ft wvht_pred in
  let wave_alert := wave_alert wvht_ft dpd_pred in
  let wind_alert := wind_alert wspd_kt in
  let advice := advice wave_alert wind_alert in
  Datetime.strftime next_time ++ "," ++ PyNum.format_f 3 wvht_pred ++ ","
  ++ PyNum.format_f 2 wvht_ft ++ "," ++ wave_alert ++ ","
  ++ PyNum.format_f 3 wspd_pred ++ "," ++ PyNum.format_f 2 wspd_kt ++ ","
  ++ wind_alert ++ "," ++ PyNum.format_f 3 dpd_pred ++ "," ++ advice ++ ","
  ++ station.

Definition main (argv : list string) : M unit :=
  stderr_to_devnull ;;
  check_args argv ;;
  let csv_path := nth 1 argv "" in
  ms <- load_artifacts ;;
  let '(m, s) := ms in
  dfs <- parse_input csv_path ;;
  let '(df, last24) := dfs in
  p <- predict m s last24 ;;
  let '(wvht_pred, wspd_pred, dpd_pred) := p in
  rt <- time_step df ;;
  let '(row, next_time) := rt in
  station <- station_str row ;;
  print header ;;
  print (data_line next_time wvht_pred wspd_pred dpd_pred station).

End Main.

(** *** How a run of the marine predictor can end *)

(** The messages of the script's fatal exits. *)
Definition diagnostic (d : string) : Prop :=
  d = usage \/ d = too_few_rows
  \/ (exists e, d = "Failed to load model or scaler: " ++ e)
  \/ (exists e, d = "Failed to read/process input: " ++ e)
  \/ (exists e, d = "Prediction failed: " ++ e)
  \/ (exists e, d = "Time parsing failed: " ++ e).

Section MainFacts.

Variable load_model : string -> exn + model.
Variable joblib_load : string -> exn + scaler.
Variable read_csv : string -> exn + DataFrame.
Variable int_of_text : string -> exn + Z.
Variable float_of_text : string -> exn + float.

Let quiet {A} (m : M A) : Prop := PyFacts.fails_quietly diagnostic m.
Let main' : list string -> M unit :=
  main load_model joblib_load read_csv int_of_text float_of_text.

Ltac quiet_steps :=
  repeat first
    [ apply PyFacts.quiet_ret | apply PyFacts.quiet_raise
    | apply PyFacts.quiet_call | apply PyFacts.quiet_index
    | apply PyFacts.quiet_bind; [|intros ?] ].

Lemma quiet_check_args (argv : list string) : quiet (check_args argv).
Proof.
  unfold check_args. destruct (negb _); [|apply PyFacts.quiet_ret].
  apply PyFacts.quiet_diagnose. now left.
Qed.

Lemma quiet_load_artifacts : quiet (load_artifacts load_model joblib_load).
Proof.
  unfold load_artifacts. apply PyFacts.quiet_try.
  - quiet_steps.
  - intros e. apply PyFacts.quiet_diagnose. right; right; left. eauto.
Qed.

Lemma quiet_parse_input (csv_path : string) :
  quiet (parse_input read_csv csv_path).
Proof.
  unfold parse_input. apply PyFacts.quiet_try.
  - apply PyFacts.quiet_bind; [quiet_steps|intros df0].
    apply PyFacts.quiet_bind; [|intros _; quiet_steps].
    destruct (Nat.ltb _ _); [|apply PyFacts.quiet_ret].
    apply PyFacts.quiet_diagnose. right; now left.
  - intros e. apply PyFacts.quiet_diagnose. do 3 right; left. eauto.
Qed.

Lemma quiet_predict (m : model) (s : scaler) (last24 : DataFrame) :
  quiet (predict m s last24).
Proof.
  unfold predict. apply PyFacts.quiet_try.
  - apply PyFacts.quiet_bind; [quiet_steps|intros a].
    apply PyFacts.quiet_bind; [|intros x; quiet_steps].
    unfold reshape. destruct (Nat.eqb _ _); quiet_steps.
  - intros e. apply PyFacts.quiet_diagnose. do 4 right; left. eauto.
Qed.

Lemma quiet_time_step (df : DataFrame) : quiet (time_step int_of_text df).
Proof.
  unfold time_step, next_time_of. apply PyFacts.quiet_try.
  - apply PyFacts.quiet_bind; [quiet_steps|intros row].
    apply PyFacts.quiet_bind; [quiet_steps|intros [[[[yy mo] dd] hh] mi]].
    quiet_steps.
  - intros e. apply PyFacts.quiet_diagnose. do 5 right. eauto.
Qed.

Lemma quiet_station_str (row : Series) : quiet (station_str float_of_text row).
Proof. unfold station_str. quiet_steps. Qed.

(** Everything after the rebinding of [sys.stderr] (lines 18-131). *)
Lemma main_ends_well (argv : list string) :
  match main' argv io0 with
  | (Ret _, s') =>
      exists l, s' = mk_io [header; l] [] [] true
  | (Raise _, s') => s' = mk_io [] [] [] true
  | (Exit c, s') =>
      c = 1%Z /\ exists d, diagnostic d /\ s' = mk_io [] [] [d] true
  end.
Proof.
  unfold main', main.
  match goal with
  | |- context [bind stderr_to_devnull ?k] => set (body := k tt)
  end.
  assert (E : PyFacts.ends_well diagnostic (fun l1 _ => l1 = header) body).
  { subst body.
    apply PyFacts.ends_bind; [apply quiet_check_args|intros _].
    apply PyFacts.ends_bind; [apply quiet_load_artifacts|intros [m sc]].
    apply PyFacts.ends_bind; [apply quiet_parse_input|intros [df last24]].
    apply PyFacts.ends_bind; [apply quiet_predict|intros [[wvht wspd] dpd]].
    apply PyFacts.ends_bind; [apply quiet_time_step|intros [row next_time]].
    apply PyFacts.ends_bind; [apply quiet_station_str|intros station].
    now apply PyFacts.ends_print2. }
  specialize (E (mk_io [] [] [] true) eq_refl).
  change (bind stderr_to_devnull _ io0) with (body (mk_io [] [] [] true)).
  destruct (body (mk_io [] [] [] true)) as [[a|e|c] s']; trivial.
  destruct E as (l1 & l2 & -> & ->). now exists l2.
Qed.

(** The state in which every step of [main] starts and ends, as long as
    the script has neither failed nor printed. *)
Definition quiet_io : io := mk_io [] [] [] true.

Lemma quiet_Ret {A} (m : M A) (a : A) (s' : io) :
  quiet m -> m quiet_io = (Ret a, s') -> s' = quiet_io.
Proof.
  intros Hq E. specialize (Hq quiet_io eq_refl). now rewrite E in Hq.
Qed.

(** A successful run went through every step, and printed the header and
    the data line. *)
Lemma main_Ret_inv (argv : list string) (s' : io) :
  main' argv io0 = (Ret tt, s') ->
  exists m sc df last24 wvht wspd dpd row next_time station,
    check_args argv quiet_io = (Ret tt, quiet_io)
    /\ load_artifacts load_model joblib_load quiet_io = (Ret (m, sc), quiet_io)
    /\ parse_input read_csv (nth 1 argv "") quiet_io
       = (Ret (df, last24), quiet_io)
    /\ predict m sc last24 quiet_io = (Ret (wvht, wspd, dpd), quiet_io)
    /\ time_step int_of_text df quiet_io = (Ret (row, next_time), quiet_io)
    /\ station_str float_of_text row quiet_io = (Ret station, quiet_io)
    /\ s' = mk_io [header; data_line next_time wvht wspd dpd station]
                  [] [] true.
Proof.
  unfold main', main. intros H.
  apply PyFacts.bind_Ret in H. destruct H as ([] & s0 & E0 & H).
  injection E0 as <-. fold quiet_io in H.
  apply PyFacts.bind_Ret in H. destruct H as ([] & s1 & E1 & H).
  pose proof (quiet_Ret _ _ _ (quiet_check_args argv) E1) as ->.
  apply PyFacts.bind_Ret in H. destruct H as ([m sc] & s2 & E2 & H).
  pose proof (quiet_Ret _ _ _ quiet_load_artifacts E2) as ->.
  apply PyFacts.bind_Ret in H. destruct H as ([df last24] & s3 & E3 & H).
  pose proof (quiet_Ret _ _ _ (quiet_parse_input _) E3) as ->.
  apply PyFacts.bind_Ret in H. destruct H as ([[wvht wspd] dpd] & s4 & E4 & H).
  pose proof (quiet_Ret _ _ _ (quiet_predict _ _ _) E4) as ->.
  apply PyFacts.bind_Ret in H. destruct H as ([row next_time] & s5 & E5 & H).
  pose proof (quiet_Ret _ _ _ (quiet_time_step _) E5) as ->.
  apply PyFacts.bind_Ret in H. destruct H as (station & s6 & E6 & H).
  pose proof (quiet_Ret _ _ _ (quiet_station_str _) E6) as ->.
  exists m, sc, df, last24, wvht, wspd, dpd, row, next_time, station.
  repeat split; trivial.
  unfold bind, print in H. cbn in H. now injection H as <-.
Qed.

(** What the parent process sees of any run: nothing ever reaches the
    standard-error channel; either the run succeeds with the header and one
    data line on standard output, or it ends with status 1, nothing on
    standard output, and one line (a diagnostic or a traceback) lost in the
    null device. *)
Lemma main_outcome (argv : list string) :
  let o := run (main' argv) in
  stderr o = []
  /\ ((status o = 0%Z /\ devnull o = [] /\ exists l, stdout o = [header; l])
      \/ (status o = 1%Z /\ stdout o = []
          /\ exists d, devnull o = [d]
                       /\ (diagnostic d \/ exists e, d = traceback e))).
Proof.
  pose proof (main_ends_well argv) as H. unfold run.
  destruct (main' argv io0) as [[[]|e|c] s'].
  - destruct H as (l & ->). cbn. split; [reflexivity|]. left. eauto.
  - subst s'. cbn. split; [reflexivity|]. right. eauto 7.
  - destruct H as (-> & d & Hd & ->). cbn. split; [reflexivity|]. right.
    eauto 7.
Qed.

(** A run in which some step does not return ends with status 1 and an
    empty standard output. *)
Lemma main_fails (argv : list string) :
  (forall s', main' argv io0 <> (Ret tt, s')) ->
  status (run (main' argv)) = 1%Z /\ stdout (run (main' argv)) = [].
Proof.
  intros N. pose proof (main_ends_well argv) as H. unfold run.
  destruct (main' argv io0) as [[[]|e|c] s'].
  - now destruct (N s').
  - subst s'. now cbn.
  - destruct H as (-> & d & Hd & ->). now cbn.
Qed.

Lemma check_args_wrong_count (argv : list string) :
  List.length argv <> 2%nat ->
  check_args argv quiet_io = (Exit 1, mk_io [] [] [usage] true).
Proof.
  intros H. unfold check_args.
  apply Nat.eqb_neq in H. rewrite H. reflexivity.
Qed.

Lemma main_wrong_count (argv : list string) :
  List.length argv <> 2%nat ->
  run (main' argv) = mk_outcome [] [] [usage] 1.
Proof.
  intros H. unfold run, main', main.
  rewrite (PyFacts.bind_Ret_eq _ _ io0 quiet_io tt) by reflexivity.
  now rewrite (PyFacts.bind_Exit_eq _ _ _ _ _ (check_args_wrong_count argv H)).
Qed.

(** *** The window (lines 37-45) *)

Lemma parse_input_too_few (csv_path : string) (df0 : DataFrame) :
  read_csv csv_path = inr df0 ->
  (len (dropna df0) < 24)%nat ->
  parse_input read_csv csv_path quiet_io
  = (Exit 1, mk_io [] [] [too_few_rows] true).
Proof.
  intros E H. unfold parse_input, try_except, bind. rewrite E.
  apply Nat.ltb_lt in H. cbn [call ret]. rewrite H. reflexivity.
Qed.

Lemma parse_input_missing_column (csv_path : string) (df0 : DataFrame)
    (e : exn) :
  read_csv csv_path = inr df0 ->
  (24 <= len (dropna df0))%nat ->
  get_locs (columns df0) features = inl e ->
  parse_input read_csv csv_path quiet_io
  = (Exit 1, mk_io [] [] ["Failed to read/process input: " ++ e] true).
Proof.
  intros E H G. unfold parse_input, try_except, bind. rewrite E.
  apply Nat.ltb_ge in H. cbn [call ret]. rewrite H.
  unfold getitem. cbn [dropna columns]. rewrite G. reflexivity.
Qed.

Lemma parse_input_window (csv_path : string) (df0 : DataFrame)
    (locs : list nat) :
  read_csv csv_path = inr df0 ->
  (24 <= len (dropna df0))%nat ->
  get_locs (columns df0) features = inr locs ->
  parse_input read_csv csv_path quiet_io
  = (Ret (dropna df0,
          mk_df features
            (map (fun r => take r locs) (tail 24 (rows (dropna df0))))),
     quiet_io).
Proof.
  intros E H G. unfold parse_input, try_except, bind. rewrite E.
  apply Nat.ltb_ge in H. cbn [call ret]. rewrite H.
  unfold getitem. cbn [dropna columns]. rewrite G. cbn [call ret].
  unfold iloc_tail. cbn [columns rows]. now rewrite tail_map.
Qed.

(** *** The forecast time (lines 63-70) *)

Lemma time_step_ok (df : DataFrame) (row : Series) (yy mo dd hh mi : Z) :
  iloc_last df = inr row ->
  time_fields int_of_text row = inr (yy, mo, dd, hh, mi) ->
  Datetime.valid (Datetime.mk_datetime yy mo dd hh mi) = true ->
  Datetime.at_end_of_time (Datetime.mk_datetime yy mo dd hh mi) = false ->
  time_step int_of_text df quiet_io
  = (Ret (row, Datetime.half_hour_later (Datetime.mk_datetime yy mo dd hh mi)),
     quiet_io).
Proof.
  intros E1 E2 V N. unfold time_step, next_time_of, try_except, bind.
  rewrite E1. cbn [call ret]. rewrite E2. cbn [call ret].
  rewrite (Datetime.new_valid yy mo dd hh mi V). cbn [call ret].
  rewrite (Datetime.add_minutes_30 _ V N). reflexivity.
Qed.

Lemma time_step_invalid (df : DataFrame) (row : Series) (yy mo dd hh mi : Z) :
  iloc_last df = inr row ->
  time_fields int_of_text row = inr (yy, mo, dd, hh, mi) ->
  Datetime.valid (Datetime.mk_datetime yy mo dd hh mi) = false ->
  exists e,
    time_step int_of_text df quiet_io
    = (Exit 1, mk_io [] [] ["Time parsing failed: " ++ e] true).
Proof.
  intros E1 E2 V. unfold time_step, next_time_of, try_except, bind.
  rewrite E1. cbn [call ret]. rewrite E2. cbn [call ret].
  destruct (Datetime.new_invalid yy mo dd hh mi V) as [e ->]. now exists e.
Qed.

Lemma time_step_overflow (df : DataFrame) (row : Series) (yy mo dd hh mi : Z) :
  iloc_last df = inr row ->
  time_fields int_of_text row = inr (yy, mo, dd, hh, mi) ->
  Datetime.valid (Datetime.mk_datetime yy mo dd hh mi) = true ->
  Datetime.at_end_of_time (Datetime.mk_datetime yy mo dd hh mi) = true ->
  time_step int_of_text df quiet_io
  = (Exit 1,
     mk_io [] [] ["Time parsing failed: date value out of range"] true).
Proof.
  intros E1 E2 V N. unfold time_step, next_time_of, try_except, bind.
  rewrite E1. cbn [call ret]. rewrite E2. cbn [call ret].
  rewrite (Datetime.new_valid yy mo dd hh mi V). cbn [call ret].
  rewrite (Datetime.add_minutes_30_overflow _ V N). reflexivity.
Qed.

(** A run whose time step exits is a failed run. *)
Lemma main_time_step_fatal (argv : list string) (df last24 : DataFrame)
    (s : io) :
  parse_input read_csv (nth 1 argv "") quiet_io = (Ret (df, last24), quiet_io) ->
  time_step int_of_text df quiet_io = (Exit 1, s) ->
  status (run (main' argv)) = 1%Z /\ stdout (run (main' argv)) = [].
Proof.
  intros P T. apply main_fails. intros s' R.
  apply main_Ret_inv in R.
  destruct R as (m & sc & df' & l' & w1 & w2 & w3 & row & nt & st & R).
  destruct R as (_ & _ & P' & _ & T' & _).
  rewrite P in P'. injection P' as <- <-. rewrite T in T'. discriminate.
Qed.

End MainFacts.

(** *** Permuting the columns of the input *)

Section ColumnOrder.

Variable load_model : string -> exn + model.
Variable joblib_load : string -> exn + scaler.
Variable read_csv read_csv' : string -> exn + DataFrame.
Variable int_of_text : string -> exn + Z.
Variable float_of_text : string -> exn + float.
Variable pi : list nat.

(** Two readers: at the path that matters the second returns the frame of
    the first with its columns in the order [pi]. *)

Lemma time_fields_equiv (a b : Series) :
  series_equiv a b -> time_fields int_of_text a = time_fields int_of_text b.
Proof. intros H. unfold time_fields, int_field. now rewrite !H. Qed.

Lemma station_str_equiv (a b : Series) (s : io) :
  series_equiv a b ->
  station_str float_of_text a s = station_str float_of_text b s.
Proof. intros H. unfold station_str. now rewrite H. Qed.

Lemma parse_input_permute (path : string) (df0 : DataFrame) (s : io) :
  read_csv path = inr df0 ->
  read_csv' path = inr (permute_columns pi df0) ->
  well_formed df0 ->
  Permutation pi (seq 0 (List.length (columns df0))) ->
  PyFacts.sim
    (fun a b =>
       snd a = snd b /\ fst b = permute_columns pi (fst a)
       /\ well_formed (fst a)
       /\ Permutation pi (seq 0 (List.length (columns (fst a)))))
    (parse_input read_csv path s) (parse_input read_csv' path s).
Proof.
  intros E E' WF PI. unfold parse_input, try_except, bind.
  rewrite E, E'. cbn [call ret].
  rewrite (dropna_permute pi df0 WF PI).
  assert (L : len (permute_columns pi (dropna df0)) = len (dropna df0))
    by (unfold len, permute_columns; cbn [rows]; apply length_map).
  rewrite L. destruct (Nat.ltb (len (dropna df0)) 24); [now cbn|].
  cbn [ret].
  rewrite (getitem_permute pi (dropna df0) (well_formed_dropna df0 WF) PI).
  destruct (getitem (dropna df0) features) as [e|sel]; [now cbn|].
  cbn. split; [|reflexivity]. split; [reflexivity|]. split; [reflexivity|].
  split; [now apply well_formed_dropna | exact PI].
Qed.

Lemma time_step_permute (df : DataFrame) (s : io) :
  well_formed df -> Permutation pi (seq 0 (List.length (columns df))) ->
  PyFacts.sim (fun a b => series_equiv (fst a) (fst b) /\ snd a = snd b)
    (time_step int_of_text df s)
    (time_step int_of_text (permute_columns pi df) s).
Proof.
  intros WF PI. unfold time_step, next_time_of, try_except, bind.
  pose proof (iloc_last_permute pi df WF PI) as H.
  destruct (iloc_last df) as [e|a], (iloc_last (permute_columns pi df)) as [e'|b];
    try contradiction; [subst; now cbn|].
  cbn [call ret]. rewrite <- (time_fields_equiv a b H).
  destruct (time_fields int_of_text a) as [e|[[[[yy mo] dd] hh] mi]];
    [now cbn|].
  cbn [call ret].
  destruct (Datetime.new yy mo dd hh mi) as [e|t]; [now cbn|].
  cbn [call ret].
  destruct (Datetime.add_minutes t 30) as [e|t']; now cbn.
Qed.

(** The whole run is the same for a file and for the file with its
    columns permuted. *)
Lemma main_permute (argv : list string) (df0 : DataFrame) :
  read_csv (nth 1 argv "") = inr df0 ->
  read_csv' (nth 1 argv "") = inr (permute_columns pi df0) ->
  well_formed df0 ->
  Permutation pi (seq 0 (List.length (columns df0))) ->
  main load_model joblib_load read_csv int_of_text float_of_text argv io0
  = main load_model joblib_load read_csv' int_of_text float_of_text argv io0.
Proof.
  intros E E' WF0 PI0. unfold main.
  apply PyFacts.bind_ext. intros _ s0.
  apply PyFacts.bind_ext. intros _ s1.
  apply PyFacts.bind_ext. intros [m sc] s2.
  eapply PyFacts.bind_sim;
    [apply (parse_input_permute _ df0); assumption|].
  intros [df w] [df' w'] s3 (Hw & Hd & WF & PI). cbn [fst snd] in *. subst.
  apply PyFacts.bind_ext. intros [[wvht wspd] dpd] s4.
  eapply PyFacts.bind_sim; [apply time_step_permute; assumption|].
  intros [row t] [row' t'] s5 [Hr Ht]. cbn [fst snd] in *. subst.
  unfold bind at 1 3. now rewrite (station_str_equiv row row' s5 Hr).
Qed.

End ColumnOrder.

(** *** A small world to run the script in

    A network that always predicts the same three normalised values, a
    scaler that multiplies by 20, and a frame of buoy readings taken every
    half hour on 2024-01-01. *)

Definition demo_model : model := fun _ => inr [0.125; 0.5; 0.25]%float.

Definition cell_value (c : cell) : float :=
  match c with
  | Num x => x
  | Text _ => nan
  end.

Definition demo_scaler : scaler :=
  mk_scaler (fun w => inr (map (map (fun c => (cell_value c / 20)%float)) w))
            (fun v => inr (map (fun x => (x * 20)%float) v)).

(** One reading: the time of day and the station, the other fields fixed. *)
Definition demo_row (hh mi : float) : list cell :=
  map Num [2024; 1; 1; hh; mi; 180; 7.5; 9; 1.5; 8; 6; 170; 1013; 15; 14;
           10; 9; 0.5; 12]%float.

Definition demo_rows : list (list cell) :=
  flat_map (fun hh => [demo_row hh 0; demo_row hh 30])
    [0; 1; 2; 3; 4; 5; 6; 7; 8; 9; 10; 11]%float.

Definition demo_df : DataFrame := mk_df features demo_rows.

Definition no_text {A} : string -> exn + A := fun _ => inl "invalid literal".

Definition demo_main (read_csv : string -> exn + DataFrame)
    (argv : list string) : M unit :=
  main (fun _ => inr demo_model) (fun _ => inr demo_scaler) read_csv
       no_text no_text argv.

Example demo_run :
  run (demo_main (fun _ => inr demo_df) ["predict.py"; "data.csv"]) =
  mk_outcome
    [header;
     "2024-01-01 12:00,2.500,8.20,Unknown,10.000,19.44,Wind normal (<22 kt),5.000,✅ SAFE,12"]
    [] [] 0.
Proof. vm_compute. reflexivity. Qed.

(** *** The window and the forecast time: the claims *)

(** C8: when fewer than 24 rows remain after dropping every row with a
    missing value, the run ends with status 1 and prints nothing on
    standard output; when at least 24 remain, the remaining rows split into
    a front part and their last 24, in file order, the window is those 24
    rows restricted to the feature columns, and a run that succeeds has fed
    that window to the scaler and the network (the step is fatal instead
    when a feature column is absent from the file). *)
Theorem window_is_last_24_rows
    (load_model : string -> exn + model)
    (joblib_load : string -> exn + scaler)
    (read_csv : string -> exn + DataFrame)
    (int_of_text : string -> exn + Z)
    (float_of_text : string -> exn + float)
    (argv : list string) (df0 : DataFrame) :
  read_csv (nth 1 argv "") = inr df0 ->
  let complete := filter (fun r => negb (existsb isna r)) (rows df0) in
  let o := run (main load_model joblib_load read_csv int_of_text
                     float_of_text argv) in
  ((List.length complete < 24)%nat -> status o = 1%Z /\ stdout o = [])
  /\ ((24 <= List.length complete)%nat ->
      exists front last24,
        complete = (front ++ last24)%list /\ List.length last24 = 24%nat
        /\ match get_locs (columns df0) features with
           | inr locs =>
               let window :=
                 mk_df features (map (fun r => take r locs) last24) in
               parse_input read_csv (nth 1 argv "") quiet_io
               = (Ret (dropna df0, window), quiet_io)
               /\ (forall s',
                     main load_model joblib_load read_csv int_of_text
                          float_of_text argv io0 = (Ret tt, s') ->
                     exists m sc p,
                       predict m sc window quiet_io = (Ret p, quiet_io))
           | inl e =>
               parse_input read_csv (nth 1 argv "") quiet_io
               = (Exit 1,
                  mk_io [] [] ["Failed to read/process input: " ++ e] true)
           end).
Proof.
  intros E complete o. split.
  - intros H. apply main_fails. intros s' R.
    apply main_Ret_inv in R.
    destruct R as (m & sc & df & l & w1 & w2 & w3 & row & nt & st & R).
    destruct R as (_ & _ & P & _).
    rewrite (parse_input_too_few read_csv _ df0 E H) in P. discriminate.
  - intros H.
    destruct (tail_suffix 24 complete H) as (front & Hf & Hl).
    exists front, (tail 24 complete). repeat split; trivial.
    destruct (get_locs (columns df0) features) as [e|locs] eqn:G.
    + now apply (parse_input_missing_column read_csv _ df0).
    + pose proof (parse_input_window read_csv _ df0 locs E H G) as W.
      split; [exact W|]. intros s' R.
      apply main_Ret_inv in R.
      destruct R as (m & sc & df & l & w1 & w2 & w3 & row & nt & st & R).
      destruct R as (_ & _ & P & Q & _).
      rewrite W in P. injection P as <- <-.
      now exists m, sc, (w1, w2, w3).
Qed.

Lemma window_is_last_24_rows_witness :
  let o := run (demo_main (fun _ => inr (mk_df features (firstn 23 demo_rows)))
                          ["predict.py"; "data.csv"]) in
  status o = 1%Z /\ stdout o = [].
Proof.
  apply (window_is_last_24_rows
           (fun _ => inr demo_model) (fun _ => inr demo_scaler)
           (fun _ => inr (mk_df features (firstn 23 demo_rows)))
           no_text no_text ["predict.py"; "data.csv"]
           (mk_df features (firstn 23 demo_rows)) eq_refl).
  vm_compute. lia.
Defined.

Example window_of_demo :
  parse_input (fun _ => inr demo_df) "data.csv" quiet_io
  = (Ret (demo_df, demo_df), quiet_io).
Proof. vm_compute. reflexivity. Qed.

(** C9, as stated, fails at the end of the calendar: the fields
    9999-12-31 23:30 form a valid date and time, yet adding 30 minutes
    leaves the range of [datetime], the [try] of lines 63-70 catches the
    error, and the run is fatal. *)
Lemma forecast_after_year_9999_is_fatal :
  let last_row := map Num [9999; 12; 31; 23; 30; 180; 7.5; 9; 1.5; 8; 6; 170;
                           1013; 15; 14; 10; 9; 0.5; 12]%float in
  let df := mk_df features (demo_rows ++ [last_row]) in
  Datetime.valid (Datetime.mk_datetime 9999 12 31 23 30) = true
  /\ time_fields no_text (combine features last_row)
     = inr (9999, 12, 31, 23, 30)%Z
  /\ run (demo_main (fun _ => inr df) ["predict.py"; "data.csv"])
     = mk_outcome [] [] ["Time parsing failed: date value out of range"] 1.
Proof. vm_compute. repeat split. Qed.

(** C9 (amended): let the last row's YY/MM/DD/hh/mm fields convert to
    integers.  If they form a valid date and time before 9999-12-31 23:30,
    the forecast timestamp is that timestamp carried forward by half an
    hour: the one valid timestamp exactly 30 minutes later.  In the last half
    hour of year 9999 the sum is out of range and the step is fatal.  If the
    fields do not form a valid date and time the step is fatal, and every
    run that reaches it ends with status 1 and an empty standard output. *)
Theorem forecast_time_is_half_hour_later
    (int_of_text : string -> exn + Z)
    (df : DataFrame) (row : Series) (yy mo dd hh mi : Z) :
  iloc_last df = inr row ->
  time_fields int_of_text row = inr (yy, mo, dd, hh, mi) ->
  let last_time := Datetime.mk_datetime yy mo dd hh mi in
  let next_time := Datetime.half_hour_later last_time in
  (Datetime.valid last_time = true ->
   Datetime.at_end_of_time last_time = false ->
     time_step int_of_text df quiet_io = (Ret (row, next_time), quiet_io)
     /\ Datetime.valid next_time = true
     /\ Datetime.minutes_of next_time = (Datetime.minutes_of last_time + 30)%Z
     /\ (forall t, Datetime.valid t = true ->
           Datetime.minutes_of t = (Datetime.minutes_of last_time + 30)%Z ->
           t = next_time))
  /\ (Datetime.valid last_time = true ->
      Datetime.at_end_of_time last_time = true ->
        time_step int_of_text df quiet_io
        = (Exit 1,
           mk_io [] [] ["Time parsing failed: date value out of range"] true))
  /\ (Datetime.valid last_time = false ->
      (exists e,
         time_step int_of_text df quiet_io
         = (Exit 1, mk_io [] [] ["Time parsing failed: " ++ e] true))
      /\ forall load_model joblib_load read_csv float_of_text argv last24,
          parse_input read_csv (nth 1 argv "") quiet_io
          = (Ret (df, last24), quiet_io) ->
          let o := run (main load_model joblib_load read_csv int_of_text
                             float_of_text argv) in
          status o = 1%Z /\ stdout o = []).
Proof.
  intros E1 E2 last_time next_time. split; [|split].
  - intros V N.
    pose proof (Datetime.half_hour_later_valid _ V N) as V'.
    pose proof (Datetime.half_hour_later_minutes _ V) as M'.
    split; [|split; [|split]]; trivial.
    + now apply (time_step_ok int_of_text df row yy mo dd hh mi).
    + intros t Vt Mt. apply Datetime.minutes_of_inj; trivial.
      unfold next_time. now rewrite M'.
  - intros V N. now apply (time_step_overflow int_of_text df row yy mo dd hh mi).
  - intros V.
    destruct (time_step_invalid int_of_text df row yy mo dd hh mi E1 E2 V)
      as [e He].
    split; [now exists e|].
    intros load_model joblib_load read_csv float_of_text argv last24 P o.
    eapply main_time_step_fatal; eassumption.
Qed.

Lemma forecast_time_is_half_hour_later_witness :
  let df := mk_df features [demo_row 0 0] in
  time_step no_text df quiet_io
  = (Ret (combine features (demo_row 0 0),
          Datetime.mk_datetime 2024 1 1 0 30), quiet_io).
Proof.
  exact (proj1 (proj1 (forecast_time_is_half_hour_later no_text
                  (mk_df features [demo_row 0 0])
                  (combine features (demo_row 0 0)) 2024 1 1 0 0
                  eq_refl eq_refl) eq_refl eq_refl)).
Defined.

(** *** Missing values and column order *)

(** The demo readings with one more column, "note", which is not a model
    feature; its cell is missing in the last row only. *)
Definition demo_df_note : DataFrame :=
  mk_df (features ++ ["note"])%list
        (map (fun r => r ++ [Num 1]) (firstn 23 demo_rows)
         ++ [demo_row 11 30 ++ [Num nan]])%list.

Example missing_note_is_fatal :
  len demo_df_note = 24%nat
  /\ run (demo_main (fun _ => inr demo_df_note) ["predict.py"; "data.csv"])
     = mk_outcome [] [] [too_few_rows] 1.
Proof. vm_compute. split; reflexivity. Qed.

Lemma complete_row (r : list cell) :
  negb (existsb isna r) = forallb (fun c => negb (isna c)) r.
Proof.
  induction r as [|c r IH]; [reflexivity|].
  cbn. rewrite negb_orb. now rewrite IH.
Qed.

(** C10, as stated, fails for a file in which a feature name heads two
    columns.  Here a second column called "station" holds 99 where the
    first holds 12: [read_csv] labels them "station" and "station.1" from
    left to right, so the run reports station 12; with the two columns
    exchanged, which leaves the header line as it was, the run reports
    station 99. *)
Lemma repeated_column_name_depends_on_order :
  let f := mk_csv (features ++ ["station"])%list
                  (map (fun r => r ++ [Num 99])%list demo_rows) in
  let pi := (seq 0 18 ++ [19; 18])%list%nat in
  let argv := ["predict.py"; "data.csv"] in
  Permutation pi (seq 0 20)
  /\ columns (frame_of_csv f) = (features ++ ["station.1"])%list
  /\ header_names (permute_csv pi f) = header_names f
  /\ run (demo_main (fun _ => inr (frame_of_csv f)) argv)
     = mk_outcome
         [header;
          "2024-01-01 12:00,2.500,8.20,Unknown,10.000,19.44,Wind normal (<22 kt),5.000,✅ SAFE,12"]
         [] [] 0
  /\ run (demo_main (fun _ => inr (frame_of_csv (permute_csv pi f))) argv)
     = mk_outcome
         [header;
          "2024-01-01 12:00,2.500,8.20,Unknown,10.000,19.44,Wind normal (<22 kt),5.000,✅ SAFE,99"]
         [] [] 0.
Proof.
  split.
  - change (seq 0 20) with (seq 0 18 ++ [18; 19])%list%nat.
    apply Permutation_app_head, perm_swap.
  - vm_compute. repeat split; reflexivity.
Qed.

(** C10 (amended): a row with a missing value in any of its cells,
    whatever the column, is absent from the frame whose length is checked
    against 24, so a file left with fewer than 24 rows free of missing
    values is fatal; and since the feature columns and the time and
    station fields are fetched by label, a file whose header names are
    distinct and not empty (and whose records are as wide as the header)
    and the same file with its columns permuted give the same run. *)
Theorem any_missing_value_drops_row_and_column_order_is_irrelevant
    (load_model : string -> exn + model)
    (joblib_load : string -> exn + scaler)
    (read_csv read_csv' : string -> exn + DataFrame)
    (int_of_text : string -> exn + Z)
    (float_of_text : string -> exn + float)
    (argv : list string) (pi : list nat) :
  let run_on read := run (main load_model joblib_load read int_of_text
                               float_of_text argv) in
  (forall df r, In r (rows df) -> existsb isna r = true ->
                ~ In r (rows (dropna df)))
  /\ (forall df0,
        read_csv (nth 1 argv "") = inr df0 ->
        (List.length
           (filter (forallb (fun c => negb (isna c))) (rows df0)) < 24)%nat ->
        status (run_on read_csv) = 1%Z /\ stdout (run_on read_csv) = [])
  /\ (forall f,
        read_csv (nth 1 argv "") = inr (frame_of_csv f) ->
        read_csv' (nth 1 argv "") = inr (frame_of_csv (permute_csv pi f)) ->
        NoDup (header_names f) -> ~ In "" (header_names f) ->
        Forall (fun r => List.length r = List.length (header_names f))
               (records f) ->
        Permutation pi (seq 0 (List.length (header_names f))) ->
        run_on read_csv' = run_on read_csv).
Proof.
  intros run_on. split; [|split].
  - intros df r _ N H. cbn [dropna rows] in H.
    apply filter_In in H. rewrite N in H. now destruct H.
  - intros df0 E H. apply main_fails. intros s' R.
    apply main_Ret_inv in R.
    destruct R as (m & sc & df & l & w1 & w2 & w3 & row & nt & st & R).
    destruct R as (_ & _ & P & _).
    rewrite (parse_input_too_few read_csv _ df0 E) in P; [discriminate|].
    unfold len, dropna. cbn [rows].
    now rewrite (filter_ext _ _ complete_row).
  - intros f E E' D N R PI. unfold run_on, run.
    rewrite (frame_of_permuted_csv pi f D N PI) in E'.
    assert (C : columns (frame_of_csv f) = header_names f)
      by (unfold frame_of_csv; cbn [columns];
          now apply dedup_names_distinct).
    rewrite <- C in PI.
    now rewrite (main_permute load_model joblib_load read_csv read_csv'
                   int_of_text float_of_text pi argv (frame_of_csv f) E E'
                   (well_formed_frame_of_csv f D N R) PI).
Qed.

(** The demo readings as a file, with a "note" column that is filled in
    every row. *)
Definition demo_csv_extra : csv_file :=
  mk_csv (features ++ ["note"])%list
         (map (fun r => r ++ [Num 1])%list demo_rows).

Example reversed_columns_run :
  header_names (permute_csv (rev (seq 0 20)) demo_csv_extra)
  = rev (features ++ ["note"])%list
  /\ run (demo_main
            (fun _ => inr (frame_of_csv
                             (permute_csv (rev (seq 0 20)) demo_csv_extra)))
            ["predict.py"; "data.csv"])
     = run (demo_main (fun _ => inr demo_df) ["predict.py"; "data.csv"]).
Proof. vm_compute. split; reflexivity. Qed.

Lemma column_order_witness :
  let argv := ["predict.py"; "data.csv"] in
  let pi := rev (seq 0 20) in
  run (demo_main
         (fun _ => inr (frame_of_csv (permute_csv pi demo_csv_extra))) argv)
  = run (demo_main (fun _ => inr (frame_of_csv demo_csv_extra)) argv).
Proof.
  apply (proj2 (proj2
          (any_missing_value_drops_row_and_column_order_is_irrelevant
             (fun _ => inr demo_model) (fun _ => inr demo_scaler)
             (fun _ => inr (frame_of_csv demo_csv_extra))
             (fun _ => inr (frame_of_csv
                              (permute_csv (rev (seq 0 20)) demo_csv_extra)))
             no_text no_text
             ["predict.py"; "data.csv"] (rev (seq 0 20))))
          demo_csv_extra eq_refl eq_refl).
  - repeat constructor; cbn; intuition discriminate.
  - cbn. intuition discriminate.
  - repeat constructor.
  - apply Permutation_sym, Permutation_rev.
Defined.

End Marine.

(** ** The rogue-wave predictor: [rouge_wave_model/predict.py] *)

Module RogueWave.

Import Py.
Local Open Scope py_scope.

(** The arithmetic [scipy.special.softmax] is written with: numpy's
    operators, which compute in the precision of the array they are given
    (the instance the script runs is [float_arith] below). *)
Class Arith (T : Type) : Type := {
  zero : T;
  add : T -> T -> T;
  sub : T -> T -> T;
  div : T -> T -> T;
  exp : T -> T;
  maximum : T -> T -> T
}.

(** [np.amax(x)] *)
Definition amax {T} `{Arith T} (x : list T) : exn + T :=
  match x with
  | [] => inl "zero-size array to reduction operation maximum which has no identity"
  | a :: l => inr (fold_left maximum l a)
  end.

(** [softmax(x, axis=-1)] on one row:
    [exp(x - max(x)) / sum(exp(x - max(x)))]. *)
Definition softmax {T} `{Arith T} (x : list T) : exn + list T :=
  and_then (amax x) (fun x_max =>
    let exp_x_shifted := map (fun v => exp (sub v x_max)) x in
    let total := fold_left add exp_x_shifted zero in
    inr (map (fun v => div v total) exp_x_shifted)).

(** The loop of numpy's [argmax] on floats: a later element replaces the
    running maximum when it is not [<=] to it; a NaN is maximal and ends
    the search. *)
Fixpoint argmax_from (mp : float) (max_ind i : nat) (l : list float) : nat :=
  match l with
  | [] => max_ind
  | x :: l' =>
      if negb (x <=? mp)%float then
        if is_nan x then i else argmax_from x i (S i) l'
      else argmax_from mp max_ind (S i) l'
  end.

(** [np.argmax(prob, axis=-1)[0]] *)
Definition argmax (prob : list float) : nat :=
  match prob with
  | [] => 0
  | mp :: l => if is_nan mp then 0 else argmax_from mp 0 1 l
  end.

(** Line 42. *)
Definition wave_type_str (wave_type_idx : nat) : string :=
  if Nat.eqb wave_type_idx 0 then "non-rogue wave" else "rogue wave".

Definition usage : string := "Usage: python predict.py <npz_path>".
Definition header : string := "norw_prob,rw_prob,wave_type_prediction".

(** An opened [.npz] container: its arrays, by key, in file order. *)
Definition npz : Type := list (string * list float).

(** A loaded classifier: [model.predict(x, verbose=0)] on the single
    sample, giving the row of class scores, which Keras returns in single
    precision. *)
Definition model : Type := list float -> exn + list float.

Fixpoint has_key (key : string) (data : npz) : bool :=
  match data with
  | [] => false
  | (k, _) :: data' => String.eqb k key || has_key key data'
  end.

(** [data[key]] *)
Fixpoint getitem (data : npz) (key : string) : exn + list float :=
  match data with
  | [] => inl (key ++ " is not a file in the archive")
  | (k, a) :: data' => if String.eqb k key then inr a else getitem data' key
  end.

(** Lines 20-25. *)
Definition select_trace (data : npz) : exn + list float :=
  if has_key "zdisp" data then getitem data "zdisp"
  else if has_key "zdisp_norw" data then getitem data "zdisp_norw"
  else
    match map fst data with
    | key :: _ => getitem data key
    | [] => inl "list index out of range"
    end.

Section Main.

(** The collaborators outside the script. *)
Variable np_load : string -> exn + npz.        (* np.load *)
Variable np_std : list float -> float.         (* np.std *)
Variable load_model : string -> exn + model.   (* keras.models.load_model *)
Variable np_exp : float -> float.              (* np.exp *)

(** [np.maximum]: the larger number, a NaN if there is one. *)
Definition np_maximum (a b : float) : float :=
  if is_nan a then a else if is_nan b then b
  else if (a <? b)%float then b else a.

(** The scores are single-precision numbers (Keras predicts in float32),
    so every operation of [softmax] rounds to binary32, [np.exp]
    included. *)
#[local] Instance float_arith : Arith float := {
  zero := 0%float;
  add := F32.add;
  sub := F32.sub;
  div := F32.div;
  exp := fun x => F32.round (np_exp x);
  maximum := np_maximum
}.

(** Lines 28-29. *)
Definition normalize (zdisp : list float) : list float :=
  let significant_wave_height := (4 * np_std zdisp)%float in
  map (fun x => (x / significant_wave_height)%float) zdisp.

(** Line 30: [reshape(1, 1536, 1)]. *)
Definition reshape (a : list float) : M (list float) :=
  if Nat.eqb (List.length a) 1536 then ret a
  else raise "cannot reshape array into shape (1,1536,1)".

(** Lines 30-45: what happens to the normalised trace. *)
Definition classify (zdisp_norm : list float) : M unit :=
  zdisp_norm <- reshape zdisp_norm ;;
  model <- call (load_model
    "/root/app/rouge_wave_model/RWs_H_g_2p2_tadv_1min/best_LSTM_RWs_H_g_2p2_tadv_1min.h5") ;;
  pred <- call (model zdisp_norm) ;;
  prob <- call (softmax pred) ;;
  norw_prob <- index prob 0 ;;
  rw_prob <- index prob 1 ;;
  let wave_type_idx := argmax prob in
  print header ;;
  print (PyNum.format_f 6 norw_prob ++ "," ++ PyNum.format_f 6 rw_prob ++ ","
         ++ wave_type_str wave_type_idx).

Definition main (argv : list string) : M unit :=
  (if Nat.ltb (List.length argv) 2 then
     print usage ;; sys_exit 1
   else ret tt) ;;
  let npz_path := nth 1 argv "" in
  data <- call (np_load npz_path) ;;
  zdisp <- call (select_trace data) ;;
  classify (normalize zdisp).

End Main.

(** *** A small world to run the script in *)

Definition float_of_nat (n : nat) : float :=
  PrimFloat.of_uint63 (Uint63Axioms.of_Z (Z.of_nat n)).

Definition total (l : list float) : float :=
  fold_left PrimFloat.add l 0%float.

(** The population standard deviation, summing from left to right. *)
Definition demo_std (l : list float) : float :=
  let n := float_of_nat (List.length l) in
  let mean := (total l / n)%float in
  PrimFloat.sqrt
    (total (map (fun x => ((x - mean) * (x - mean))%float) l) / n)%float.

(** A stand-in for the exponential: the Taylor polynomial of degree 12 at
    0, a NaN at a NaN. *)
Definition demo_exp (x : float) : float :=
  fold_right (fun k acc => (1 + x * acc / float_of_nat k)%float) 1%float
    (seq 1 12).

(** A classifier whose two scores are the first two samples it is fed. *)
Definition demo_model : model :=
  fun x => inr [nth 0 x 0%float; nth 1 x 0%float].

(** A flat sea and a regular swell, 1536 samples each. *)
Definition flat_trace : list float := repeat 0%float 1536.
Definition swell_trace : list float :=
  flat_map (fun _ => [1; -1]%float) (seq 0 768).

Definition demo_main (data : npz) (argv : list string) : M unit :=
  main (fun _ => inr data) demo_std (fun _ => inr demo_model) demo_exp argv.

Example swell_run :
  run (demo_main [("zdisp", swell_trace)] ["predict.py"; "swell.npz"])
  = mk_outcome [header; "0.622459,0.377541,non-rogue wave"] [] [] 0.
Proof. vm_compute. reflexivity. Qed.

(** *** How a run of the rogue-wave predictor can end *)

Section MainFacts.

Variable np_load : string -> exn + npz.
Variable np_std : list float -> float.
Variable load_model : string -> exn + model.
Variable np_exp : float -> float.

Let main' : list string -> M unit := main np_load np_std load_model np_exp.
Let classify' : list float -> M unit := classify load_model np_exp.

Lemma classify_prints_two (z : list float) :
  PyFacts.prints_two (fun l1 _ => l1 = header) (classify' z).
Proof.
  unfold classify', classify.
  apply PyFacts.prints_two_bind.
  { unfold reshape. destruct (Nat.eqb _ _);
      [apply PyFacts.no_io_ret | apply PyFacts.no_io_raise]. }
  intros z'.
  apply PyFacts.prints_two_bind; [apply PyFacts.no_io_call|intros m].
  apply PyFacts.prints_two_bind; [apply PyFacts.no_io_call|intros pred].
  apply PyFacts.prints_two_bind; [apply PyFacts.no_io_call|intros prob].
  apply PyFacts.prints_two_bind; [apply PyFacts.no_io_index|intros p0].
  apply PyFacts.prints_two_bind; [apply PyFacts.no_io_index|intros p1].
  now apply PyFacts.prints_two_print.
Qed.

Lemma main_missing_argument (argv : list string) :
  (List.length argv < 2)%nat ->
  run (main' argv) = mk_outcome [usage] [] [] 1.
Proof.
  intros H. apply Nat.ltb_lt in H. unfold run, main', main, bind.
  rewrite H. reflexivity.
Qed.

(** With its argument present, the script goes on to load the file named
    by the first argument; nothing else of [argv] is read. *)
Lemma main_with_argument (argv : list string) :
  (2 <= List.length argv)%nat ->
  main' argv io0
  = (data <- call (np_load (nth 1 argv "")) ;;
     zdisp <- call (select_trace data) ;;
     classify' (normalize np_std zdisp)) io0.
Proof.
  intros H. apply Nat.ltb_ge in H. unfold main', main.
  unfold bind at 1. now rewrite H.
Qed.

Lemma main_extra_arguments (argv : list string) :
  (2 <= List.length argv)%nat ->
  run (main' argv) = run (main' [nth 0 argv ""; nth 1 argv ""]).
Proof.
  intros H. unfold run.
  rewrite (main_with_argument argv H).
  now rewrite (main_with_argument [nth 0 argv ""; nth 1 argv ""]) by (cbn; lia).
Qed.

(** What the parent process sees of any run. *)
Lemma rogue_main_outcome (argv : list string) :
  let o := run (main' argv) in
  devnull o = []
  /\ ((status o = 0%Z /\ stderr o = [] /\ exists l, stdout o = [header; l])
      \/ (status o = 1%Z /\ (List.length argv < 2)%nat
          /\ stdout o = [usage] /\ stderr o = [])
      \/ (status o = 1%Z /\ (2 <= List.length argv)%nat
          /\ stdout o = [] /\ exists e, stderr o = [traceback e])).
Proof.
  destruct (Nat.ltb_spec (List.length argv) 2) as [H|H].
  - cbv zeta. rewrite (main_missing_argument argv H). cbn.
    split; [reflexivity|]. right. left. auto.
  - cbv zeta. unfold run. rewrite (main_with_argument argv H).
    set (rest := bind _ _).
    assert (P : PyFacts.prints_two (fun l1 _ => l1 = header) rest).
    { subst rest.
      apply PyFacts.prints_two_bind; [apply PyFacts.no_io_call|intros data].
      apply PyFacts.prints_two_bind; [apply PyFacts.no_io_call|intros zdisp].
      apply classify_prints_two. }
    specialize (P io0).
    destruct (rest io0) as [[[]|e|c] s']; [| |contradiction].
    + destruct P as (l1 & l2 & -> & ->). cbn.
      split; [reflexivity|]. left. eauto.
    + subst s'. cbn. split; [reflexivity|]. right. right. eauto.
Qed.

(** The normalisation is unguarded: whatever the scale, the script moves
    on to the classifier with the quotients. *)
Lemma main_after_normalize (argv : list string) (data : npz)
    (zdisp : list float) :
  (2 <= List.length argv)%nat ->
  np_load (nth 1 argv "") = inr data ->
  select_trace data = inr zdisp ->
  run (main' argv) = run (classify' (normalize np_std zdisp)).
Proof.
  intros H D Z. unfold run. rewrite (main_with_argument argv H).
  unfold bind at 1. rewrite D. cbn [call ret].
  unfold bind at 1. rewrite Z. reflexivity.
Qed.

Lemma normalize_zero_scale (zdisp : list float) :
  (4 * np_std zdisp =? 0)%float = true ->
  Forall (fun v => is_finite v = false) (normalize np_std zdisp).
Proof.
  intros H. unfold normalize. apply Forall_forall. intros v Hv.
  apply in_map_iff in Hv. destruct Hv as (x & <- & _).
  now apply F64.div_by_zero_not_finite.
Qed.

Lemma softmax_pair (a b : float) :
  exists p0 p1, softmax (H := float_arith np_exp) [a; b] = inr [p0; p1].
Proof. unfold softmax, amax. cbn. eauto. Qed.

Lemma classify_two_scores (z : list float) (m : model) (a b : float) :
  List.length z = 1536%nat ->
  load_model
    "/root/app/rouge_wave_model/RWs_H_g_2p2_tadv_1min/best_LSTM_RWs_H_g_2p2_tadv_1min.h5"
  = inr m ->
  m z = inr [a; b] ->
  exists l, run (classify' z) = mk_outcome [header; l] [] [] 0.
Proof.
  intros L M P. unfold run, classify', classify, reshape, bind.
  apply Nat.eqb_eq in L. rewrite L. cbn [ret]. rewrite M. cbn [call ret].
  rewrite P. cbn [call ret].
  destruct (softmax_pair a b) as (p0 & p1 & ->). cbn. eauto.
Qed.

(** *** The label (lines 41-42) *)

Lemma argmax_pair (p0 p1 : float) :
  argmax [p0; p1]
  = if is_nan p0 then 0%nat
    else if (p1 <=? p0)%float then 0%nat else 1%nat.
Proof.
  unfold argmax, argmax_from.
  destruct (is_nan p0), (p1 <=? p0)%float, (is_nan p1); reflexivity.
Qed.

Lemma label_of_pair (p0 p1 : float) :
  ((p0 <? p1)%float = true ->
     wave_type_str (argmax [p0; p1]) = "rogue wave")
  /\ ((p1 <? p0)%float = true ->
       wave_type_str (argmax [p0; p1]) = "non-rogue wave")
  /\ ((p0 =? p1)%float = true ->
       argmax [p0; p1] = 0%nat
       /\ wave_type_str (argmax [p0; p1]) = "non-rogue wave")
  /\ (wave_type_str (argmax [p0; p1]) = "rogue wave" <->
      is_nan p0 = false /\ (p1 <=? p0)%float = false).
Proof.
  rewrite argmax_pair, F64.is_nan_leb.
  split; [|split; [|split; [|split]]].
  - intros H. rewrite (F64.ltb_not_leb _ _ H).
    now rewrite (F64.leb_refl_l _ _ (F64.ltb_leb _ _ H)).
  - intros H. rewrite (F64.ltb_leb _ _ H).
    now destruct (p0 <=? p0)%float.
  - intros H. destruct (F64.eqb_leb _ _ H) as [_ ->].
    now destruct (p0 <=? p0)%float.
  - destruct (p0 <=? p0)%float, (p1 <=? p0)%float; cbn;
      intros; try discriminate; auto.
  - intros [H1 H2]. apply negb_false_iff in H1. now rewrite H1, H2.
Qed.

End MainFacts.

(** *** The claims on the rogue-wave predictor *)

(** C2, as stated, fails: on a flat trace the scale is zero, the division
    is carried out all the same, and the run ends with status 0 after
    printing a result line; with a classifier that passes its input on, the
    line reads "nan". *)
Lemma flat_trace_is_not_detected :
  (4 * demo_std flat_trace =? 0)%float = true
  /\ run (demo_main [("zdisp", flat_trace)] ["predict.py"; "flat.npz"])
     = mk_outcome [header; "nan,nan,non-rogue wave"] [] [] 0.
Proof. vm_compute. split; reflexivity. Qed.

(** C2 (amended): the script has no check on the scale.  For a trace whose
    computed scale 4 x std is zero, every normalised sample is a NaN or an
    infinity, and the run is the run of the classifier on those samples:
    no error is raised for the zero scale, and when the trace has 1536
    samples, the network loads and returns two scores, the run ends with
    status 0 and the header and a result line on standard output. *)
Theorem zero_scale_is_not_detected
    (np_load : string -> exn + npz) (np_std : list float -> float)
    (load_model : string -> exn + model) (np_exp : float -> float)
    (argv : list string) (data : npz) (zdisp : list float) :
  (2 <= List.length argv)%nat ->
  np_load (nth 1 argv "") = inr data ->
  select_trace data = inr zdisp ->
  (4 * np_std zdisp =? 0)%float = true ->
  let zdisp_norm := normalize np_std zdisp in
  let o := run (main np_load np_std load_model np_exp argv) in
  Forall (fun v => is_finite v = false) zdisp_norm
  /\ o = run (classify load_model np_exp zdisp_norm)
  /\ (forall m a b,
        List.length zdisp = 1536%nat ->
        load_model
          "/root/app/rouge_wave_model/RWs_H_g_2p2_tadv_1min/best_LSTM_RWs_H_g_2p2_tadv_1min.h5"
        = inr m ->
        m zdisp_norm = inr [a; b] ->
        exists l, o = mk_outcome [header; l] [] [] 0).
Proof.
  intros H D Z S zdisp_norm o. split; [|split].
  - now apply normalize_zero_scale.
  - now apply (main_after_normalize np_load np_std load_model np_exp argv data).
  - intros m a b L M P. unfold o.
    rewrite (main_after_normalize np_load np_std load_model np_exp argv data
               zdisp H D Z).
    apply (classify_two_scores load_model np_exp _ m a b); trivial.
    unfold zdisp_norm, normalize. now rewrite length_map.
Qed.

Lemma zero_scale_is_not_detected_witness :
  Forall (fun v => is_finite v = false) (normalize demo_std flat_trace)
  /\ exists l,
       run (demo_main [("zdisp", flat_trace)] ["predict.py"; "flat.npz"])
       = mk_outcome [header; l] [] [] 0.
Proof.
  pose proof (zero_scale_is_not_detected
                (fun _ => inr [("zdisp", flat_trace)]) demo_std
                (fun _ => inr demo_model) demo_exp
                ["predict.py"; "flat.npz"] [("zdisp", flat_trace)] flat_trace
                ltac:(cbn; lia) eq_refl eq_refl
                ltac:(vm_compute; reflexivity)) as (F & _ & R).
  split; [exact F|].
  exact (R demo_model _ _ eq_refl eq_refl eq_refl).
Defined.

(** C7, as stated, fails: the probabilities the script computes need not
    sum to 1.  On the flat trace the two scores are NaN, so are both
    probabilities and their sum, and the run prints them. *)
Lemma nan_probabilities_do_not_sum_to_one :
  exists a b p0 p1,
    demo_model (normalize demo_std flat_trace) = inr [a; b]
    /\ softmax (H := float_arith demo_exp) [a; b] = inr [p0; p1]
    /\ is_nan p0 = true /\ is_nan p1 = true
    /\ (p0 + p1 =? 1)%float = false
    /\ run (demo_main [("zdisp", flat_trace)] ["predict.py"; "flat.npz"])
       = mk_outcome [header; "nan,nan,non-rogue wave"] [] [] 0.
Proof.
  exists nan, nan, nan, nan. vm_compute. repeat split; reflexivity.
Qed.

Lemma nan_maximum (a b : float) :
  is_nan a || is_nan b = true -> is_nan (np_maximum a b) = true.
Proof.
  unfold np_maximum. destruct (is_nan a) eqn:A; [intros _; exact A|].
  cbn [orb]. intros B. now rewrite B.
Qed.

(** C7 (amended): when the classifier returns two (single-precision)
    scores the run prints two single-precision numbers [p0] and [p1], the
    quotients of the exponentials of the shifted scores by their common
    sum, each operation rounded, and the label is decided by comparing
    these two printed numbers: "rogue wave" when the second is larger,
    "non-rogue wave" when the first is larger and also on a tie, since
    [argmax] keeps the first maximal index.  Nothing makes their sum 1:
    when a score is a NaN both are NaN and the label is
    "non-rogue wave". *)
Theorem label_follows_printed_probabilities
    (load_model : string -> exn + model) (np_exp : float -> float)
    (z : list float) (m : model) (a b : float) :
  List.length z = 1536%nat ->
  load_model
    "/root/app/rouge_wave_model/RWs_H_g_2p2_tadv_1min/best_LSTM_RWs_H_g_2p2_tadv_1min.h5"
  = inr m ->
  m z = inr [a; b] ->
  F32.round a = a -> F32.round b = b ->
  let x_max := np_maximum a b in
  let e0 := F32.round (np_exp (F32.sub a x_max)) in
  let e1 := F32.round (np_exp (F32.sub b x_max)) in
  let total := F32.add (F32.add 0 e0) e1 in
  let p0 := F32.div e0 total in
  let p1 := F32.div e1 total in
  let label :=
    if is_nan p0 || (p1 <=? p0)%float then "non-rogue wave"
    else "rogue wave" in
  softmax (H := float_arith np_exp) [a; b] = inr [p0; p1]
  /\ run (classify load_model np_exp z)
     = mk_outcome
         [header;
          PyNum.format_f 6 p0 ++ "," ++ PyNum.format_f 6 p1 ++ "," ++ label]
         [] [] 0
  /\ ((p0 <? p1)%float = true -> label = "rogue wave")
  /\ ((p1 <? p0)%float = true -> label = "non-rogue wave")
  /\ ((p0 =? p1)%float = true -> label = "non-rogue wave")
  /\ (is_nan a || is_nan b = true -> is_nan (np_exp nan) = true ->
      is_nan p0 = true /\ is_nan p1 = true /\ label = "non-rogue wave").
Proof.
  intros L M P _ _ x_max e0 e1 total p0 p1 label.
  assert (S : softmax (H := float_arith np_exp) [a; b] = inr [p0; p1])
    by reflexivity.
  split; [exact S|]. split; [|split; [|split; [|split]]].
  - unfold run, classify, reshape, bind.
    apply Nat.eqb_eq in L. rewrite L. cbn [ret]. rewrite M. cbn [call ret].
    rewrite P. cbn [call ret]. rewrite S. cbn [call ret index nth_error].
    rewrite argmax_pair. unfold label, wave_type_str, print.
    destruct (is_nan p0), (p1 <=? p0)%float; reflexivity.
  - intros H. unfold label. rewrite F64.is_nan_leb.
    rewrite (F64.ltb_not_leb _ _ H).
    now rewrite (F64.leb_refl_l _ _ (F64.ltb_leb _ _ H)).
  - intros H. unfold label. rewrite (F64.ltb_leb _ _ H).
    now rewrite orb_true_r.
  - intros H. unfold label. destruct (F64.eqb_leb _ _ H) as [_ ->].
    now rewrite orb_true_r.
  - intros N E.
    assert (X : is_nan x_max = true) by now apply nan_maximum.
    assert (E0 : is_nan e0 = true).
    { unfold e0. rewrite (F32.sub_nan_r a x_max X).
      now rewrite (F32.round_nan _ E). }
    assert (T : is_nan total = true).
    { unfold total. rewrite (F32.add_nan_r 0 e0 E0).
      now rewrite (F32.add_nan_l nan e1 F32.is_nan_nan). }
    assert (P0 : is_nan p0 = true)
      by (unfold p0; now rewrite (F32.div_nan_r e0 total T)).
    assert (P1 : is_nan p1 = true)
      by (unfold p1; now rewrite (F32.div_nan_r e1 total T)).
    split; [exact P0|]. split; [exact P1|]. unfold label. now rewrite P0.
Qed.

Lemma label_follows_printed_probabilities_witness :
  run (classify (fun _ => inr demo_model) demo_exp
         (normalize demo_std swell_trace))
  = mk_outcome [header; "0.622459,0.377541,non-rogue wave"] [] [] 0.
Proof.
  refine (eq_trans
            (proj1 (proj2 (label_follows_printed_probabilities
                             (fun _ => inr demo_model) demo_exp
                             (normalize demo_std swell_trace) demo_model
                             0.25%float (-0.25)%float _ eq_refl _ _ _))) _);
    vm_compute; reflexivity.
Defined.

End RogueWave.

(** ** Both programs: arguments and failures *)

Module Programs.

Import Py.

(** C4, as stated, fails for the rogue-wave predictor: it only tests for
    a missing argument, so a run with an extra argument goes through and
    prints a result. *)
Lemma rogue_wave_accepts_extra_arguments :
  run (RogueWave.demo_main [("zdisp", RogueWave.swell_trace)]
         ["predict.py"; "swell.npz"; "extra"])
  = mk_outcome [RogueWave.header; "0.622459,0.377541,non-rogue wave"] [] [] 0.
Proof. vm_compute. reflexivity. Qed.

(** C4 (amended): the marine predictor, run with an argument count other
    than one path, writes its usage message (to the [sys.stderr] it has
    rebound to the null device) and exits with status 1, printing nothing.
    The rogue-wave predictor, run without its argument, prints its usage
    message on standard output and exits with status 1; run with more than
    one argument it ignores the extra ones and behaves as with the first
    alone. *)
Theorem argument_count
    (m_load_model : string -> exn + Marine.model)
    (joblib_load : string -> exn + Marine.scaler)
    (read_csv : string -> exn + Pandas.DataFrame)
    (int_of_text : string -> exn + Z)
    (float_of_text : string -> exn + float)
    (np_load : string -> exn + RogueWave.npz)
    (np_std : list float -> float)
    (r_load_model : string -> exn + RogueWave.model)
    (np_exp : float -> float)
    (argv : list string) :
  let marine := Marine.main m_load_model joblib_load read_csv int_of_text
                            float_of_text in
  let rogue := RogueWave.main np_load np_std r_load_model np_exp in
  (List.length argv <> 2%nat ->
     run (marine argv) = mk_outcome [] [] [Marine.usage] 1)
  /\ ((List.length argv < 2)%nat ->
      run (rogue argv) = mk_outcome [RogueWave.usage] [] [] 1)
  /\ ((2 <= List.length argv)%nat ->
      run (rogue argv) = run (rogue [nth 0 argv ""; nth 1 argv ""])).
Proof.
  intros marine rogue. split; [|split].
  - apply Marine.main_wrong_count.
  - apply RogueWave.main_missing_argument.
  - apply RogueWave.main_extra_arguments.
Qed.

(** C3, as stated, fails on both programs: the rogue-wave predictor prints
    its usage message on standard output, and the marine predictor's
    diagnostic never reaches the standard-error channel. *)
Lemma usage_on_stdout_and_diagnostic_discarded :
  run (RogueWave.demo_main [] ["predict.py"])
  = mk_outcome [RogueWave.usage] [] [] 1
  /\ run (Marine.demo_main (fun _ => inr Marine.demo_df) ["predict.py"])
     = mk_outcome [] [] [Marine.usage] 1.
Proof. split; reflexivity. Qed.

(** C3 (amended): every run of the marine predictor leaves the
    standard-error channel empty; it either succeeds, with status 0 and the
    header and a data line on standard output, or ends with status 1,
    nothing on standard output, and one line, a diagnostic of one of the six
    categories or a traceback, written to the null device.  Every run of
    the rogue-wave predictor either succeeds, with status 0 and the header
    and a result line on standard output, or ends with status 1: with the
    usage message on standard output when the argument is missing, and
    otherwise with an empty standard output and a traceback on standard
    error.  So result lines appear only on a successful run. *)
Theorem failing_runs
    (m_load_model : string -> exn + Marine.model)
    (joblib_load : string -> exn + Marine.scaler)
    (read_csv : string -> exn + Pandas.DataFrame)
    (int_of_text : string -> exn + Z)
    (float_of_text : string -> exn + float)
    (np_load : string -> exn + RogueWave.npz)
    (np_std : list float -> float)
    (r_load_model : string -> exn + RogueWave.model)
    (np_exp : float -> float)
    (argv : list string) :
  let o := run (Marine.main m_load_model joblib_load read_csv int_of_text
                            float_of_text argv) in
  let o' := run (RogueWave.main np_load np_std r_load_model np_exp argv) in
  (stderr o = []
   /\ ((status o = 0%Z /\ devnull o = []
        /\ exists l, stdout o = [Marine.header; l])
       \/ (status o = 1%Z /\ stdout o = []
           /\ exists d, devnull o = [d]
                /\ (Marine.diagnostic d \/ exists e, d = traceback e))))
  /\ (devnull o' = []
      /\ ((status o' = 0%Z /\ stderr o' = []
           /\ exists l, stdout o' = [RogueWave.header; l])
          \/ (status o' = 1%Z /\ (List.length argv < 2)%nat
              /\ stdout o' = [RogueWave.usage] /\ stderr o' = [])
          \/ (status o' = 1%Z /\ (2 <= List.length argv)%nat
              /\ stdout o' = [] /\ exists e, stderr o' = [traceback e]))).
Proof.
  intros o o'. split.
  - apply Marine.main_outcome.
  - apply RogueWave.rogue_main_outcome.
Qed.

End Programs.

(** ** The advisory as a function of the three predictions
    ([marine_model/predict.py], lines 72-123) *)

Module AdvisoryTable.

Import PyStr MarineRules.
Local Open Scope float_scope.

(** The sea states whose label reads "Hazardous seas". *)
Definition hazardous_sea (h p : float) : bool :=
  (in_band From9to11 h && (p <=? 9))
  || (in_band From12to14 h && (p <=? 11))
  || (in_band From15 h && (p <=? 12)).

(** The sea states whose label reads "Small craft caution". *)
Definition caution_sea (h p : float) : bool :=
  (in_band From6to8 h && (p <=? 9))
  || (in_band From9to11 h && (10 <=? p) && (p <=? 12))
  || (in_band From12to14 h && (p =? 12))
  || (in_band From15 h && negb (p <=? 12)).

(** The advisory read off the numbers, without going through the labels. *)
Definition advice_of (h p w : float) : string :=
  if hazardous_sea h p || (34 <=? w) then DANGER
  else if caution_sea h p || (22 <=? w) then CAUTION
  else SAFE.

Lemma band_or_none (h : float) :
  (exists b, in_band b h = true) \/ (forall b, in_band b h = false).
Proof.
  destruct (in_band Upto5 h) eqn:E1; [left; eauto|].
  destruct (in_band From6to8 h) eqn:E2; [left; eauto|].
  destruct (in_band From9to11 h) eqn:E3; [left; eauto|].
  destruct (in_band From12to14 h) eqn:E4; [left; eauto|].
  destruct (in_band From15 h) eqn:E5; [left; eauto|].
  right. intros []; assumption.
Qed.

Lemma other_bands (b b' : band) (h : float) :
  in_band b h = true -> b' <> b -> in_band b' h = false.
Proof.
  intros H N. destruct (in_band b' h) eqn:E; [|reflexivity].
  destruct N. exact (band_exclusive b' b h E H).
Qed.

Lemma eqb_12_not_leb_11 (p : float) : (p =? 12) = true -> (p <=? 11) = false.
Proof.
  intros H. destruct (F64.eqb_leb _ _ H) as [_ H2].
  destruct (p <=? 11) eqn:E; [|reflexivity].
  pose proof (F64.leb_trans 12 p 11 H2 E) as C. vm_compute in C. discriminate.
Qed.

Lemma leb_10_not_leb_9 (p : float) : (10 <=? p) = true -> (p <=? 9) = false.
Proof.
  intros H. destruct (p <=? 9) eqn:E; [|reflexivity].
  pose proof (F64.leb_trans 10 p 9 H E) as C. vm_compute in C. discriminate.
Qed.

Ltac other_band_values H :=
  rewrite ?(other_bands _ Upto5 _ H), ?(other_bands _ From6to8 _ H),
    ?(other_bands _ From9to11 _ H), ?(other_bands _ From12to14 _ H),
    ?(other_bands _ From15 _ H) by discriminate.

Lemma wave_alert_words (h p : float) :
  contains "Hazardous" (wave_alert h p) = hazardous_sea h p
  /\ contains "Small craft caution" (wave_alert h p) = caution_sea h p.
Proof.
  unfold hazardous_sea, caution_sea.
  destruct (band_or_none h) as [[b H]|H].
  - rewrite (wave_alert_in_band b h p H).
    destruct b; other_band_values H; rewrite ?H; cbn [band_rule andb orb].
    + split; reflexivity.
    + destruct (p <=? 9); split; reflexivity.
    + destruct (p <=? 9) eqn:E9.
      * destruct (10 <=? p) eqn:E10;
          [rewrite (leb_10_not_leb_9 p E10) in E9; discriminate|].
        split; reflexivity.
      * destruct ((10 <=? p) && (p <=? 12)); split; reflexivity.
    + destruct (p <=? 11) eqn:E11.
      * destruct (p =? 12) eqn:E12;
          [rewrite (eqb_12_not_leb_11 p E12) in E11; discriminate|].
        split; reflexivity.
      * destruct (p =? 12); split; reflexivity.
    + destruct (p <=? 12); split; reflexivity.
  - rewrite (wave_alert_no_band h p H), !H. split; reflexivity.
Qed.

Lemma wind_alert_words (w : float) :
  startswith (wind_alert w) "Hurricane" || startswith (wind_alert w) "Storm"
  || startswith (wind_alert w) "Gale" = (34 <=? w)
  /\ ((34 <=? w) = false ->
      startswith (wind_alert w) "Small Craft" = (22 <=? w)).
Proof.
  destruct (wind_thresholds_nested w) as (N1 & N2 & N3).
  unfold wind_alert, F64.ge.
  destruct (64 <=? w) eqn:E64.
  { rewrite (N2 (N1 eq_refl)). split; [reflexivity|discriminate]. }
  destruct (48 <=? w) eqn:E48.
  { rewrite (N2 eq_refl). split; [reflexivity|discriminate]. }
  destruct (34 <=? w) eqn:E34; [split; [reflexivity|discriminate]|].
  destruct (22 <=? w); split; reflexivity.
Qed.

Lemma advice_by_numbers (h p w : float) :
  advice (wave_alert h p) (wind_alert w) = advice_of h p w.
Proof.
  unfold advice, advice_of.
  destruct (wave_alert_words h p) as [-> ->].
  destruct (wind_alert_words w) as [W1 W2].
  set (a := startswith (wind_alert w) "Hurricane") in *.
  set (b := startswith (wind_alert w) "Storm") in *.
  set (g := startswith (wind_alert w) "Gale") in *.
  replace (hazardous_sea h p || a || b || g)
    with (hazardous_sea h p || (a || b || g))
    by (now destruct (hazardous_sea h p), a, b).
  rewrite W1.
  destruct (hazardous_sea h p), (34 <=? w) eqn:E; cbn [orb]; trivial.
  now rewrite (W2 eq_refl).
Qed.

(** A NaN stays a NaN through the unit conversions of lines 72-73. *)
Lemma is_nan_Prim2SF (x : float) : is_nan x = true -> Prim2SF x = S754_nan.
Proof.
  unfold is_nan. rewrite eqb_spec. unfold SFeqb.
  rewrite F64.SFcompare_key.
  destruct (Prim2SF x) as [s|s| |s m e]; trivial; cbn [F64.key];
    try destruct s; cbn [F64.key F64.key_cmp];
    rewrite ?Z.compare_refl; discriminate.
Qed.

Lemma mul_nan (x c : float) : is_nan x = true -> is_nan (x * c) = true.
Proof.
  intros H. apply F64.Prim2SF_nan.
  now rewrite mul_spec, (is_nan_Prim2SF x H).
Qed.

Lemma nan_wave_alert (h p : float) :
  is_nan h = true -> wave_alert h p = "Unknown".
Proof.
  intros H. apply wave_alert_no_band. intros b. now apply nan_no_band.
Qed.

Lemma nan_wind_alert (w : float) :
  is_nan w = true -> wind_alert w = "Wind normal (<22 kt)".
Proof.
  intros H. apply wind_alert_intervals.
  apply F64.nan_leb_r. rewrite F64.is_nan_leb in H.
  now apply negb_true_iff in H.
Qed.

Lemma nan_period_not_hazardous (h p : float) :
  is_nan p = true -> hazardous_sea h p = false.
Proof.
  intros H. rewrite F64.is_nan_leb in H. apply negb_true_iff in H.
  unfold hazardous_sea.
  now rewrite !(F64.nan_leb_l p) , !andb_false_r by assumption.
Qed.

(** X1: the advisory is a function of the three predictions alone: DANGER
    when the sea state is one of the hazardous ones or the wind reaches
    34 kt, otherwise CAUTION when the sea state is one of the small-craft
    ones or the wind reaches 22 kt, otherwise SAFE.  So a wind of 34 kt or
    more is DANGER whatever the waves, and a wave height outside every
    band with a wind below 22 kt is SAFE whatever the period. *)
Theorem advisory_from_predictions (wvht_pred wspd_pred dpd_pred : float) :
  let h := wvht_ft wvht_pred in
  let w := wspd_kt wspd_pred in
  let result := advice (wave_alert h dpd_pred) (wind_alert w) in
  result = advice_of h dpd_pred w
  /\ ((34 <=? w) = true -> result = DANGER)
  /\ ((forall b, in_band b h = false) -> (22 <=? w) = false -> result = SAFE).
Proof.
  intros h w result. unfold result. rewrite advice_by_numbers.
  split; [reflexivity|split].
  - intros H. unfold advice_of. now rewrite H, orb_true_r.
  - intros H N. unfold advice_of, hazardous_sea, caution_sea.
    rewrite !H, N. cbn [andb orb].
    destruct (34 <=? w) eqn:E; [|reflexivity].
    destruct (wind_thresholds_nested w) as (_ & _ & N3).
    rewrite (N3 E) in N. discriminate.
Qed.

(** X2: predictions that are not numbers are not detected.  When the
    predicted wave height and wind speed are NaN, the wave label is
    "Unknown", the wind label is the normal one and the advisory is SAFE,
    whatever the period; and a NaN period never gives a hazardous label. *)
Theorem nan_predictions_are_reported_safe (wvht_pred wspd_pred dpd_pred : float) :
  is_nan wvht_pred = true -> is_nan wspd_pred = true ->
  wave_alert (wvht_ft wvht_pred) dpd_pred = "Unknown"
  /\ wind_alert (wspd_kt wspd_pred) = "Wind normal (<22 kt)"
  /\ advice (wave_alert (wvht_ft wvht_pred) dpd_pred)
            (wind_alert (wspd_kt wspd_pred)) = SAFE
  /\ (forall h p, is_nan p = true ->
                  contains "Hazardous" (wave_alert h p) = false).
Proof.
  intros Hh Hw.
  pose proof (nan_wave_alert _ dpd_pred (mul_nan _ 3.28084 Hh)) as E1.
  pose proof (nan_wind_alert _ (mul_nan _ 1.94384 Hw)) as E2.
  unfold wvht_ft, wspd_kt. rewrite E1, E2.
  repeat split.
  intros h p Hp. destruct (wave_alert_words h p) as [-> _].
  now apply nan_period_not_hazardous.
Qed.

Lemma nan_predictions_are_reported_safe_witness :
  advice (wave_alert (wvht_ft nan) 8) (wind_alert (wspd_kt nan)) = SAFE.
Proof.
  exact (proj1 (proj2 (proj2
    (nan_predictions_are_reported_safe nan nan 8 eq_refl eq_refl)))).
Defined.

End AdvisoryTable.

(** ** More of the marine predictor: the steps around the claims *)

Module MarineSteps.

Import Py Pandas MarineRules Marine.
Local Open Scope py_scope.

(** The vector handed to [inverse_transform]: zeros, with the three
    outputs of the network at the positions of WVHT (8), WSPD (6) and
    DPD (9). *)
Definition dummy_vector (y0 y1 y2 : float) : list float :=
  [0; 0; 0; 0; 0; 0; y1; 0; y0; y2; 0; 0; 0; 0; 0; 0; 0; 0; 0]%float.

(** A scaler that undoes its scaling feature by feature, as the fitted
    scalers of scikit-learn do: entry [j] of the result is [f j] of entry
    [j]. *)
Definition columnwise (f : nat -> float -> float) (v : list float)
  : list float :=
  map (fun jx => f (fst jx) (snd jx)) (combine (seq 0 (List.length v)) v).

Lemma columnwise_uniform (g : float -> float) (v : list float) :
  columnwise (fun _ x => g x) v = map g v.
Proof.
  unfold columnwise. generalize 0%nat.
  induction v as [|x v IH]; intros n; [reflexivity|].
  cbn. f_equal. apply IH.
Qed.

Section Predict.

Variable m : model.
Variable s : scaler.
Variable last24 : DataFrame.

Lemma predict_after_network (scaled : list (list float))
    (y0 y1 y2 : float) (rest : list float) :
  transform s (values last24) = inr scaled ->
  List.length (List.concat scaled) = 456%nat ->
  m (List.concat scaled) = inr (y0 :: y1 :: y2 :: rest) ->
  predict m s last24 quiet_io
  = match inverse_transform s (dummy_vector y0 y1 y2) with
    | inl e => (Exit 1, mk_io [] [] ["Prediction failed: " ++ e] true)
    | inr restored =>
        match nth_error restored 8, nth_error restored 6,
              nth_error restored 9 with
        | Some a, Some b, Some c => (Ret (a, b, c), quiet_io)
        | _, _, _ =>
            (Exit 1,
             mk_io [] [] ["Prediction failed: list index out of range"] true)
        end
    end.
Proof.
  intros T L P. unfold predict, try_except.
  rewrite (PyFacts.bind_Ret_eq _ _ quiet_io quiet_io scaled)
    by now rewrite T.
  rewrite (PyFacts.bind_Ret_eq _ _ quiet_io quiet_io (List.concat scaled))
    by (unfold reshape; apply Nat.eqb_eq in L;
        change (24 * List.length features)%nat with 456%nat;
        now rewrite L).
  rewrite (PyFacts.bind_Ret_eq _ _ quiet_io quiet_io (y0 :: y1 :: y2 :: rest))
    by now rewrite P.
  rewrite (PyFacts.bind_Ret_eq _ _ quiet_io quiet_io y0) by reflexivity.
  rewrite (PyFacts.bind_Ret_eq _ _ quiet_io quiet_io y1) by reflexivity.
  rewrite (PyFacts.bind_Ret_eq _ _ quiet_io quiet_io y2) by reflexivity.
  change (set_nth 9 y2 (set_nth 6 y1 (set_nth 8 y0
            (repeat 0%float (List.length features)))))
    with (dummy_vector y0 y1 y2).
  destruct (inverse_transform s (dummy_vector y0 y1 y2)) as [e|restored];
    [reflexivity|].
  rewrite (PyFacts.bind_Ret_eq _ _ quiet_io quiet_io restored) by reflexivity.
  unfold bind, index.
  destruct (nth_error restored 8); [|reflexivity]. cbn [ret].
  destruct (nth_error restored 6); [|now destruct (nth_error restored 9)].
  cbn [ret]. now destruct (nth_error restored 9).
Qed.

Lemma predict_bad_shape (scaled : list (list float)) :
  transform s (values last24) = inr scaled ->
  List.length (List.concat scaled) <> 456%nat ->
  predict m s last24 quiet_io
  = (Exit 1, mk_io [] [] ["Prediction failed: cannot reshape array"] true).
Proof.
  intros T L. unfold predict, try_except, bind, reshape.
  rewrite T. cbn [call ret]. apply Nat.eqb_neq in L.
  change (24 * List.length features)%nat with 456%nat. now rewrite L.
Qed.

Lemma predict_few_outputs (scaled : list (list float)) (y : list float) :
  transform s (values last24) = inr scaled ->
  List.length (List.concat scaled) = 456%nat ->
  m (List.concat scaled) = inr y ->
  (List.length y < 3)%nat ->
  predict m s last24 quiet_io
  = (Exit 1, mk_io [] [] ["Prediction failed: list index out of range"] true).
Proof.
  intros T L P S. unfold predict, try_except, bind, reshape.
  rewrite T. cbn [call ret]. apply Nat.eqb_eq in L.
  change (24 * List.length features)%nat with 456%nat. rewrite L.
  cbn [ret]. rewrite P. cbn [call ret].
  destruct y as [|y0 [|y1 [|y2 y]]]; try reflexivity. cbn in S. lia.
Qed.

End Predict.

(** X3: once the scaled window has 24 x 19 entries and the network has
    returned at least three outputs, the outputs are written at positions
    8, 6 and 9 of a zero vector of 19 entries, outputs after the third are
    ignored, and the predictions are entries 8, 6 and 9 of the inverse
    transform of that vector; for a scaler that works feature by feature
    they are the inverse scalings of the three outputs alone. *)
Theorem network_outputs_go_to_slots_8_6_9
    (m : model) (s : scaler) (last24 : DataFrame)
    (scaled : list (list float)) (y0 y1 y2 : float) (rest : list float) :
  transform s (values last24) = inr scaled ->
  List.length (List.concat scaled) = 456%nat ->
  m (List.concat scaled) = inr (y0 :: y1 :: y2 :: rest) ->
  (forall restored a b c,
     inverse_transform s (dummy_vector y0 y1 y2) = inr restored ->
     nth_error restored 8 = Some a -> nth_error restored 6 = Some b ->
     nth_error restored 9 = Some c ->
     predict m s last24 quiet_io = (Ret (a, b, c), quiet_io))
  /\ (forall f,
        (forall v, inverse_transform s v = inr (columnwise f v)) ->
        predict m s last24 quiet_io
        = (Ret (f 8%nat y0, f 6%nat y1, f 9%nat y2), quiet_io)).
Proof.
  intros T L P.
  pose proof (predict_after_network m s last24 scaled y0 y1 y2 rest T L P) as E.
  split.
  - intros restored a b c R A B C. now rewrite E, R, A, B, C.
  - intros f F. now rewrite E, F.
Qed.

Lemma network_outputs_go_to_slots_8_6_9_witness :
  predict demo_model demo_scaler demo_df quiet_io
  = (Ret (2.5, 10, 5)%float, quiet_io).
Proof.
  exact (proj2 (network_outputs_go_to_slots_8_6_9 demo_model demo_scaler
                  demo_df _ 0.125%float 0.5%float 0.25%float []
                  eq_refl eq_refl eq_refl)
               (fun _ x => (x * 20)%float)
               (fun v => f_equal inr
                           (eq_sym (columnwise_uniform
                                      (fun x => (x * 20)%float) v)))).
Defined.

(** *** Where a run stops *)

Section Stops.

Variable load_model : string -> exn + model.
Variable joblib_load : string -> exn + scaler.
Variable read_csv : string -> exn + DataFrame.
Variable int_of_text : string -> exn + Z.
Variable float_of_text : string -> exn + float.

Let main' : list string -> M unit :=
  main load_model joblib_load read_csv int_of_text float_of_text.

Definition outcome_of {A} (r : result A * io) : outcome :=
  match r with
  | (Ret _, s) => mk_outcome (out s) (err s) (null s) 0
  | (Exit c, s) => mk_outcome (out s) (err s) (null s) c
  | (Raise e, s) =>
      if stderr_is_null s
      then mk_outcome (out s) (err s) (null s ++ [traceback e]) 1
      else mk_outcome (out s) (err s ++ [traceback e]) (null s) 1
  end.

Lemma run_outcome_of (p : M unit) : run p = outcome_of (p io0).
Proof.
  unfold run, outcome_of. destruct (p io0) as [[[]|e|c] s]; trivial.
  unfold print_stderr. now destruct (stderr_is_null s).
Qed.

Lemma check_args_two (argv : list string) :
  List.length argv = 2%nat -> check_args argv quiet_io = (Ret tt, quiet_io).
Proof.
  intros H. unfold check_args. apply Nat.eqb_eq in H. now rewrite H.
Qed.

Lemma load_artifacts_cases :
  load_artifacts load_model joblib_load quiet_io
  = match load_model "/root/app/marine_model/lstm_marine_model.h5" with
    | inl e =>
        (Exit 1,
         mk_io [] [] ["Failed to load model or scaler: " ++ e] true)
    | inr m =>
        match joblib_load "/root/app/marine_model/marine_scaler.save" with
        | inl e =>
            (Exit 1,
             mk_io [] [] ["Failed to load model or scaler: " ++ e] true)
        | inr sc => (Ret (m, sc), quiet_io)
        end
    end.
Proof.
  unfold load_artifacts, try_except, bind.
  destruct (load_model _) as [e|m]; [reflexivity|]. cbn [call ret].
  now destruct (joblib_load _) as [e|sc].
Qed.

(** A step that does not return ends the run with what it left. *)
Lemma stop_at_load (argv : list string) (r : result (model * scaler))
    (s1 : io) :
  List.length argv = 2%nat ->
  load_artifacts load_model joblib_load quiet_io = (r, s1) ->
  (forall a, r <> Ret a) ->
  run (main' argv) = outcome_of (r, s1).
Proof.
  intros A E N. rewrite run_outcome_of. unfold main', main.
  rewrite (PyFacts.bind_Ret_eq _ _ io0 quiet_io tt) by reflexivity.
  rewrite (PyFacts.bind_Ret_eq _ _ _ _ _ (check_args_two argv A)).
  unfold bind at 1. rewrite E.
  destruct r as [a|e|c]; [now destruct (N a)|reflexivity..].
Qed.

Lemma stop_at_parse (argv : list string) (m : model) (sc : scaler)
    (r : result (DataFrame * DataFrame)) (s1 : io) :
  List.length argv = 2%nat ->
  load_artifacts load_model joblib_load quiet_io = (Ret (m, sc), quiet_io) ->
  parse_input read_csv (nth 1 argv "") quiet_io = (r, s1) ->
  (forall a, r <> Ret a) ->
  run (main' argv) = outcome_of (r, s1).
Proof.
  intros A L E N. rewrite run_outcome_of. unfold main', main.
  rewrite (PyFacts.bind_Ret_eq _ _ io0 quiet_io tt) by reflexivity.
  rewrite (PyFacts.bind_Ret_eq _ _ _ _ _ (check_args_two argv A)).
  rewrite (PyFacts.bind_Ret_eq _ _ _ _ _ L).
  unfold bind at 1. rewrite E.
  destruct r as [a|e|c]; [now destruct (N a)|reflexivity..].
Qed.

Lemma stop_at_predict (argv : list string) (m : model) (sc : scaler)
    (df last24 : DataFrame) (r : result (float * float * float)) (s1 : io) :
  List.length argv = 2%nat ->
  load_artifacts load_model joblib_load quiet_io = (Ret (m, sc), quiet_io) ->
  parse_input read_csv (nth 1 argv "") quiet_io = (Ret (df, last24), quiet_io) ->
  predict m sc last24 quiet_io = (r, s1) ->
  (forall a, r <> Ret a) ->
  run (main' argv) = outcome_of (r, s1).
Proof.
  intros A L P E N. rewrite run_outcome_of. unfold main', main.
  rewrite (PyFacts.bind_Ret_eq _ _ io0 quiet_io tt) by reflexivity.
  rewrite (PyFacts.bind_Ret_eq _ _ _ _ _ (check_args_two argv A)).
  rewrite (PyFacts.bind_Ret_eq _ _ _ _ _ L).
  rewrite (PyFacts.bind_Ret_eq _ _ _ _ _ P).
  unfold bind at 1. rewrite E.
  destruct r as [a|e|c]; [now destruct (N a)|reflexivity..].
Qed.

(** The run after the predictions and the time step succeeded: only the
    station conversion and the two prints are left. *)
Lemma run_after_time_step (argv : list string) (m : model) (sc : scaler)
    (df last24 : DataFrame) (wvht wspd dpd : float) (row : Series)
    (next_time : Datetime.datetime) :
  List.length argv = 2%nat ->
  load_artifacts load_model joblib_load quiet_io = (Ret (m, sc), quiet_io) ->
  parse_input read_csv (nth 1 argv "") quiet_io = (Ret (df, last24), quiet_io) ->
  predict m sc last24 quiet_io = (Ret (wvht, wspd, dpd), quiet_io) ->
  time_step int_of_text df quiet_io = (Ret (row, next_time), quiet_io) ->
  run (main' argv)
  = match and_then (series_get row "station") (fun c =>
          and_then (float_of_cell float_of_text c) PyNum.int_of_float) with
    | inr n =>
        mk_outcome
          [header; data_line next_time wvht wspd dpd (PyNum.str_of_int n)]
          [] [] 0
    | inl e => mk_outcome [] [] [traceback e] 1
    end.
Proof.
  intros A L P Q T. rewrite run_outcome_of. unfold main', main.
  rewrite (PyFacts.bind_Ret_eq _ _ io0 quiet_io tt) by reflexivity.
  rewrite (PyFacts.bind_Ret_eq _ _ _ _ _ (check_args_two argv A)).
  rewrite (PyFacts.bind_Ret_eq _ _ _ _ _ L).
  rewrite (PyFacts.bind_Ret_eq _ _ _ _ _ P).
  rewrite (PyFacts.bind_Ret_eq _ _ _ _ _ Q).
  rewrite (PyFacts.bind_Ret_eq _ _ _ _ _ T).
  unfold station_str, bind, and_then.
  destruct (series_get row "station") as [e|c]; [reflexivity|].
  cbn [call ret].
  destruct (float_of_cell float_of_text c) as [e|x]; [reflexivity|].
  cbn [call ret].
  destruct (PyNum.int_of_float x) as [e|n]; reflexivity.
Qed.

End Stops.

(** *** Columns found and not found *)

Lemma get_locs_found (cols labels : list string) (locs : list nat) :
  get_locs cols labels = inr locs ->
  List.length locs = List.length labels
  /\ Forall (fun i => (i < List.length cols)%nat) locs
  /\ Forall (fun l => In l cols) labels.
Proof.
  revert locs. induction labels as [|l labels IH]; intros locs; cbn [get_locs].
  - intros [= <-]. repeat split; constructor.
  - destruct (get_loc cols l) as [i|] eqn:G; [|discriminate].
    destruct (get_locs cols labels) as [e|locs']; [discriminate|].
    intros [= <-]. destruct (IH locs' eq_refl) as (L & B & I).
    destruct (get_loc_Some cols l i G) as [Bi Ni].
    repeat split; cbn; [now rewrite L|now constructor|].
    constructor; [|assumption]. rewrite <- Ni. now apply nth_In.
Qed.

Lemma get_locs_missing (cols labels : list string) (l : string) :
  In l labels -> ~ In l cols -> exists e, get_locs cols labels = inl e.
Proof.
  intros I N. destruct (get_locs cols labels) as [e|locs] eqn:G; [eauto|].
  destruct (get_locs_found cols labels locs G) as (_ & _ & F).
  rewrite Forall_forall in F. now destruct (N (F l I)).
Qed.

Lemma tail_one {A} (l : list A) (a : A) : tail 1 (l ++ [a]) = [a].
Proof.
  unfold tail. rewrite length_app. cbn [List.length].
  replace (List.length l + 1 - 1)%nat with (List.length l + 0)%nat by lia.
  now rewrite skipn_app, Nat.add_0_r, skipn_all, Nat.sub_diag.
Qed.

Lemma filter_none {A} (f : A -> bool) (l : list A) :
  Forall (fun a => f a = false) l -> filter f l = [].
Proof.
  induction 1 as [|a l H _ IH]; [reflexivity|]. cbn. now rewrite H.
Qed.

(** X4: what fails in the prediction step is fatal and is reported as a
    prediction failure: a scaled window that does not have 24 x 19 entries
    (the network is then not run), a network that raises, and a network
    that returns fewer than three outputs each end the run with status 1,
    nothing on standard output and one "Prediction failed" line sent to the
    null device. *)
Theorem prediction_failures_are_fatal
    (load_model : string -> exn + model)
    (joblib_load : string -> exn + scaler)
    (read_csv : string -> exn + DataFrame)
    (int_of_text : string -> exn + Z)
    (float_of_text : string -> exn + float)
    (argv : list string) (m : model) (sc : scaler) (df last24 : DataFrame)
    (scaled : list (list float)) :
  List.length argv = 2%nat ->
  load_artifacts load_model joblib_load quiet_io = (Ret (m, sc), quiet_io) ->
  parse_input read_csv (nth 1 argv "") quiet_io = (Ret (df, last24), quiet_io) ->
  transform sc (values last24) = inr scaled ->
  let o := run (main load_model joblib_load read_csv int_of_text
                     float_of_text argv) in
  let failed :=
    exists e, o = mk_outcome [] [] ["Prediction failed: " ++ e] 1 in
  (List.length (List.concat scaled) <> 456%nat -> failed)
  /\ (List.length (List.concat scaled) = 456%nat ->
      (forall e, m (List.concat scaled) = inl e -> failed)
      /\ (forall y, m (List.concat scaled) = inr y ->
                    (List.length y < 3)%nat -> failed)).
Proof.
  intros A L P T o failed. unfold failed, o. split; [|intros H; split].
  - intros S. eexists.
    rewrite (stop_at_predict load_model joblib_load read_csv int_of_text
               float_of_text argv m sc df last24 _ _ A L P
               (predict_bad_shape m sc last24 scaled T S));
      [reflexivity|discriminate].
  - intros e E. exists e.
    assert (F : predict m sc last24 quiet_io
                = (Exit 1, mk_io [] [] ["Prediction failed: " ++ e] true)).
    { unfold predict, try_except, bind, reshape. rewrite T. cbn [call ret].
      apply Nat.eqb_eq in H.
      change (24 * List.length features)%nat with 456%nat.
      rewrite H. cbn [ret]. now rewrite E. }
    rewrite (stop_at_predict load_model joblib_load read_csv int_of_text
               float_of_text argv m sc df last24 _ _ A L P F);
      [reflexivity|discriminate].
  - intros y E S. eexists.
    rewrite (stop_at_predict load_model joblib_load read_csv int_of_text
               float_of_text argv m sc df last24 _ _ A L P
               (predict_few_outputs m sc last24 scaled y T H E S));
      [reflexivity|discriminate].
Qed.

Lemma prediction_failures_are_fatal_witness :
  exists e,
    run (main (fun _ => inr (fun _ => inr [0.125; 0.5]%float))
              (fun _ => inr demo_scaler) (fun _ => inr demo_df)
              no_text no_text ["predict.py"; "data.csv"])
    = mk_outcome [] [] ["Prediction failed: " ++ e] 1.
Proof.
  refine (proj2 (proj2 (prediction_failures_are_fatal
            (fun _ => inr (fun _ => inr [0.125; 0.5]%float))
            (fun _ => inr demo_scaler) (fun _ => inr demo_df)
            no_text no_text ["predict.py"; "data.csv"]
            (fun _ => inr [0.125; 0.5]%float) demo_scaler demo_df demo_df
            _ eq_refl eq_refl _ eq_refl) eq_refl)
          [0.125; 0.5]%float eq_refl _).
  - vm_compute. reflexivity.
  - cbn. lia.
Defined.

(** X5: when the network or the scaler cannot be loaded the run ends with
    status 1, nothing on standard output and one "Failed to load model or
    scaler" line sent to the null device; the scaler is not loaded after a
    failed network, and the input file is not read: the outcome is the same
    whatever the file holds. *)
Theorem artifact_failure_stops_before_input
    (load_model : string -> exn + model)
    (joblib_load : string -> exn + scaler)
    (read_csv read_csv' : string -> exn + DataFrame)
    (int_of_text : string -> exn + Z)
    (float_of_text : string -> exn + float)
    (argv : list string) (e : exn) :
  List.length argv = 2%nat ->
  load_model "/root/app/marine_model/lstm_marine_model.h5" = inl e
  \/ (exists m,
        load_model "/root/app/marine_model/lstm_marine_model.h5" = inr m
        /\ joblib_load "/root/app/marine_model/marine_scaler.save" = inl e) ->
  run (main load_model joblib_load read_csv int_of_text float_of_text argv)
  = mk_outcome [] [] ["Failed to load model or scaler: " ++ e] 1
  /\ run (main load_model joblib_load read_csv' int_of_text float_of_text argv)
     = mk_outcome [] [] ["Failed to load model or scaler: " ++ e] 1.
Proof.
  intros A H.
  assert (F : load_artifacts load_model joblib_load quiet_io
              = (Exit 1,
                 mk_io [] [] ["Failed to load model or scaler: " ++ e] true)).
  { rewrite load_artifacts_cases.
    destruct H as [->|(m & -> & ->)]; reflexivity. }
  split.
  - rewrite (stop_at_load load_model joblib_load read_csv int_of_text
               float_of_text argv _ _ A F); [reflexivity|discriminate].
  - rewrite (stop_at_load load_model joblib_load read_csv' int_of_text
               float_of_text argv _ _ A F); [reflexivity|discriminate].
Qed.

Lemma artifact_failure_stops_before_input_witness :
  run (main (fun _ => inr demo_model) (fun _ => inl "no such file")
            (fun _ => inr demo_df) no_text no_text ["predict.py"; "data.csv"])
  = mk_outcome [] [] ["Failed to load model or scaler: no such file"] 1.
Proof.
  exact (proj1 (artifact_failure_stops_before_input
                  (fun _ => inr demo_model) (fun _ => inl "no such file")
                  (fun _ => inr demo_df) (fun _ => inr demo_df)
                  no_text no_text ["predict.py"; "data.csv"] "no such file"
                  eq_refl (or_intror (ex_intro _ demo_model
                                        (conj eq_refl eq_refl))))).
Defined.

(** X6: the input checks come in a fixed order, each fatal with status 1,
    nothing on standard output and one line sent to the null device: a file
    that cannot be read is reported as a read/process failure; a file with
    fewer than 24 complete rows is reported as such, once, whether or not
    its feature columns are present; only a file with at least 24 complete
    rows is reported for a missing feature column. *)
Theorem input_checks_in_order
    (load_model : string -> exn + model)
    (joblib_load : string -> exn + scaler)
    (read_csv : string -> exn + DataFrame)
    (int_of_text : string -> exn + Z)
    (float_of_text : string -> exn + float)
    (argv : list string) (m : model) (sc : scaler) :
  List.length argv = 2%nat ->
  load_artifacts load_model joblib_load quiet_io = (Ret (m, sc), quiet_io) ->
  let o := run (main load_model joblib_load read_csv int_of_text
                     float_of_text argv) in
  (forall e, read_csv (nth 1 argv "") = inl e ->
     o = mk_outcome [] [] ["Failed to read/process input: " ++ e] 1)
  /\ (forall df0, read_csv (nth 1 argv "") = inr df0 ->
        ((len (dropna df0) < 24)%nat ->
         o = mk_outcome [] [] [too_few_rows] 1)
        /\ ((24 <= len (dropna df0))%nat ->
            forall l, In l features -> ~ In l (columns df0) ->
            exists e,
              o = mk_outcome [] [] ["Failed to read/process input: " ++ e] 1)).
Proof.
  intros A L o. unfold o. split; [|intros df0 E; split].
  - intros e E.
    rewrite (stop_at_parse load_model joblib_load read_csv int_of_text
               float_of_text argv m sc
               (Exit 1)
               (mk_io [] [] ["Failed to read/process input: " ++ e] true)
               A L); [reflexivity| |discriminate].
    unfold parse_input, try_except, bind. now rewrite E.
  - intros H.
    rewrite (stop_at_parse load_model joblib_load read_csv int_of_text
               float_of_text argv m sc _ _ A L
               (parse_input_too_few read_csv _ df0 E H));
      [reflexivity|discriminate].
  - intros H l I N.
    destruct (get_locs_missing (columns df0) features l I N) as [e G].
    exists e.
    rewrite (stop_at_parse load_model joblib_load read_csv int_of_text
               float_of_text argv m sc _ _ A L
               (parse_input_missing_column read_csv _ df0 e E H G));
      [reflexivity|discriminate].
Qed.

Lemma input_checks_in_order_witness :
  run (main (fun _ => inr demo_model) (fun _ => inr demo_scaler)
            (fun _ => inr (mk_df [] [])) no_text no_text
            ["predict.py"; "data.csv"])
  = mk_outcome [] [] [too_few_rows] 1.
Proof.
  refine (proj1 (proj2 (input_checks_in_order
            (fun _ => inr demo_model) (fun _ => inr demo_scaler)
            (fun _ => inr (mk_df [] [])) no_text no_text
            ["predict.py"; "data.csv"] demo_model demo_scaler
            eq_refl eq_refl) (mk_df [] []) eq_refl) _).
  cbn. lia.
Defined.

Lemma length_concat_uniform {A} (k : nat) (l : list (list A)) :
  Forall (fun r => List.length r = k) l ->
  List.length (List.concat l) = (List.length l * k)%nat.
Proof.
  induction 1 as [|r l H _ IH]; [reflexivity|].
  cbn [List.concat List.length]. rewrite length_app, H, IH. lia.
Qed.

Lemma take_complete (r : list cell) (locs : list nat) :
  Forall (fun i => (i < List.length r)%nat) locs ->
  existsb isna r = false -> existsb isna (take r locs) = false.
Proof.
  intros B C. destruct (existsb isna (take r locs)) eqn:E; [|reflexivity].
  apply existsb_exists in E. destruct E as (c & I & N).
  unfold take in I. apply in_map_iff in I. destruct I as (i & <- & I).
  rewrite Forall_forall in B.
  assert (X : existsb isna r = true).
  { apply existsb_exists. exists (nth i r (Num nan)). split; [|assumption].
    apply nth_In. now apply B. }
  congruence.
Qed.

(** X7: whenever the input step returns, the frame it returns is the file's
    frame without its incomplete rows and has at least 24 rows, and the
    window has the 19 feature columns in the script's order and exactly 24
    rows of 19 cells, 456 cells in all (the count the network input is
    reshaped to); when every row of the file has one cell per column, no
    cell of the window is a missing value. *)
Theorem window_has_24_complete_rows_of_19
    (read_csv : string -> exn + DataFrame) (csv_path : string)
    (df0 df w : DataFrame) :
  read_csv csv_path = inr df0 ->
  parse_input read_csv csv_path quiet_io = (Ret (df, w), quiet_io) ->
  df = dropna df0
  /\ (24 <= len df)%nat
  /\ columns w = features
  /\ List.length (rows w) = 24%nat
  /\ Forall (fun r => List.length r = 19%nat) (rows w)
  /\ List.length (List.concat (values w)) = 456%nat
  /\ (Forall (fun r => List.length r = List.length (columns df0)) (rows df0) ->
      Forall (fun r => existsb isna r = false) (rows w)).
Proof.
  intros E P.
  destruct (Nat.ltb_spec (len (dropna df0)) 24) as [H|H].
  { rewrite (parse_input_too_few read_csv _ df0 E H) in P. discriminate. }
  destruct (get_locs (columns df0) features) as [e|locs] eqn:G.
  { rewrite (parse_input_missing_column read_csv _ df0 e E H G) in P.
    discriminate. }
  rewrite (parse_input_window read_csv _ df0 locs E H G) in P.
  injection P as <- <-.
  destruct (get_locs_found _ _ _ G) as (LL & LB & _).
  destruct (tail_suffix 24 (rows (dropna df0)) H) as (front & _ & T).
  assert (R : Forall (fun r => List.length r = 19%nat)
                (map (fun r => take r locs) (tail 24 (rows (dropna df0))))).
  { apply Forall_forall. intros r I. apply in_map_iff in I.
    destruct I as (r0 & <- & _). unfold take. now rewrite length_map, LL. }
  split; [reflexivity|]. split; [assumption|]. split; [reflexivity|].
  unfold values. cbn [rows]. split; [now rewrite length_map|].
  split; [assumption|]. split.
  - etransitivity; [exact (length_concat_uniform 19 _ R)|].
    now rewrite length_map, T.
  - intros W. apply Forall_forall. intros r I. apply in_map_iff in I.
    destruct I as (r0 & <- & I). apply tail_In in I.
    cbn [dropna rows] in I. apply filter_In in I. destruct I as [I C].
    rewrite Forall_forall in W. apply take_complete.
    + rewrite (W r0 I). assumption.
    + now apply negb_true_iff in C.
Qed.

Lemma window_has_24_complete_rows_of_19_witness :
  List.length (List.concat (values demo_df)) = 456%nat.
Proof.
  exact (proj1 (proj2 (proj2 (proj2 (proj2 (proj2
           (window_has_24_complete_rows_of_19 (fun _ => inr demo_df)
              "data.csv" demo_df demo_df demo_df eq_refl eq_refl))))))).
Defined.

Lemma tail_keeps_last {A} (k : nat) (l : list A) (a : A) :
  (0 < k)%nat -> exists front, tail k (l ++ [a]) = (front ++ [a])%list.
Proof.
  intros K. unfold tail. rewrite length_app. cbn [List.length].
  exists (skipn (List.length l + 1 - k) l). rewrite skipn_app.
  replace (List.length l + 1 - k - List.length l)%nat with 0%nat by lia.
  reflexivity.
Qed.

(** X8: the row that supplies the timestamp and the station is the last
    row of the file without a missing value, also when incomplete rows
    follow it: the time step on the file equals the time step on that row
    alone, and the same row is the last row of the window. *)
Theorem last_complete_row_gives_time_and_station
    (cols : list string) (front back : list (list cell)) (r : list cell) :
  existsb isna r = false ->
  Forall (fun r' => existsb isna r' = true) back ->
  let df := dropna (mk_df cols (front ++ r :: back)) in
  iloc_last df = inr (combine cols r)
  /\ (forall int_of_text,
        time_step int_of_text df quiet_io
        = time_step int_of_text (mk_df cols [r]) quiet_io)
  /\ (exists earlier, tail 24 (rows df) = (earlier ++ [r])%list).
Proof.
  intros C B df.
  assert (R : rows df
              = (filter (fun r => negb (existsb isna r)) front ++ [r])%list).
  { unfold df. cbn [dropna rows]. rewrite filter_app. cbn [filter].
    rewrite C. cbn [negb]. f_equal. f_equal. apply filter_none.
    revert B. apply Forall_impl. intros a ->. reflexivity. }
  assert (I : iloc_last df = inr (combine cols r)).
  { unfold iloc_last. rewrite R, tail_one. reflexivity. }
  split; [assumption|]. split.
  - intros int_of_text. unfold time_step, next_time_of.
    unfold try_except, bind at 1 5. rewrite I. reflexivity.
  - rewrite R. apply tail_keeps_last. lia.
Qed.

Lemma last_complete_row_gives_time_and_station_witness :
  iloc_last (dropna (mk_df ["YY"] [[Num 2024]; [Num nan]; [Num nan]]))
  = inr [("YY", Num 2024)].
Proof.
  refine (proj1 (last_complete_row_gives_time_and_station
                   ["YY"] [] [[Num nan]; [Num nan]] [Num 2024] eq_refl _)).
  repeat constructor.
Defined.

End MarineSteps.

(** ** The result lines of the marine forecast (lines 127-131) *)

Module OutputLine.

Import Py Pandas MarineRules Marine.
Import PyNum.

(** Number of commas in a line: one less than its number of
    comma-separated fields. *)
Fixpoint commas (s : string) : nat :=
  match s with
  | EmptyString => 0
  | String c s' => (if Ascii.eqb c "," then 1 else 0) + commas s'
  end.

Lemma commas_app (a b : string) : commas (a ++ b) = (commas a + commas b)%nat.
Proof.
  induction a as [|c a IH]; [reflexivity|].
  cbn [String.append commas]. rewrite IH. lia.
Qed.

Lemma commas_digit (d : Z) : (d < 10)%Z -> commas (digit d) = 0%nat.
Proof.
  intros H. unfold digit.
  assert (B : (Z.to_nat d < 10)%nat) by lia.
  destruct (Z.to_nat d) as [|[|[|[|[|[|[|[|[|[|n]]]]]]]]]];
    try reflexivity; lia.
Qed.

Lemma commas_digits (fuel : nat) (n : Z) : commas (digits fuel n) = 0%nat.
Proof.
  revert n. induction fuel as [|fuel IH]; intros n; [reflexivity|].
  cbn [digits]. destruct (Z.ltb_spec n 10) as [H|H].
  - now apply commas_digit.
  - rewrite commas_app, IH, commas_digit; [reflexivity|].
    apply Z.mod_pos_bound. lia.
Qed.

Lemma commas_str_of_int (n : Z) : commas (str_of_int n) = 0%nat.
Proof.
  unfold str_of_int. destruct (n <? 0)%Z.
  - rewrite commas_app, commas_digits. reflexivity.
  - apply commas_digits.
Qed.

Lemma commas_zeros (k : nat) : commas (String.concat "" (repeat "0" k)) = 0%nat.
Proof.
  induction k as [|k IH]; [reflexivity|].
  cbn [repeat String.concat]. destruct (repeat "0" k) as [|z l] eqn:E.
  - reflexivity.
  - rewrite !commas_app, IH. reflexivity.
Qed.

Lemma commas_zero_pad (w : nat) (n : Z) : commas (zero_pad w n) = 0%nat.
Proof.
  unfold zero_pad. now rewrite commas_app, commas_zeros, commas_str_of_int.
Qed.

Lemma commas_format_f (n : nat) (x : float) : commas (format_f n x) = 0%nat.
Proof.
  unfold format_f.
  destruct (Prim2SF x) as [s|s| |s m e]; try destruct s; try reflexivity;
    rewrite ?commas_app, ?commas_str_of_int, ?commas_zero_pad; reflexivity.
Qed.

Lemma commas_strftime (t : Datetime.datetime) :
  commas (Datetime.strftime t) = 0%nat.
Proof.
  unfold Datetime.strftime.
  rewrite ?commas_app, ?commas_zero_pad, ?commas_str_of_int. reflexivity.
Qed.

Lemma commas_wind_alert (w : float) : commas (wind_alert w) = 0%nat.
Proof. unfold wind_alert. repeat destruct (_ >=? _)%float; reflexivity. Qed.

Lemma commas_advice (a b : string) : commas (advice a b) = 0%nat.
Proof.
  unfold advice.
  destruct (_ || _ || _ || _); [reflexivity|].
  destruct (_ || _); reflexivity.
Qed.

Lemma commas_wave_alert (h p : float) :
  commas (wave_alert h p)
  = if in_band Upto5 h then 0%nat
    else if in_band From6to8 h || in_band From9to11 h
            || in_band From12to14 h || in_band From15 h
         then 1%nat else 0%nat.
Proof.
  unfold wave_alert, in_band, F64.ge.
  destruct (h <=? 5)%float; [reflexivity|].
  destruct ((6 <=? h)%float && (h <=? 8)%float).
  { destruct (p <=? 9)%float; reflexivity. }
  destruct ((9 <=? h)%float && (h <=? 11)%float).
  { destruct (p <=? 9)%float; [reflexivity|].
    destruct ((10 <=? p)%float && (p <=? 12)%float); reflexivity. }
  destruct ((12 <=? h)%float && (h <=? 14)%float).
  { destruct (p <=? 11)%float; [reflexivity|].
    destruct (p =? 12)%float; reflexivity. }
  cbn [orb]. unfold ">=?"%float.
  destruct (15 <=? h)%float; [|reflexivity].
  destruct (p <=? 12)%float; reflexivity.
Qed.

(** X9: the header has ten comma-separated fields; the data line has ten
    as well when the wave label is the one of the lowest band or "Unknown",
    and eleven for every other wave label (heights in the bands 6-8, 9-11,
    12-14 and 15 or more), whose text contains a comma; the timestamp, the
    numbers, the wind label, the advice and the station never contain
    one. *)
Theorem data_line_field_count (next_time : Datetime.datetime)
    (wvht_pred wspd_pred dpd_pred : float) (n : Z) :
  let h := wvht_ft wvht_pred in
  commas header = 9%nat
  /\ commas (data_line next_time wvht_pred wspd_pred dpd_pred (str_of_int n))
     = (9 + commas (wave_alert h dpd_pred))%nat
  /\ commas (wave_alert h dpd_pred)
     = (if in_band From6to8 h || in_band From9to11 h
           || in_band From12to14 h || in_band From15 h
        then 1 else 0)%nat.
Proof.
  intros h. split; [reflexivity|]. split.
  - unfold data_line.
    rewrite !commas_app, commas_strftime, !commas_format_f,
      commas_wind_alert, commas_advice, commas_str_of_int.
    fold h. change (commas ",") with 1%nat. lia.
  - rewrite commas_wave_alert. destruct (in_band Upto5 h) eqn:E; [|reflexivity].
    rewrite !(AdvisoryTable.other_bands Upto5 _ h E) by discriminate.
    reflexivity.
Qed.

(** *** The station (line 127) *)

Lemma parse_input_inv (read_csv : string -> exn + DataFrame)
    (csv_path : string) (df0 df w : DataFrame) :
  read_csv csv_path = inr df0 ->
  parse_input read_csv csv_path quiet_io = (Ret (df, w), quiet_io) ->
  df = dropna df0 /\ exists locs, get_locs (columns df0) features = inr locs.
Proof.
  intros E P.
  destruct (Nat.ltb_spec (len (dropna df0)) 24) as [H|H].
  { rewrite (parse_input_too_few read_csv _ df0 E H) in P. discriminate. }
  destruct (get_locs (columns df0) features) as [e|locs] eqn:G.
  { rewrite (parse_input_missing_column read_csv _ df0 e E H G) in P.
    discriminate. }
  rewrite (parse_input_window read_csv _ df0 locs E H G) in P.
  injection P as <- _. eauto.
Qed.

Lemma time_step_row (int_of_text : string -> exn + Z) (df : DataFrame)
    (row : Series) (next_time : Datetime.datetime) (s : io) :
  time_step int_of_text df quiet_io = (Ret (row, next_time), s) ->
  iloc_last df = inr row.
Proof.
  unfold time_step, next_time_of, try_except, bind.
  destruct (iloc_last df) as [e|r]; cbn [call ret raise]; [discriminate|].
  destruct (time_fields int_of_text r) as [e|[[[[yy mo] dd] hh] mi]];
    cbn [call ret raise]; [discriminate|].
  destruct (Datetime.new yy mo dd hh mi) as [e|t];
    cbn [call ret raise]; [discriminate|].
  destruct (Datetime.add_minutes t 30) as [e|t'];
    cbn [call ret raise]; [discriminate|].
  now intros [= <- _ _].
Qed.

Lemma iloc_last_complete (df0 : DataFrame) (row : Series) :
  iloc_last (dropna df0) = inr row ->
  exists r, row = combine (columns df0) r /\ In r (rows df0)
            /\ existsb isna r = false.
Proof.
  unfold iloc_last. destruct (tail 1 (rows (dropna df0))) as [|r l] eqn:T;
    [discriminate|].
  intros [= <-]. exists r. split; [reflexivity|].
  assert (I : In r (rows (dropna df0))).
  { apply (tail_In 1). rewrite T. now left. }
  cbn [dropna rows] in I. apply filter_In in I. destruct I as [I C].
  split; [assumption|]. now apply negb_true_iff in C.
Qed.

Lemma int_of_float_finite (x : float) :
  is_nan x = false -> is_infinity x = false ->
  exists n, int_of_float x = inr n.
Proof.
  intros N I. unfold int_of_float.
  destruct (Prim2SF x) as [s|s| |s m e] eqn:E; eauto.
  - rewrite (F64.Prim2SF_infinity x s E) in I. discriminate.
  - rewrite (F64.Prim2SF_nan x E) in N. discriminate.
Qed.

Lemma int_of_float_infinity (x : float) :
  is_infinity x = true ->
  int_of_float x = inl "cannot convert float infinity to integer".
Proof.
  unfold is_infinity. rewrite eqb_spec, abs_spec. unfold int_of_float.
  destruct (Prim2SF x) as [s|s| |s m e]; try reflexivity; discriminate.
Qed.

(** X10: once the forecast time is known, the station is read from the
    same row, and the cell is there and is not a missing value (the row
    survived the removal of incomplete rows).  A numeric station is
    truncated to an integer and the run succeeds, printing the header and
    the data line and nothing else, unless the number is infinite; an
    infinite number, or a text that does not convert, is not caught: the
    run ends with status 1 and prints neither line, the traceback going to
    the null device. *)
Theorem station_step_outcomes
    (load_model : string -> exn + model)
    (joblib_load : string -> exn + scaler)
    (read_csv : string -> exn + DataFrame)
    (int_of_text : string -> exn + Z)
    (float_of_text : string -> exn + float)
    (argv : list string) (m : model) (sc : scaler) (df0 df w : DataFrame)
    (wvht wspd dpd : float) (row : Series) (next_time : Datetime.datetime) :
  List.length argv = 2%nat ->
  load_artifacts load_model joblib_load quiet_io = (Ret (m, sc), quiet_io) ->
  read_csv (nth 1 argv "") = inr df0 ->
  Forall (fun r => List.length r = List.length (columns df0)) (rows df0) ->
  parse_input read_csv (nth 1 argv "") quiet_io = (Ret (df, w), quiet_io) ->
  predict m sc w quiet_io = (Ret (wvht, wspd, dpd), quiet_io) ->
  time_step int_of_text df quiet_io = (Ret (row, next_time), quiet_io) ->
  let o := run (main load_model joblib_load read_csv int_of_text
                     float_of_text argv) in
  exists c,
    series_get row "station" = inr c /\ isna c = false
    /\ (forall x, c = Num x ->
          (is_infinity x = true ->
           o = mk_outcome [] []
                 [traceback "cannot convert float infinity to integer"] 1)
          /\ (is_infinity x = false ->
              exists n,
                int_of_float x = inr n
                /\ o = mk_outcome
                         [header;
                          data_line next_time wvht wspd dpd (str_of_int n)]
                         [] [] 0))
    /\ (forall t e, c = Text t -> float_of_text t = inl e ->
          o = mk_outcome [] [] [traceback e] 1).
Proof.
  intros A L E W P Q T o.
  pose proof (MarineSteps.run_after_time_step load_model joblib_load read_csv
                int_of_text float_of_text argv m sc df w wvht wspd dpd row
                next_time A L P Q T) as R.
  fold o in R.
  destruct (parse_input_inv read_csv _ df0 df w E P) as (-> & locs & G).
  destruct (iloc_last_complete df0 row (time_step_row _ _ _ _ _ T))
    as (r & -> & I & C).
  rewrite Forall_forall in W. pose proof (W r I) as Lr.
  destruct (MarineSteps.get_locs_found _ _ _ G) as (_ & _ & F).
  rewrite Forall_forall in F.
  assert (S : In "station" (columns df0)).
  { apply F. unfold features. cbn. tauto. }
  rewrite (series_get_lookup _ _ "station" Lr) in R |- *.
  unfold lookup in R |- *.
  destruct (get_loc (columns df0) "station") as [i|] eqn:GL;
    [|apply get_loc_None in GL; now destruct GL].
  destruct (get_loc_Some _ _ _ GL) as [Bi _]. rewrite <- Lr in Bi.
  cbn [option_map] in R |- *. set (c := nth i r (Num nan)) in *.
  assert (Nc : isna c = false).
  { destruct (isna c) eqn:X; [|reflexivity].
    assert (Y : existsb isna r = true).
    { apply existsb_exists. exists c. split; [now apply nth_In|assumption]. }
    congruence. }
  exists c. split; [reflexivity|]. split; [assumption|]. split.
  - intros x Ec. rewrite Ec in R, Nc. cbn [and_then float_of_cell isna] in R, Nc.
    split.
    + intros Inf. rewrite (int_of_float_infinity x Inf) in R. exact R.
    + intros Fin. destruct (int_of_float_finite x Nc Fin) as [n Hn].
      exists n. split; [assumption|]. rewrite Hn in R. exact R.
  - intros t e Ec Ft. rewrite Ec in R. cbn [and_then float_of_cell] in R.
    rewrite Ft in R. exact R.
Qed.

Lemma station_step_outcomes_witness :
  exists c,
    series_get (combine features (demo_row 11 30)) "station" = inr c
    /\ isna c = false.
Proof.
  destruct (station_step_outcomes
              (fun _ => inr demo_model) (fun _ => inr demo_scaler)
              (fun _ => inr demo_df) no_text no_text
              ["predict.py"; "data.csv"] demo_model demo_scaler
              demo_df demo_df demo_df 2.5%float 10%float 5%float
              (combine features (demo_row 11 30))
              (Datetime.mk_datetime 2024 1 1 12 0)
              eq_refl eq_refl eq_refl) as (c & H1 & H2 & _);
    try reflexivity.
  - vm_compute. repeat constructor.
  - exists c. split; assumption.
Defined.

End OutputLine.

(** ** When the forecast time is obtained (lines 63-70) *)

Module ForecastTime.

Import Py Pandas Marine.
Local Open Scope Z_scope.

Lemma length_append (a b : string) :
  String.length (a ++ b) = (String.length a + String.length b)%nat.
Proof. induction a as [|c a IH]; cbn; [reflexivity|now rewrite IH]. Qed.

(** Every number of [lo .. lo + n - 1] is written by [f] on [w]
    characters. *)
Definition width_ok (f : Z -> string) (w : nat) (lo : Z) (n : nat) : bool :=
  forallb (fun x => Nat.eqb (String.length (f x)) w) (Datetime.Zrange lo n).

Lemma width_ok_spec (f : Z -> string) (w : nat) (lo : Z) (n : nat) (x : Z) :
  width_ok f w lo n = true -> lo <= x < lo + Z.of_nat n ->
  String.length (f x) = w.
Proof.
  intros H B. apply Nat.eqb_eq.
  exact (Datetime.forallb_Zrange _ lo n H x B).
Qed.

Lemma two_digits : width_ok (PyNum.zero_pad 2) 2 0 60 = true.
Proof. vm_compute. reflexivity. Qed.

Lemma four_digits :
  width_ok PyNum.str_of_int 4 1000 (Z.to_nat 9000) = true.
Proof. vm_compute. reflexivity. Qed.

Lemma strftime_width (t : Datetime.datetime) :
  Datetime.valid t = true -> 1000 <= Datetime.year t ->
  String.length (Datetime.strftime t) = 16%nat.
Proof.
  destruct t as [y m d hh mm]. unfold Datetime.valid.
  cbn [Datetime.year Datetime.month Datetime.day Datetime.hour
       Datetime.minute].
  rewrite Datetime.valid_fields_iff. unfold Datetime.MAXYEAR.
  intros (Hy & Hm & Hd & Hh & Hmi) Y.
  pose proof (Datetime.days_in_month_le_31 y m) as D.
  unfold Datetime.strftime.
  cbn [Datetime.year Datetime.month Datetime.day Datetime.hour
       Datetime.minute].
  rewrite !length_append.
  rewrite (width_ok_spec _ 4 1000 (Z.to_nat 9000) y four_digits) by lia.
  rewrite !(width_ok_spec _ 2 0 60 _ two_digits) by lia.
  reflexivity.
Qed.

(** X15: the time step returns exactly when the last row yields five
    integers that form a calendar time before the last half hour of year
    9999, and what it returns is that row with the time half an hour
    later; the returned time is again a calendar time and, from year 1000
    on, is written on exactly 16 characters.  A field that does not convert
    to an integer is fatal and reported as a time parsing failure. *)
Theorem time_step_returns_iff (int_of_text : string -> exn + Z)
    (df : DataFrame) (row : Series) (next_time : Datetime.datetime) :
  (time_step int_of_text df quiet_io = (Ret (row, next_time), quiet_io)
   <-> iloc_last df = inr row
       /\ exists yy mo dd hh mi,
            time_fields int_of_text row = inr (yy, mo, dd, hh, mi)
            /\ Datetime.valid (Datetime.mk_datetime yy mo dd hh mi) = true
            /\ Datetime.at_end_of_time (Datetime.mk_datetime yy mo dd hh mi)
               = false
            /\ next_time
               = Datetime.half_hour_later
                   (Datetime.mk_datetime yy mo dd hh mi))
  /\ (time_step int_of_text df quiet_io = (Ret (row, next_time), quiet_io) ->
      Datetime.valid next_time = true
      /\ (1000 <= Datetime.year next_time ->
          String.length (Datetime.strftime next_time) = 16%nat))
  /\ (forall e, iloc_last df = inr row ->
        time_fields int_of_text row = inl e ->
        time_step int_of_text df quiet_io
        = (Exit 1, mk_io [] [] ["Time parsing failed: " ++ e]%string true)).
Proof.
  assert (I : time_step int_of_text df quiet_io
              = (Ret (row, next_time), quiet_io) ->
              iloc_last df = inr row
              /\ exists yy mo dd hh mi,
                   time_fields int_of_text row = inr (yy, mo, dd, hh, mi)
                   /\ Datetime.valid (Datetime.mk_datetime yy mo dd hh mi)
                      = true
                   /\ Datetime.at_end_of_time
                        (Datetime.mk_datetime yy mo dd hh mi) = false
                   /\ next_time
                      = Datetime.half_hour_later
                          (Datetime.mk_datetime yy mo dd hh mi)).
  { intros T.
    destruct (iloc_last df) as [e|r] eqn:E1.
    { unfold time_step, next_time_of, try_except, bind in T.
      rewrite E1 in T. discriminate. }
    destruct (time_fields int_of_text r) as [e|[[[[yy mo] dd] hh] mi]] eqn:E2.
    { unfold time_step, next_time_of, try_except, bind in T.
      rewrite E1 in T. cbn [call ret] in T. rewrite E2 in T. discriminate. }
    destruct (Datetime.valid (Datetime.mk_datetime yy mo dd hh mi)) eqn:V.
    2:{ destruct (time_step_invalid int_of_text df r yy mo dd hh mi E1 E2 V)
          as [e He].
        rewrite He in T. discriminate. }
    destruct (Datetime.at_end_of_time (Datetime.mk_datetime yy mo dd hh mi))
      eqn:N.
    { rewrite (time_step_overflow int_of_text df r yy mo dd hh mi E1 E2 V N)
        in T.
      discriminate. }
    rewrite (time_step_ok int_of_text df r yy mo dd hh mi E1 E2 V N) in T.
    injection T as <- <-. split; [reflexivity|].
    exists yy, mo, dd, hh, mi. auto. }
  split; [split|split].
  - exact I.
  - intros (E1 & yy & mo & dd & hh & mi & E2 & V & N & ->).
    now apply time_step_ok.
  - intros T. destruct (I T) as (_ & yy & mo & dd & hh & mi & _ & V & N & ->).
    pose proof (Datetime.half_hour_later_valid _ V N) as V'.
    split; [assumption|]. now apply strftime_width.
  - intros e E1 E2. unfold time_step, next_time_of, try_except, bind.
    rewrite E1. cbn [call ret]. rewrite E2. reflexivity.
Qed.

End ForecastTime.

(** ** The steps of the rogue-wave predictor *)

Module RogueWaveSteps.

Import Py RogueWave.
Local Open Scope py_scope.

(** *** Which array is read (lines 18-25) *)

Lemma has_key_app (key : string) (a b : npz) :
  has_key key (a ++ b)%list = has_key key a || has_key key b.
Proof.
  induction a as [|[k v] a IH]; [reflexivity|].
  cbn [app has_key]. rewrite IH. now rewrite orb_assoc.
Qed.

Lemma getitem_first (key : string) (pre post : npz) (a : list float) :
  has_key key pre = false ->
  getitem (pre ++ (key, a) :: post)%list key = inr a.
Proof.
  induction pre as [|[k v] pre IH]; cbn [app has_key getitem].
  - now rewrite String.eqb_refl.
  - intros H. apply orb_false_iff in H. destruct H as [-> H]. now apply IH.
Qed.

Lemma has_key_getitem (key : string) (data : npz) :
  has_key key data = true -> exists a, getitem data key = inr a.
Proof.
  induction data as [|[k v] data IH]; cbn [has_key getitem]; [discriminate|].
  destruct (String.eqb k key); [eauto|exact IH].
Qed.

(** X11: the trace is the first array stored under "zdisp" when the
    container has that key, even when "zdisp_norw" is present too or comes
    earlier; without "zdisp" it is the first array stored under
    "zdisp_norw"; without both it is the first array of the container; and
    the selection fails only on a container without any array. *)
Theorem trace_selection_order (data : npz) :
  (forall pre a post,
     data = (pre ++ ("zdisp", a) :: post)%list ->
     has_key "zdisp" pre = false -> select_trace data = inr a)
  /\ (has_key "zdisp" data = false ->
      forall pre a post,
        data = (pre ++ ("zdisp_norw", a) :: post)%list ->
        has_key "zdisp_norw" pre = false -> select_trace data = inr a)
  /\ (has_key "zdisp" data = false -> has_key "zdisp_norw" data = false ->
      forall k a rest, data = (k, a) :: rest -> select_trace data = inr a)
  /\ (forall e, select_trace data = inl e <-> data = [] /\ e = "list index out of range").
Proof.
  split; [|split; [|split]].
  - intros pre a post -> H. unfold select_trace.
    rewrite has_key_app. cbn [has_key]. rewrite String.eqb_refl, orb_true_r.
    now apply getitem_first.
  - intros Z pre a post -> H. unfold select_trace. rewrite Z.
    rewrite has_key_app. cbn [has_key]. rewrite String.eqb_refl, orb_true_r.
    now apply getitem_first.
  - intros Z N k a rest ->. unfold select_trace. rewrite Z, N.
    cbn [map fst getitem]. now rewrite String.eqb_refl.
  - intros e. unfold select_trace.
    destruct (has_key "zdisp" data) eqn:Z.
    { destruct (has_key_getitem _ _ Z) as [a ->].
      split; [discriminate|]. intros [-> _]. discriminate. }
    destruct (has_key "zdisp_norw" data) eqn:N.
    { destruct (has_key_getitem _ _ N) as [a ->].
      split; [discriminate|]. intros [-> _]. discriminate. }
    destruct data as [|[k a] rest]; cbn [map fst getitem].
    + split; [now intros [= <-]|now intros [_ ->]].
    + rewrite String.eqb_refl. split; [discriminate|]. intros [? _].
      discriminate.
Qed.

(** *** From the trace to the two lines (lines 28-45) *)

Section Steps.

Variable np_load : string -> exn + npz.
Variable np_std : list float -> float.
Variable load_model : string -> exn + model.
Variable np_exp : float -> float.

Let main' : list string -> M unit := main np_load np_std load_model np_exp.
Let classify' : list float -> M unit := classify load_model np_exp.
Let softmax' : list float -> exn + list float :=
  softmax (H := float_arith np_exp).

Definition model_path : string :=
  "/root/app/rouge_wave_model/RWs_H_g_2p2_tadv_1min/best_LSTM_RWs_H_g_2p2_tadv_1min.h5".

(** An uncaught exception, as the parent process sees it. *)
Definition uncaught (e : exn) : outcome := mk_outcome [] [traceback e] [] 1.

Definition result_line (prob : list float) (p0 p1 : float) : string :=
  PyNum.format_f 6 p0 ++ "," ++ PyNum.format_f 6 p1 ++ ","
  ++ wave_type_str (argmax prob).

Lemma run_classify (z : list float) :
  run (classify' z)
  = if Nat.eqb (List.length z) 1536 then
      match load_model model_path with
      | inl e => uncaught e
      | inr m =>
          match m z with
          | inl e => uncaught e
          | inr pred =>
              match softmax' pred with
              | inl e => uncaught e
              | inr prob =>
                  match prob with
                  | p0 :: p1 :: _ =>
                      mk_outcome [header; result_line prob p0 p1] [] [] 0
                  | _ => uncaught "list index out of range"
                  end
              end
          end
      end
    else uncaught "cannot reshape array into shape (1,1536,1)".
Proof.
  unfold run, classify', classify, reshape, bind, model_path.
  destruct (Nat.eqb (List.length z) 1536); [|reflexivity]. cbn [ret].
  destruct (load_model _) as [e|m]; [reflexivity|]. cbn [call ret].
  destruct (m z) as [e|pred]; [reflexivity|]. cbn [call ret].
  fold softmax'. destruct (softmax' pred) as [e|prob]; [reflexivity|].
  cbn [call ret].
  destruct prob as [|p0 [|p1 prob]]; reflexivity.
Qed.

Lemma softmax_length (pred : list float) :
  pred <> [] ->
  exists prob, softmax' pred = inr prob
               /\ List.length prob = List.length pred.
Proof.
  intros N. unfold softmax', softmax, amax.
  destruct pred as [|a pred]; [now destruct N|]. cbn [and_then].
  eexists. split; [reflexivity|]. now rewrite !length_map.
Qed.

Lemma softmax_empty : exists e, softmax' [] = inl e.
Proof. unfold softmax', softmax, amax. cbn. eauto. Qed.

Lemma normalize_length (zdisp : list float) :
  List.length (normalize np_std zdisp) = List.length zdisp.
Proof. unfold normalize. apply length_map. Qed.

Lemma run_main (argv : list string) :
  run (main' argv)
  = if Nat.ltb (List.length argv) 2 then mk_outcome [usage] [] [] 1
    else match np_load (nth 1 argv "") with
         | inl e => uncaught e
         | inr data =>
             match select_trace data with
             | inl e => uncaught e
             | inr zdisp => run (classify' (normalize np_std zdisp))
             end
         end.
Proof.
  destruct (Nat.ltb_spec (List.length argv) 2) as [H|H].
  - now apply main_missing_argument.
  - destruct (np_load (nth 1 argv "")) as [e|data] eqn:D.
    + unfold run. unfold main'.
      rewrite (main_with_argument np_load np_std load_model np_exp argv H).
      unfold bind at 1. rewrite D. reflexivity.
    + destruct (select_trace data) as [e|zdisp] eqn:S.
      * unfold run. unfold main'.
        rewrite (main_with_argument np_load np_std load_model np_exp argv H).
        unfold bind at 1. rewrite D. cbn [call ret].
        unfold bind at 1. rewrite S. reflexivity.
      * exact (main_after_normalize np_load np_std load_model np_exp
                 argv data zdisp H D S).
Qed.

End Steps.

(** X12: a trace of 1536 samples, a classifier that loads and a
    prediction with at least two scores give a successful run of exactly
    two lines: the header and a result line with as many comma-separated
    fields as the header, three, whatever the numbers printed (a NaN or an
    infinity included) and however many scores there are: two formatted
    numbers, then the label, "non-rogue wave" or "rogue wave". *)
Theorem result_line_has_three_fields
    (load_model : string -> exn + model) (np_exp : float -> float)
    (z : list float) (m : model) (pred : list float) :
  List.length z = 1536%nat ->
  load_model model_path = inr m ->
  m z = inr pred ->
  (2 <= List.length pred)%nat ->
  exists f0 f1 label,
    run (classify load_model np_exp z)
    = mk_outcome [header; f0 ++ "," ++ f1 ++ "," ++ label] [] [] 0
    /\ OutputLine.commas header = 2%nat
    /\ OutputLine.commas (f0 ++ "," ++ f1 ++ "," ++ label) = 2%nat
    /\ OutputLine.commas f0 = 0%nat /\ OutputLine.commas f1 = 0%nat
    /\ (label = "non-rogue wave" \/ label = "rogue wave").
Proof.
  intros L M P K.
  destruct (softmax_length np_exp pred) as (prob & S & Lp).
  { intros ->. cbn in K. lia. }
  destruct prob as [|p0 [|p1 prob]];
    try (rewrite <- Lp in K; cbn in K; lia).
  exists (PyNum.format_f 6 p0), (PyNum.format_f 6 p1),
         (wave_type_str (argmax (p0 :: p1 :: prob))).
  assert (W : OutputLine.commas (wave_type_str (argmax (p0 :: p1 :: prob)))
              = 0%nat)
    by (unfold wave_type_str; now destruct (Nat.eqb _ 0)).
  split; [|split; [reflexivity|split; [|split; [|split]]]].
  - rewrite run_classify. apply Nat.eqb_eq in L. rewrite L, M, P, S.
    reflexivity.
  - rewrite !OutputLine.commas_app, !OutputLine.commas_format_f, W.
    reflexivity.
  - apply OutputLine.commas_format_f.
  - apply OutputLine.commas_format_f.
  - unfold wave_type_str. destruct (Nat.eqb _ 0); [now left|now right].
Qed.

Lemma result_line_has_three_fields_witness :
  exists f0 f1 label,
    run (classify (fun _ => inr (fun _ => inr [1; 0; 0]%float)) demo_exp
           swell_trace)
    = mk_outcome [header; f0 ++ "," ++ f1 ++ "," ++ label] [] [] 0
    /\ OutputLine.commas header = 2%nat
    /\ OutputLine.commas (f0 ++ "," ++ f1 ++ "," ++ label) = 2%nat
    /\ OutputLine.commas f0 = 0%nat /\ OutputLine.commas f1 = 0%nat
    /\ (label = "non-rogue wave" \/ label = "rogue wave").
Proof.
  refine (result_line_has_three_fields
            (fun _ => inr (fun _ => inr [1; 0; 0]%float)) demo_exp
            swell_trace (fun _ => inr [1; 0; 0]%float) [1; 0; 0]%float
            eq_refl eq_refl eq_refl _).
  cbn. lia.
Defined.

(** X13: a run of the rogue-wave predictor succeeds exactly when it is
    given an argument, the file loads, the container is not empty, the
    selected trace has 1536 samples, the classifier loads and its
    prediction has at least two scores.  A trace of any other length fails
    before the classifier is loaded: the outcome does not depend on the
    classifier file. *)
Theorem rogue_wave_run_succeeds_iff
    (np_load : string -> exn + npz) (np_std : list float -> float)
    (load_model : string -> exn + model) (np_exp : float -> float)
    (argv : list string) :
  (status (run (main np_load np_std load_model np_exp argv)) = 0%Z <->
   (2 <= List.length argv)%nat
   /\ exists data zdisp m pred,
        np_load (nth 1 argv "") = inr data
        /\ select_trace data = inr zdisp
        /\ List.length zdisp = 1536%nat
        /\ load_model model_path = inr m
        /\ m (normalize np_std zdisp) = inr pred
        /\ (2 <= List.length pred)%nat)
  /\ (forall data zdisp load_model',
        np_load (nth 1 argv "") = inr data ->
        select_trace data = inr zdisp ->
        List.length zdisp <> 1536%nat ->
        run (main np_load np_std load_model' np_exp argv)
        = run (main np_load np_std load_model np_exp argv)).
Proof.
  split.
  - rewrite run_main.
    destruct (Nat.ltb_spec (List.length argv) 2) as [H|H].
    { split; [discriminate|]. intros [H' _]. lia. }
    destruct (np_load (nth 1 argv "")) as [e|data] eqn:D.
    { split; [discriminate|]. intros (_ & ? & ? & ? & ? & ? & _).
      discriminate. }
    destruct (select_trace data) as [e|zdisp] eqn:S.
    { split; [discriminate|]. intros (_ & d & zd & ? & ? & X & Y & _).
      congruence. }
    rewrite run_classify, normalize_length.
    destruct (Nat.eqb_spec (List.length zdisp) 1536) as [L|L].
    2:{ split; [discriminate|].
        intros (_ & d & zd & ? & ? & X & Y & Z & _).
        assert (zd = zdisp) by congruence. congruence. }
    destruct (load_model model_path) as [e|m] eqn:M.
    { split; [discriminate|].
      intros (_ & ? & ? & ? & ? & X & Y & Z & W & _). discriminate. }
    destruct (m (normalize np_std zdisp)) as [e|pred] eqn:P.
    { split; [discriminate|].
      intros (_ & d & zd & m' & pr & X & Y & Z & W & V & _).
      assert (zd = zdisp) by congruence. congruence. }
    assert (Q : forall d zd m' pr,
              @inr exn npz data = inr d -> select_trace d = inr zd ->
              @inr exn model m = inr m' ->
              m' (normalize np_std zd) = inr pr ->
              pr = pred).
    { intros d zd m' pr X Y W V.
      assert (zd = zdisp) by congruence. congruence. }
    destruct pred as [|a [|b pred]].
    + destruct (softmax_empty np_exp) as [e ->].
      split; [discriminate|].
      intros (_ & d & zd & m' & pr & X & Y & Z & W & V & K).
      rewrite (Q d zd m' pr X Y W V) in K. cbn in K. lia.
    + destruct (softmax_length np_exp [a]) as (prob & -> & Lp);
        [discriminate|].
      destruct prob as [|p0 [|p1 prob]]; try discriminate Lp.
      split; [discriminate|].
      intros (_ & d & zd & m' & pr & X & Y & Z & W & V & K).
      rewrite (Q d zd m' pr X Y W V) in K. cbn in K. lia.
    + destruct (softmax_length np_exp (a :: b :: pred)) as (prob & -> & Lp);
        [discriminate|].
      destruct prob as [|p0 [|p1 prob]]; try discriminate Lp.
      split; [|reflexivity]. intros _. split; [assumption|].
      exists data, zdisp, m, (a :: b :: pred).
      repeat (split; [reflexivity || assumption|]). cbn. lia.
  - intros data zdisp load_model' D S L. rewrite !run_main, D, S.
    destruct (Nat.ltb (List.length argv) 2); [reflexivity|].
    rewrite !run_classify, normalize_length.
    apply Nat.eqb_neq in L. now rewrite L.
Qed.

(** *** The label for any number of classes (lines 41-42) *)

Lemma argmax_from_moved (l : list float) (mp : float) (max_ind i k : nat) :
  (k <= max_ind)%nat -> (k <= i)%nat ->
  (k <= argmax_from mp max_ind i l)%nat.
Proof.
  revert mp max_ind i. induction l as [|x l IH]; intros mp max_ind i A B;
    cbn [argmax_from]; [assumption|].
  destruct (negb (x <=? mp)%float).
  - destruct (is_nan x); [assumption|]. apply IH; lia.
  - apply IH; lia.
Qed.

Lemma argmax_from_kept (l : list float) (mp : float) (max_ind i : nat) :
  (max_ind < i)%nat ->
  (argmax_from mp max_ind i l = max_ind
   <-> Forall (fun x => (x <=? mp)%float = true) l).
Proof.
  revert i. induction l as [|x l IH]; intros i A; cbn [argmax_from].
  - split; [constructor|reflexivity].
  - destruct (x <=? mp)%float eqn:E; cbn [negb].
    + rewrite (IH (S i)) by lia. split.
      * intros F. now constructor.
      * intros F. now inversion F.
    + split.
      * intros R. exfalso.
        assert (i <= argmax_from x i (S i) l)%nat
          by (apply argmax_from_moved; lia).
        destruct (is_nan x); lia.
      * intros F. inversion F; congruence.
Qed.

Lemma argmax_from_bound (l : list float) (mp : float) (max_ind i : nat) :
  (max_ind < i)%nat ->
  (argmax_from mp max_ind i l < i + List.length l)%nat.
Proof.
  revert mp max_ind i. induction l as [|x l IH]; intros mp max_ind i A;
    cbn [argmax_from List.length]; [lia|].
  destruct (negb (x <=? mp)%float).
  - destruct (is_nan x); [lia|].
    specialize (IH x i (S i)). lia.
  - specialize (IH mp max_ind (S i)). lia.
Qed.

Lemma not_all_exists {A} (f : A -> bool) (l : list A) :
  ~ Forall (fun x => f x = true) l -> Exists (fun x => f x = false) l.
Proof.
  induction l as [|a l IH]; intros N.
  - destruct N. constructor.
  - destruct (f a) eqn:E; [|now left].
    right. apply IH. intros F. apply N. now constructor.
Qed.

(** X14: for any number of classes the class index lies within the
    probabilities, and the label is "non-rogue wave" exactly when the
    first probability is a NaN or no other probability exceeds it, ties
    included; every other case is labelled "rogue wave", whichever class
    has the largest probability. *)
Theorem label_for_any_number_of_classes (p0 : float) (rest : list float) :
  (argmax (p0 :: rest) < List.length (p0 :: rest))%nat
  /\ (wave_type_str (argmax (p0 :: rest)) = "non-rogue wave"
      <-> is_nan p0 = true
          \/ Forall (fun x => (x <=? p0)%float = true) rest)
  /\ (wave_type_str (argmax (p0 :: rest)) = "rogue wave"
      <-> is_nan p0 = false
          /\ Exists (fun x => (x <=? p0)%float = false) rest).
Proof.
  assert (K : argmax (p0 :: rest) = 0%nat
              <-> is_nan p0 = true
                  \/ Forall (fun x => (x <=? p0)%float = true) rest).
  { unfold argmax. destruct (is_nan p0).
    - split; [now left|reflexivity].
    - rewrite (argmax_from_kept rest p0 0 1) by lia.
      split; [now right|]. intros [?|?]; [discriminate|assumption]. }
  assert (W : wave_type_str (argmax (p0 :: rest)) = "non-rogue wave"
              <-> argmax (p0 :: rest) = 0%nat).
  { unfold wave_type_str. destruct (Nat.eqb_spec (argmax (p0 :: rest)) 0).
    - split; trivial.
    - split; [discriminate|contradiction]. }
  split; [|split].
  - unfold argmax. destruct (is_nan p0); cbn [List.length]; [lia|].
    pose proof (argmax_from_bound rest p0 0 1). lia.
  - now rewrite W.
  - assert (R : wave_type_str (argmax (p0 :: rest)) = "rogue wave"
                <-> argmax (p0 :: rest) <> 0%nat).
    { unfold wave_type_str. destruct (Nat.eqb_spec (argmax (p0 :: rest)) 0).
      - split; [discriminate|contradiction].
      - split; trivial. }
    rewrite R, K. split.
    + intros N. destruct (is_nan p0); [destruct N; now left|].
      split; [reflexivity|].
      apply not_all_exists. intros F. apply N. now right.
    + intros [N E] [C|F]; [congruence|].
      apply Exists_exists in E. destruct E as (x & I & E).
      rewrite Forall_forall in F. rewrite (F x I) in E. discriminate.
Qed.

End RogueWaveSteps.
